(** * Graph classification notebook: a shallow embedding

    The program is the notebook [graph_classification_tutorial.ipynb]:
    it splits a dataset of labelled graphs, batches graphs with a collate
    function, runs a three-layer graph-convolutional model with a sum
    readout and a linear classifier, trains it and reports accuracy.

    Floating-point arithmetic is kept abstract (class [FloatOps]): the
    development relies on which operations are applied to which operands
    and in which order, and on a single law of the floats: the quotient of
    two counts [a <= b] is a finite number between 0 and 1.  Everything
    structural is concrete: graphs, frames (dictionaries of node
    features), batching, index arithmetic, loops, failures, the text that
    is printed. *)

From stdpp Require Import gmap strings list fin_maps.
From Stdlib Require Import QArith Qabs.

Open Scope nat_scope.

(** ** Failures *)

Inductive error : Type :=
  | KeyError (k : string)
  | IndexError
  | ValueError
  | AssertionError
  | RuntimeError
  | DGLError
  | ZeroDivisionError.

Inductive result (A : Type) : Type :=
  | Ok (a : A)
  | Err (e : error).
Arguments Ok {A} a.
Arguments Err {A} e.

Definition is_Ok {A} (r : result A) : Prop := ∃ a, r = Ok a.

#[global] Instance result_ret : MRet result := λ A a, Ok a.
#[global] Instance result_bind : MBind result := λ A B f r,
  match r with Ok a => f a | Err e => Err e end.

(** Computations that mutate one object of type [S] and may raise. *)
Definition SE (S A : Type) : Type := S → result A * S.

Definition se_ret {S A} (a : A) : SE S A := λ s, (Ok a, s).
Definition se_bind {S A B} (c : SE S A) (k : A → SE S B) : SE S B := λ s,
  match c s with
  | (Ok a, s') => k a s'
  | (Err e, s') => (Err e, s')
  end.
Definition se_get {S} : SE S S := λ s, (Ok s, s).
Definition se_raise {S A} (e : error) : SE S A := λ s, (Err e, s).
Definition se_lift {S A} (r : result A) : SE S A := λ s, (r, s).

Declare Scope se_scope.
Delimit Scope se_scope with se.
Notation "'do' x <~ c ; k" := (se_bind c (λ x, k))
  (at level 10, x name, c at level 100, k at level 200) : se_scope.
Notation "'run' c ; k" := (se_bind c (λ _, k))
  (at level 10, c at level 100, k at level 200) : se_scope.

Fixpoint se_foldM {S A B} (f : A → B → SE S A) (a : A) (l : list B) : SE S A :=
  match l with
  | [] => se_ret a
  | b :: l' => se_bind (f a b) (λ a', se_foldM f a' l')
  end.

(** ** Floating-point operations, kept abstract *)

(** What ["{:.4f}"] sees of a float: not a number, an infinity, or a
    finite number, which it rounds to a sign and a number of
    ten-thousandths. *)
Inductive fixed4 : Type :=
  | F4_nan
  | F4_inf (negative : bool)
  | F4_fin (negative : bool) (ten_thousandths : nat).

Class FloatOps : Type := {
  scalar : Type;
  Vec : Type;
  Weight : Type;
  vzeros : nat → Vec;
  vadd : Vec → Vec → Vec;
  vscale : scalar → Vec → Vec;
  vmatmul : Vec → Weight → Vec;
  wtranspose : Weight → Weight;
  vrelu : Vec → Vec;
  pow_neg_half : nat → scalar;
  argmax : Vec → Z;
  cross_entropy : list Vec → list Z → scalar;
  np_mean : list scalar → scalar;
  true_div : nat → nat → scalar;
  round_4f : scalar → fixed4;
  true_div_round : ∀ a b : nat, 0 < b → a ≤ b →
    ∃ n, round_4f (true_div a b) = F4_fin false n ∧ n ≤ 10 ^ 4;
}.

Section Model.
Context `{FO : FloatOps}.

(** A two-dimensional float tensor of shape [(length rows, width)]. *)
Record Tensor : Type := mkTensor { width : nat; rows : list Vec }.

(** ** Graphs *)

(** [edges] lists the directed edges [(src, dst)]; an undirected edge is
    stored in both directions.  [batch_info] is [None] for a graph that
    was not produced by [dgl.batch]. *)
Record DGLGraph : Type := mkGraph {
  num_nodes : nat;
  edges : list (nat * nat);
  ndata : gmap string Tensor;
  batch_info : option (list nat);
}.

Definition batch_num_nodes (g : DGLGraph) : list nat :=
  default [num_nodes g] (batch_info g).

Definition batch_size (g : DGLGraph) : nat := length (batch_num_nodes g).

Definition set_frame (g : DGLGraph) (fr : gmap string Tensor) : DGLGraph :=
  mkGraph (num_nodes g) (edges g) fr (batch_info g).

Definition in_degree (g : DGLGraph) (v : nat) : nat :=
  length (filter (λ e, e.2 = v) (edges g)).

Definition in_degrees (g : DGLGraph) : list nat :=
  in_degree g <$> seq 0 (num_nodes g).

(** *** dgl.batch

    The library function [dgl.batch] is not part of the notebook.  Its
    model follows what the library documents: the nodes of the input
    graphs are renumbered to one contiguous range, graph after graph; the
    edges are shifted accordingly; the per-graph node counts are kept; the
    node features are concatenated key by key, which requires every graph
    to carry the same keys with the same widths. *)

Definition shift_edge (off : nat) (e : nat * nat) : nat * nat :=
  (off + e.1, off + e.2).

Fixpoint batch_edges (off : nat) (gs : list DGLGraph) : list (nat * nat) :=
  match gs with
  | [] => []
  | g :: gs' => (shift_edge off <$> edges g) ++ batch_edges (off + num_nodes g) gs'
  end.

Definition widths_agree (f1 f2 : gmap string Tensor) : Prop :=
  map_Forall (λ _ p, width p.1 = width p.2) (map_zip f1 f2).

Definition frame_cat (f1 f2 : gmap string Tensor) : result (gmap string Tensor) :=
  if decide (dom f1 = dom f2) then
    if decide (widths_agree f1 f2) then
      Ok (map_zip_with (λ t1 t2, mkTensor (width t1) (rows t1 ++ rows t2)) f1 f2)
    else Err RuntimeError
  else Err DGLError.

Fixpoint batch_frames (gs : list DGLGraph) : result (gmap string Tensor) :=
  match gs with
  | [] => Ok ∅
  | g :: gs' =>
      match gs' with
      | [] => Ok (ndata g)
      | _ => rest ← batch_frames gs'; frame_cat (ndata g) rest
      end
  end.

(** Modelled from the spec: [dgl.batch], library code absent from the
    repository.  It merges a list of graphs into one disjoint-union graph
    whose nodes are renumbered to a single contiguous range, with the
    per-graph boundaries tracked in [batch_info]. *)
Definition dgl_batch (gs : list DGLGraph) : result DGLGraph :=
  match gs with
  | [] => Err DGLError
  | _ =>
      fr ← batch_frames gs;
      Ok (mkGraph (sum_list (num_nodes <$> gs))
                  (batch_edges 0 gs)
                  fr
                  (Some (mjoin (batch_num_nodes <$> gs))))
  end.

(** ** The collate function of the notebook

    Unzipping the pairs into [graphs, labels] fails to unpack on an empty
    list; [torch.stack(labels, dim=0)] keeps the labels in list order.  A
    label is the class index of its graph. *)

Definition collate_molgraphs_for_classification (data : list (DGLGraph * Z))
  : result (DGLGraph * list Z) :=
  match data with
  | [] => Err ValueError
  | _ =>
      let graphs := data.*1 in
      let labels := data.*2 in
      bg ← dgl_batch graphs;
      Ok (bg, labels)
  end.

(** ** Node frames: [g.ndata] *)

(** [g.ndata[k] = t]: the tensor must have one row per node. *)
Definition set_ndata (k : string) (t : Tensor) : SE DGLGraph unit := λ g,
  if decide (length (rows t) = num_nodes g)
  then (Ok tt, set_frame g (<[k:=t]> (ndata g)))
  else (Err DGLError, g).

(** [g.ndata[k]] *)
Definition get_ndata (k : string) : SE DGLGraph Tensor := λ g,
  match ndata g !! k with
  | Some t => (Ok t, g)
  | None => (Err (KeyError k), g)
  end.

(** [g.ndata.pop(k)] *)
Definition pop_ndata (k : string) : SE DGLGraph Tensor := λ g,
  match ndata g !! k with
  | Some t => (Ok t, set_frame g (delete k (ndata g)))
  | None => (Err (KeyError k), g)
  end.

(** Modelled from the spec: [graph.local_var()], library code absent from
    the repository.  The computation works on a copy of the graph whose
    frame is a shallow copy; the caller's graph keeps its frame. *)
Definition local_var {A} (body : SE DGLGraph A) : SE DGLGraph A := λ g,
  ((body g).1, g).

(** Modelled from the spec: [with g.local_scope(): body], library code
    absent from the repository.  The context manager is a generator that
    saves the frame, yields, and restores the frame after the [yield]; it
    has no [try/finally], so the frame is restored only when the body
    finishes without raising. *)
Definition local_scope {A} (body : SE DGLGraph A) : SE DGLGraph A := λ g,
  match body g with
  | (Ok a, _) => (Ok a, g)
  | (Err e, g') => (Err e, g')
  end.

(** ** Message passing *)

(** Messages arriving at node [v]: the source rows of the edges into [v],
    in edge order. *)
Definition in_msgs (g : DGLGraph) (feat : list Vec) (v : nat) : list Vec :=
  omap (λ e : nat * nat, if decide (e.2 = v) then feat !! e.1 else None) (edges g).

Definition vsum (w : nat) (l : list Vec) : Vec := fold_left vadd l (vzeros w).

(** Modelled from the spec: [graph.update_all(fn.copy_src(src, 'm'),
    fn.sum('m', out))], library code absent from the repository.  On a
    graph without any edge no message is sent and the frame is left as it
    is, so that a layer transforms the features of every node on their
    own, with no neighbour mixing.  On a graph with edges every node
    receives the sum of the source rows of its incoming edges, and a node
    without incoming edge receives zeros. *)
Definition update_all_copy_sum (src out : string) : SE DGLGraph unit :=
  (do g <~ se_get;
   if decide (edges g = []) then se_ret tt
   else
     (do h <~ get_ndata src;
      set_ndata out
        (mkTensor (width h)
           ((λ v, vsum (width h) (in_msgs g (rows h) v)) <$> seq 0 (num_nodes g)))))%se.

(** ** Tensor operations used by the layers *)

(** [feat * norm] with [norm] of shape [(N, 1)] and [feat] of shape
    [(M, D)], with torch's broadcasting rule on the first dimension. *)
Definition th_mul_norm (feat : Tensor) (norm : list scalar) : result Tensor :=
  if decide (length (rows feat) = length norm) then
    Ok (mkTensor (width feat) (zip_with vscale norm (rows feat)))
  else
    match norm, rows feat with
    | [c], _ => Ok (mkTensor (width feat) (vscale c <$> rows feat))
    | _, [r] => Ok (mkTensor (width feat) ((λ c, vscale c r) <$> norm))
    | _, _ => Err RuntimeError
    end.

(** [torch.matmul(feat, W)] for [W] of shape [(n_in, n_out)] *)
Definition th_matmul (n_in n_out : nat) (W : Weight) (feat : Tensor) : result Tensor :=
  if decide (width feat = n_in)
  then Ok (mkTensor n_out ((λ r, vmatmul r W) <$> rows feat))
  else Err RuntimeError.

(** [t + bias] for a bias vector of the width of [t] *)
Definition th_add_bias (t : Tensor) (b : Vec) : Tensor :=
  mkTensor (width t) ((λ r, vadd r b) <$> rows t).

(** [F.relu] *)
Definition F_relu (t : Tensor) : Tensor := mkTensor (width t) (vrelu <$> rows t).

(** ** dgl.nn.pytorch.conv.GraphConv *)

Record GraphConv : Type := mkGraphConv {
  in_feats : nat;
  out_feats : nat;
  gc_weight : Weight;
  gc_bias : Vec;
  gc_activation : option (Tensor → Tensor);
}.

Definition apply_activation (act : option (Tensor → Tensor)) (t : Tensor) : Tensor :=
  match act with Some f => f t | None => t end.

(** Modelled from the spec: [GraphConv.forward], library code absent from
    the repository (the layer of the release the notebook was written
    for, which accepts nodes without incoming edge).  The features are
    scaled by [in_degree^-1/2] (degrees clamped to 1), sent along the
    edges and summed at their targets by [update_all], multiplied by the
    weight (before the message passing when that makes the rows shorter),
    scaled again, shifted by the bias and passed to the activation. *)
Definition GraphConv_forward (L : GraphConv) (feat : Tensor) : SE DGLGraph Tensor :=
  local_var
    (do g <~ se_get;
     let norm := (λ d, pow_neg_half (d `max` 1)) <$> in_degrees g in
     do feat <~ se_lift (th_mul_norm feat norm);
     do rst <~
       (if decide (out_feats L < in_feats L) then
          do feat <~ se_lift (th_matmul (in_feats L) (out_feats L) (gc_weight L) feat);
          run set_ndata "h" feat;
          run update_all_copy_sum "h" "h";
          get_ndata "h"
        else
          run set_ndata "h" feat;
          run update_all_copy_sum "h" "h";
          do rst <~ get_ndata "h";
          se_lift (th_matmul (in_feats L) (out_feats L) (gc_weight L) rst));
     do rst <~ se_lift (th_mul_norm rst norm);
     let rst := th_add_bias rst (gc_bias L) in
     se_ret (apply_activation (gc_activation L) rst))%se.

(** ** torch.nn.Linear *)

Record Linear : Type := mkLinear {
  in_features : nat;
  out_features : nat;
  lin_weight : Weight;
  lin_bias : Vec;
}.

Definition Linear_forward (L : Linear) (x : Tensor) : result Tensor :=
  t ← th_matmul (in_features L) (out_features L) (wtranspose (lin_weight L)) x;
  Ok (th_add_bias t (lin_bias L)).

(** ** dgl.sum_nodes *)

Fixpoint segments (ns : list nat) (l : list Vec) : list (list Vec) :=
  match ns with
  | [] => []
  | n :: ns' => take n l :: segments ns' (drop n l)
  end.

(** Modelled from the spec: [dgl.sum_nodes], library code absent from the
    repository.  It sums the node features within each graph of the
    batch, following the per-graph node counts, and yields one row per
    graph. *)
Definition sum_nodes (field : string) : SE DGLGraph Tensor :=
  (do feat <~ get_ndata field;
   do g <~ se_get;
   se_ret (mkTensor (width feat)
             (vsum (width feat) <$> segments (batch_num_nodes g) (rows feat))))%se.

(** ** GCNModel *)

(** The learnable tensors, in the order of [model.parameters()]. *)
Record Params : Type := mkParams {
  conv1_weight : Weight; conv1_bias : Vec;
  conv2_weight : Weight; conv2_bias : Vec;
  conv3_weight : Weight; conv3_bias : Vec;
  classifier_weight : Weight; classifier_bias : Vec;
}.

(** The model object: its hyper-parameters are fixed by the constructor,
    its parameters are updated in place by the optimizer, [training] is
    the mode flag set by [model.train()] and [model.eval()]. *)
Record GCNModel : Type := mkGCNModel {
  m_in_feats : nat;
  m_n_hidden : nat;
  m_out_feats : nat;
  m_params : Params;
  training : bool;
}.

(** [GCNModel.__init__] *)
Definition GCNModel_init (in_f n_hidden out_f : nat) (p : Params) : GCNModel :=
  mkGCNModel in_f n_hidden out_f p true.

(** [self.layers], a [ModuleList] of three [GraphConv] with ReLU *)
Definition layers (m : GCNModel) : list GraphConv :=
  let p := m_params m in
  [ mkGraphConv (m_in_feats m) (m_n_hidden m) (conv1_weight p) (conv1_bias p) (Some F_relu);
    mkGraphConv (m_n_hidden m) (m_n_hidden m) (conv2_weight p) (conv2_bias p) (Some F_relu);
    mkGraphConv (m_n_hidden m) (m_n_hidden m) (conv3_weight p) (conv3_bias p) (Some F_relu) ].

(** [self.classifier] *)
Definition classifier (m : GCNModel) : Linear :=
  let p := m_params m in
  mkLinear (m_n_hidden m) (m_out_feats m) (classifier_weight p) (classifier_bias p).

(** [GCNModel.forward] *)
Definition GCNModel_forward (m : GCNModel) (features : Tensor) : SE DGLGraph Tensor :=
  (do h <~ se_foldM (λ h layer, GraphConv_forward layer h) features (layers m);
   do h_g <~ local_scope (run set_ndata "feat" h; sum_nodes "feat");
   se_lift (Linear_forward (classifier m) h_g))%se.

End Model.

(** ** Random numbers, gradients and the optimizer, kept abstract *)

(** The bit generator behind [np.random.RandomState]: [rk_seed] builds
    the state of a generator from an integer seed, [rk_interval max]
    draws an integer in [[0, max]]. *)
Class RandomGen : Type := {
  rk_state : Type;
  rk_seed : Z → rk_state;
  rk_interval : nat → rk_state → nat * rk_state;
}.

(** [loss.backward()] gives the gradient of the batch loss with respect
    to the parameters; [Adam_step] is [optimizer.step()]. *)
Class Autograd `{FO : FloatOps} : Type := {
  Grads : Type;
  OptState : Type;
  Adam_init : Params → OptState;
  loss_backward : GCNModel → DGLGraph → Tensor → list Z → Grads;
  Adam_step : OptState → Params → Grads → OptState * Params;
}.

Section Program.
Context `{FO : FloatOps} `{AG : !Autograd} `{RG : RandomGen}.

(** ** dgl.data.utils.split_dataset

    The library function [split_dataset] is not part of the notebook.
    Its model follows the library: the lengths are the truncated products
    of the dataset size with the ratios, the last one being what is left;
    the indices are [arange(n)], shuffled by [RandomState(seed)] when
    asked; the subsets are consecutive slices of the indices. *)

Definition Dataset : Type := list (DGLGraph * Z).

(** [torch.utils.data.Subset] *)
Record Subset : Type := mkSubset {
  sub_dataset : Dataset;
  sub_indices : list nat;
}.

Definition Subset_len (s : Subset) : nat := length (sub_indices s).

Definition Subset_getitem (s : Subset) (i : nat) : result (DGLGraph * Z) :=
  match sub_indices s !! i with
  | None => Err IndexError
  | Some j =>
      match sub_dataset s !! j with
      | None => Err IndexError
      | Some d => Ok d
      end
  end.

(** [x[i], x[j] = x[j], x[i]] *)
Definition swap (x : list nat) (i j : nat) : list nat :=
  match x !! i, x !! j with
  | Some a, Some b => <[j:=a]> (<[i:=b]> x)
  | _, _ => x
  end.

(** The loop of [RandomState.shuffle] on a one-dimensional array:
    [for i in reversed(range(1, n)): j = rk_interval(i); swap x[i], x[j]],
    entered at index [i]. *)
Fixpoint shuffle_from (i : nat) (st : rk_state) (x : list nat) : list nat :=
  match i with
  | 0 => x
  | S i' =>
      let '(j, st') := rk_interval i st in
      shuffle_from i' st' (swap x i j)
  end.

(** [RandomState.permutation(n)]: shuffle [arange(n)]. *)
Definition permutation (st : rk_state) (n : nat) : list nat :=
  shuffle_from (n - 1) st (seq 0 n).

(** [np.random.RandomState(seed=random_state)]: with an integer seed the
    state depends on the seed only; with [None] it is seeded from the
    operating system's entropy, here the argument [entropy]. *)
Definition RandomState (random_state : option Z) (entropy : Z) : rk_state :=
  match random_state with
  | Some seed => rk_seed seed
  | None => rk_seed entropy
  end.

(** [np.allclose(x, 1.)] with the default tolerances:
    [|x - 1| <= 1e-8 + 1e-5 * |1|]. *)
Definition allclose_one (x : Q) : bool :=
  Qle_bool (Qabs (x - 1)) (1001 # 100000000).

(** [(num_data * frac).astype(int)]: the product, truncated towards
    zero.  The fractions are taken as exact rationals; for the ratio 0.8
    of the notebook the truncated double product is the truncated rational
    product [4n/5] for every dataset size that a list can have (the double
    nearest to 0.8 exceeds it by a relative [2^-54], less than half a unit
    in the last place of the product). *)
Definition scaled_length (num_data : nat) (frac : Q) : Z :=
  (Z.of_nat num_data * Qnum frac) `quot` Zpos (Qden frac).

Definition sum_Z (l : list Z) : Z := foldr Z.add 0%Z l.

(** [lengths[-1] = num_data - np.sum(lengths[:-1])] *)
Fixpoint set_last_length (num_data : Z) (lengths : list Z) : list Z :=
  match lengths with
  | [] => []
  | [_] => [num_data]
  | l :: ls => l :: set_last_length (num_data - l) ls
  end.

(** [itertools.accumulate] *)
Fixpoint accumulate_from (acc : Z) (l : list Z) : list Z :=
  match l with
  | [] => []
  | x :: l' => (acc + x)%Z :: accumulate_from (acc + x) l'
  end.

(** [l[start:stop]] with Python's treatment of negative and
    out-of-range bounds. *)
Definition py_slice {A} (l : list A) (start stop : Z) : list A :=
  let n := Z.of_nat (length l) in
  let clip z := if (z <? 0)%Z then Z.max 0 (z + n) else Z.min z n in
  let s := clip start in
  let e := clip stop in
  take (Z.to_nat (e - s)) (drop (Z.to_nat s) l).

(** Modelled from the spec: [split_dataset], library code absent from the
    repository.  It partitions the indices of the dataset into
    consecutive subsets whose sizes follow the ratios, after a shuffle
    that depends on the seed alone. *)
Definition split_dataset (dataset : Dataset) (frac_list : list Q)
    (shuffle : bool) (random_state : option Z) (entropy : Z) : result (list Subset) :=
  if allclose_one (foldr Qplus 0%Q frac_list) then
    let num_data := length dataset in
    let lengths := set_last_length (Z.of_nat num_data) (scaled_length num_data <$> frac_list) in
    let indices :=
      if shuffle then permutation (RandomState random_state entropy) num_data
      else seq 0 num_data in
    Ok ((λ '(offset, len), mkSubset dataset (py_slice indices (offset - len) offset))
          <$> zip (accumulate_from 0 lengths) lengths)
  else Err AssertionError.

(** ** torch.utils.data.DataLoader *)

(** Modelled from the spec: [BatchSampler.__iter__] without [drop_last],
    library code absent from the repository.  Indices are appended to the
    current batch, a full batch is yielded, and a non-empty rest is
    yielded at the end. *)
Fixpoint batch_sampler (batch_size : nat) (batch : list nat) (sampler : list nat)
  : list (list nat) :=
  match sampler with
  | [] => if decide (0 < length batch) then [batch] else []
  | idx :: sampler' =>
      let batch := batch ++ [idx] in
      if decide (length batch = batch_size)
      then batch :: batch_sampler batch_size [] sampler'
      else batch_sampler batch_size batch sampler'
  end.

Record DataLoader : Type := mkDataLoader {
  dl_dataset : Subset;
  dl_batch_size : nat;
}.

(** The index batches of one pass over the loader (sequential sampler). *)
Definition DataLoader_batches (dl : DataLoader) : list (list nat) :=
  batch_sampler (dl_batch_size dl) [] (seq 0 (Subset_len (dl_dataset dl))).

(** Fetching one batch: [collate_fn([dataset[i] for i in batch])]. *)
Definition DataLoader_fetch (dl : DataLoader) (batch : list nat)
  : result (DGLGraph * list Z) :=
  data ← mapM (Subset_getitem (dl_dataset dl)) batch;
  collate_molgraphs_for_classification data.

(** ** Program state *)

Record State : Type := mkState {
  model : GCNModel;
  optimizer : OptState;
  grad_enabled : bool;
  stdout : list string;
}.

Definition set_model (st : State) (m : GCNModel) : State :=
  mkState m (optimizer st) (grad_enabled st) (stdout st).

Definition set_grad_enabled (st : State) (b : bool) : State :=
  mkState (model st) (optimizer st) b (stdout st).

Definition set_training (m : GCNModel) (b : bool) : GCNModel :=
  mkGCNModel (m_in_feats m) (m_n_hidden m) (m_out_feats m) (m_params m) b.

(** [model.train()] and [model.eval()] *)
Definition model_train : SE State unit := λ st,
  (Ok tt, set_model st (set_training (model st) true)).
Definition model_eval : SE State unit := λ st,
  (Ok tt, set_model st (set_training (model st) false)).

(** [print(line)] *)
Definition print (line : string) : SE State unit := λ st,
  (Ok tt, mkState (model st) (optimizer st) (grad_enabled st) (stdout st ++ [line])).

(** [with torch.no_grad(): body]: the previous mode is restored on exit,
    also when the body raises. *)
Definition no_grad {A} (body : SE State A) : SE State A := λ st,
  let prev := grad_enabled st in
  let '(r, st') := body (set_grad_enabled st false) in
  (r, set_grad_enabled st' prev).

(** [model(bg, atom_feats)]: the batched graph is a local object of the
    loop body; its final frame is dropped with it. *)
Definition call_model (m : GCNModel) (bg : DGLGraph) (feats : Tensor) : result Tensor :=
  (GCNModel_forward m feats bg).1.

(** [(logits.argmax(1) == labels.long()).float().sum().item()]; both
    tensors have one entry per graph of the batch. *)
Definition count_correct (logits : Tensor) (labels : list Z) : nat :=
  length (filter (λ p : Z * Z, p.1 = p.2) (zip (argmax <$> rows logits) labels)).

(** The class index that [CrossEntropyLoss] skips by default. *)
Definition ignore_index : Z := (-100)%Z.

(** Modelled from the spec: [torch.nn.CrossEntropyLoss()(logits, labels)],
    library code absent from the repository: the multi-class cross-entropy
    loss against integer labels.  There must be one label per row of
    logits, and every label must be a class index, at least 0 and less
    than the number of columns of the logits (or the index that is
    skipped); the loss raises otherwise.  The value of the loss is a
    float. *)
Definition loss_criterion (logits : Tensor) (labels : list Z) : result scalar :=
  if decide (length (rows logits) = length labels) then
    if decide (Forall (λ l : Z, l = ignore_index ∨ (0 ≤ l < Z.of_nat (width logits))%Z) labels)
    then Ok (cross_entropy (rows logits) labels)
    else Err RuntimeError
  else Err ValueError.

(** [optimizer.zero_grad(); loss.backward(); optimizer.step()].  The
    gradients are zeroed before each backward pass, so each step uses the
    gradient of the current batch alone.  [backward] raises when the loss
    was computed with gradients disabled. *)
Definition optimize (bg : DGLGraph) (feats : Tensor) (labels : list Z) : SE State unit := λ st,
  if grad_enabled st then
    let grads := loss_backward (model st) bg feats labels in
    let '(opt', p') := Adam_step (optimizer st) (m_params (model st)) grads in
    let m := model st in
    (Ok tt, mkState (mkGCNModel (m_in_feats m) (m_n_hidden m) (m_out_feats m) p' (training m))
                    opt' (grad_enabled st) (stdout st))
  else (Err RuntimeError, st).

(** ** Formatting *)

Definition digit_char (d : nat) : Ascii.ascii := Ascii.ascii_of_nat (48 + d).

Fixpoint dec_digits (fuel n : nat) (acc : string) : string :=
  match fuel with
  | 0 => acc
  | S fuel' =>
      let acc' := String (digit_char (n `mod` 10)) acc in
      if decide (n `div` 10 = 0) then acc' else dec_digits fuel' (n `div` 10) acc'
  end.

(** ["{:d}".format(n)] *)
Definition format_d (n : nat) : string := dec_digits (S n) n EmptyString.

Fixpoint zeros (k : nat) : string :=
  match k with 0 => EmptyString | S k' => String (digit_char 0) (zeros k') end.

(** ["{:05d}".format(n)]: zero-padded on the left to at least 5 characters *)
Definition format_05d (n : nat) : string :=
  let s := format_d n in
  zeros (5 - String.length s) +:+ s.

(** ["{:04d}".format(n)] *)
Definition format_04d (n : nat) : string :=
  let s := format_d n in
  zeros (4 - String.length s) +:+ s.

Definition sign_str (negative : bool) : string :=
  if negative then "-" else EmptyString.

(** ["{:.4f}".format(x)]: a finite float is printed as its sign (when
    negative), the digits of its integer part, a point and exactly four
    decimals; the other floats are printed as [nan], [inf] and [-inf]. *)
Definition format_4f (x : scalar) : string :=
  match round_4f x with
  | F4_nan => "nan"
  | F4_inf negative => sign_str negative +:+ "inf"
  | F4_fin negative n =>
      sign_str negative +:+ format_d (n `div` 10 ^ 4) +:+ "." +:+ format_04d (n `mod` 10 ^ 4)
  end.

(** ** The training cell *)

(** The accumulators of one epoch. *)
Record EpochAcc : Type := mkEpochAcc {
  loss_list : list scalar;
  true_samples : nat;
  num_samples : nat;
}.

Definition epoch_line (i : nat) (acc : EpochAcc) : string :=
  "Epoch " +:+ format_05d i +:+ " | Loss: " +:+ format_4f (np_mean (loss_list acc))
    +:+ " | Accuracy: " +:+ format_4f (true_div (true_samples acc) (num_samples acc)).

(** The body of the inner [for] loop of the training cell.  The calls
    [.float()] (the features are floats already), [.to(device)] and
    [.squeeze(-1)] (a label is a class index) do not change the values. *)
Definition train_batch (dl : DataLoader) (acc : EpochAcc) (batch : list nat)
  : SE State EpochAcc :=
  (do batch_data <~ se_lift (DataLoader_fetch dl batch);
   let '(bg, labels) := batch_data in
   let '(popped, bg) := pop_ndata "node_attr" bg in
   do atom_feats <~ se_lift popped;
   do st <~ se_get;
   do logits <~ se_lift (call_model (model st) bg atom_feats);
   do loss <~ se_lift (loss_criterion logits labels);
   let acc' := mkEpochAcc (loss_list acc ++ [loss])
                          (true_samples acc + count_correct logits labels)
                          (num_samples acc + length labels) in
   run optimize bg atom_feats labels;
   se_ret acc')%se.

(** The body of the outer [for] loop: one epoch and its report.  The
    division [true_samples/num_samples] raises on a zero divisor. *)
Definition train_epoch (dl : DataLoader) (i : nat) : SE State unit :=
  (do acc <~ se_foldM (train_batch dl) (mkEpochAcc [] 0 0) (DataLoader_batches dl);
   if decide (num_samples acc = 0) then se_raise ZeroDivisionError
   else print (epoch_line i acc))%se.

Definition training_cell (epochs : nat) (dl : DataLoader) : SE State unit :=
  (run model_train;
   se_foldM (λ _ i, train_epoch dl i) tt (seq 0 epochs))%se.

(** ** The validation cell *)

(** The body of the [for] loop of the validation cell; the value of
    [logits.argmax()] is dropped. *)
Definition val_batch (dl : DataLoader) (acc : nat * nat) (batch : list nat)
  : SE State (nat * nat) :=
  (do batch_data <~ se_lift (DataLoader_fetch dl batch);
   let '(bg, labels) := batch_data in
   let '(popped, bg) := pop_ndata "node_attr" bg in
   do atom_feats <~ se_lift popped;
   do st <~ se_get;
   do logits <~ se_lift (call_model (model st) bg atom_feats);
   let '(true_samples, num_samples) := acc in
   se_ret (true_samples + count_correct logits labels, num_samples + length labels))%se.

Definition validation_line (true_samples num_samples : nat) : string :=
  "Validation Accuracy: " +:+ format_4f (true_div true_samples num_samples).

(** The [for] loop of the validation cell, from the counters
    [true_samples = 0] and [num_samples = 0]. *)
Definition validation_loop (dl : DataLoader) : SE State (nat * nat) :=
  se_foldM (val_batch dl) (0, 0) (DataLoader_batches dl).

(** The validation cell around its loop: [model.eval()], the loop under
    [torch.no_grad()], and the report. *)
Definition validation_cell_of (loop : SE State (nat * nat)) : SE State unit :=
  (run model_eval;
   do acc <~ no_grad loop;
   let '(true_samples, num_samples) := acc in
   if decide (num_samples = 0) then se_raise ZeroDivisionError
   else print (validation_line true_samples num_samples))%se.

Definition validation_cell (dl : DataLoader) : SE State unit :=
  validation_cell_of (validation_loop dl).

(** ** The notebook, cell after cell *)

Definition epochs (cuda_available : bool) : nat :=
  if cuda_available then 500 else 50.

Definition notebook (dataset : Dataset) (cuda_available : bool) (entropy : Z)
    (init : Params) : result unit * list string :=
  match split_dataset dataset [4 # 5; 1 # 5]%Q true (Some 42%Z) entropy with
  | Ok [trainset; valset] =>
      let train_loader := mkDataLoader trainset 512 in
      let val_loader := mkDataLoader valset 512 in
      let model := GCNModel_init 18 64 6 init in
      let st := mkState model (Adam_init (m_params model)) true [] in
      let '(r, st) := (run training_cell (epochs cuda_available) train_loader;
                       validation_cell val_loader)%se st in
      (r, stdout st)
  | Ok _ => (Err ValueError, [])
  | Err e => (Err e, [])
  end.

End Program.

(** ** Specification-level notions used by the statements *)

Section Notions.
Context `{FO : FloatOps} `{AG : !Autograd} `{RG : RandomGen}.

(** The signature of a frame: its keys with the width of their tensor. *)
Definition frame_sig (fr : gmap string Tensor) : gmap string nat := width <$> fr.

(** A graph of the dataset: every feature has one row per node, and the
    graph is not itself a batch. *)
Definition wf_graph (sig : gmap string nat) (g : DGLGraph) : Prop :=
  frame_sig (ndata g) = sig
  ∧ map_Forall (λ _ t, length (rows t) = num_nodes g) (ndata g)
  ∧ batch_info g = None.

(** The rows stored under [k] in the frame of [g]. *)
Definition rows_at (k : string) (g : DGLGraph) : list Vec :=
  from_option rows [] (ndata g !! k).

(** The ReLU-activated zero-neighbour convolution: what a [GraphConv]
    layer with ReLU does to the row [x] of a node on a graph without
    edges.  The in-degree of the node is clamped to 1, no message is
    exchanged, and the node's own row is scaled by [1^-1/2], multiplied by
    the weight, scaled again, shifted by the bias and passed to ReLU. *)
Definition relu_zero_neighbor_conv (L : GraphConv) (x : Vec) : Vec :=
  let c := pow_neg_half 1 in
  vrelu (vadd (vscale c (vmatmul (vscale c x) (gc_weight L))) (gc_bias L)).

(** What the three layers of the model do to the row of a node of a
    graph without edges. *)
Definition node_transform (m : GCNModel) (x : Vec) : Vec :=
  foldl (λ x L, relu_zero_neighbor_conv L x) x (layers m).

(** *** The layers as functions of the graph

    [GraphConv.forward] works on a local copy of the graph, so that its
    result is a function of the layer, the features and the graph; the
    definitions below give that function, and the proofs relate it to the
    stateful code. *)

(** [norm = th.pow(graph.in_degrees().float().clamp(min=1), -0.5)] *)
Definition conv_norm (g : DGLGraph) : list scalar :=
  (λ d, pow_neg_half (d `max` 1)) <$> in_degrees g.

(** The tensor found under the key of the messages after [update_all],
    for source features [feat] with one row per node: the features
    themselves on a graph without edges, the sums of the incoming rows
    otherwise. *)
Definition aggregate (g : DGLGraph) (feat : Tensor) : Tensor :=
  if decide (edges g = []) then feat
  else mkTensor (width feat)
         ((λ v, vsum (width feat) (in_msgs g (rows feat) v)) <$> seq 0 (num_nodes g)).

Definition GraphConv_value (L : GraphConv) (feat : Tensor) (g : DGLGraph) : result Tensor :=
  feat ← th_mul_norm feat (conv_norm g);
  rst ← (if decide (out_feats L < in_feats L) then
           feat ← th_matmul (in_feats L) (out_feats L) (gc_weight L) feat;
           if decide (length (rows feat) = num_nodes g)
           then Ok (aggregate g feat) else Err DGLError
         else
           if decide (length (rows feat) = num_nodes g)
           then th_matmul (in_feats L) (out_feats L) (gc_weight L) (aggregate g feat)
           else Err DGLError);
  rst ← th_mul_norm rst (conv_norm g);
  Ok (apply_activation (gc_activation L) (th_add_bias rst (gc_bias L))).

(** The readout [dgl.sum_nodes] of node features [h] on graph [g]. *)
Definition readout (g : DGLGraph) (h : Tensor) : Tensor :=
  mkTensor (width h) (vsum (width h) <$> segments (batch_num_nodes g) (rows h)).

Definition forward_value (m : GCNModel) (features : Tensor) (g : DGLGraph) : result Tensor :=
  match layers m with
  | [l1; l2; l3] =>
      h1 ← GraphConv_value l1 features g;
      h2 ← GraphConv_value l2 h1 g;
      h3 ← GraphConv_value l3 h2 g;
      Linear_forward (classifier m) (readout g h3)
  | _ => Err RuntimeError
  end.

(** The rows of the tensor that a call returned; none if it raised. *)
Definition rows_of (r : result Tensor) : list Vec :=
  match r with
  | Ok t => rows t
  | Err _ => []
  end.

(** A loader over a subset of a well-formed dataset whose node features
    [node_attr] have width [in_f]. *)
Definition wf_loader (in_f : nat) (dl : DataLoader) : Prop :=
  0 < dl_batch_size dl
  ∧ ∃ sig, sig !! "node_attr" = Some in_f
      ∧ Forall (λ j, ∃ d, sub_dataset (dl_dataset dl) !! j = Some d ∧ wf_graph sig d.1)
               (sub_indices (dl_dataset dl)).

(** What a loop of the training cell maintains: the input width of the
    model and the gradient mode. *)
Definition train_inv (in_f : nat) (st : State) : Prop :=
  m_in_feats (model st) = in_f ∧ grad_enabled st = true.

(** The labels of the items of a subset are class indices below
    [n_classes]. *)
Definition labels_in_range (n_classes : nat) (s : Subset) : Prop :=
  Forall (λ j, ∃ d, sub_dataset s !! j = Some d ∧ (0 ≤ d.2 < Z.of_nat n_classes)%Z)
         (sub_indices s).

(** *** The reports, in the words of the specification

    The definitions below say what the cells report without running
    them: which graphs a batch holds, the logits of the model for a batch,
    what a correct prediction is, and how the parameters move from batch
    to batch.  The theorems relate the cells to them. *)

(** The item that position [i] of a subset points to. *)
Definition item_at (s : Subset) (i : nat) : option (DGLGraph * Z) :=
  j ← sub_indices s !! i; sub_dataset s !! j.

(** The items of a batch of positions, in order. *)
Definition batch_items (s : Subset) (b : list nat) : list (DGLGraph * Z) :=
  omap (item_at s) b.

(** What the model is given for a batch: the disjoint union of the graphs
    of the batch, and their node features ['node_attr'], taken out of the
    union. *)
Definition batch_inputs (s : Subset) (b : list nat) : option (DGLGraph * Tensor) :=
  match dgl_batch (batch_items s b).*1 with
  | Ok bg =>
      (λ feats, (set_frame bg (delete "node_attr" (ndata bg)), feats))
        <$> ndata bg !! "node_attr"
  | Err _ => None
  end.

(** The logits of model [m] for a batch, one row per graph: the forward
    pass on the inputs of the batch. *)
Definition batch_logits (m : GCNModel) (s : Subset) (b : list nat) : list Vec :=
  match batch_inputs s b with
  | Some (bg, feats) =>
      match forward_value m feats bg with
      | Ok logits => rows logits
      | Err _ => []
      end
  | None => []
  end.

(** The number of positions at which the predicted class is the label. *)
Fixpoint agreements (preds labels : list Z) : nat :=
  match preds, labels with
  | p :: preds', l :: labels' =>
      (if decide (p = l) then 1 else 0) + agreements preds' labels'
  | _, _ => 0
  end.

(** The correct predictions of model [m] on a batch: the graphs whose row
    of logits has its largest entry at the label of the graph. *)
Definition batch_correct (m : GCNModel) (s : Subset) (b : list nat) : nat :=
  agreements (argmax <$> batch_logits m s b) (batch_items s b).*2.

(** The cross-entropy loss of model [m] on a batch. *)
Definition batch_loss (m : GCNModel) (s : Subset) (b : list nat) : scalar :=
  cross_entropy (batch_logits m s b) (batch_items s b).*2.

(** The model with other parameters. *)
Definition with_params (m : GCNModel) (p : Params) : GCNModel :=
  mkGCNModel (m_in_feats m) (m_n_hidden m) (m_out_feats m) p (training m).

(** One optimisation step for a batch: the gradient of the loss of the
    batch at the current parameters, and one step of Adam. *)
Definition adam_update (s : Subset) (mo : GCNModel * OptState) (b : list nat)
  : GCNModel * OptState :=
  match batch_inputs s b with
  | Some (bg, feats) =>
      let '(o', p') :=
        Adam_step mo.2 (m_params mo.1) (loss_backward mo.1 bg feats (batch_items s b).*2) in
      (with_params mo.1 p', o')
  | None => mo
  end.

(** The model and the optimizer before each batch of an epoch that
    starts with [mo], and after its last batch. *)
Fixpoint before_batches (s : Subset) (mo : GCNModel * OptState) (batches : list (list nat))
  : list (GCNModel * OptState) :=
  match batches with
  | [] => []
  | b :: batches' => mo :: before_batches s (adam_update s mo b) batches'
  end.

Definition after_epoch (s : Subset) (batches : list (list nat)) (mo : GCNModel * OptState)
  : GCNModel * OptState :=
  foldl (adam_update s) mo batches.

(** The losses of the batches of an epoch, each at the parameters that
    the steps before it have reached, and the correct predictions of the
    epoch, counted the same way. *)
Definition epoch_losses (s : Subset) (batches : list (list nat)) (mo : GCNModel * OptState)
  : list scalar :=
  zip_with (λ mo b, batch_loss mo.1 s b) (before_batches s mo batches) batches.

Definition epoch_correct (s : Subset) (batches : list (list nat)) (mo : GCNModel * OptState)
  : nat :=
  sum_list (zip_with (λ mo b, batch_correct mo.1 s b) (before_batches s mo batches) batches).

(** The model and the optimizer at the start of epoch [i]. *)
Definition at_epoch (s : Subset) (batches : list (list nat)) (start : GCNModel * OptState)
    (i : nat) : GCNModel * OptState :=
  Nat.iter i (after_epoch s batches) start.

(** The report of epoch [i], for an epoch that starts with model and
    optimizer [mo]: the epoch number, the mean of the losses of its
    batches, and its correct predictions over the size of the subset. *)
Definition epoch_report (s : Subset) (batches : list (list nat)) (mo : GCNModel * OptState)
    (i : nat) : string :=
  "Epoch " +:+ format_05d i
  +:+ " | Loss: " +:+ format_4f (np_mean (epoch_losses s batches mo))
  +:+ " | Accuracy: " +:+ format_4f (true_div (epoch_correct s batches mo) (Subset_len s)).

(** *** The form of the printed lines *)

Definition is_digit (c : Ascii.ascii) : Prop :=
  48 ≤ Ascii.nat_of_ascii c ≤ 57.

Fixpoint string_Forall (P : Ascii.ascii → Prop) (s : string) : Prop :=
  match s with
  | EmptyString => True
  | String c s' => P c ∧ string_Forall P s'
  end.

(** [<5-digit>]: five decimal digits. *)
Definition five_digits (d : string) : Prop :=
  String.length d = 5 ∧ string_Forall is_digit d.

(** [<4-decimal>]: a decimal numeral with exactly four decimals. *)
Definition four_decimal (s : string) : Prop :=
  ∃ negative int frac,
    s = sign_str negative +:+ int +:+ "." +:+ frac
    ∧ int ≠ EmptyString
    ∧ string_Forall is_digit int
    ∧ String.length frac = 4
    ∧ string_Forall is_digit frac.

(** [Epoch <5-digit> | Loss: <4-decimal> | Accuracy: <4-decimal>] *)
Definition report_form (line : string) : Prop :=
  ∃ d l a,
    line = "Epoch " +:+ d +:+ " | Loss: " +:+ l +:+ " | Accuracy: " +:+ a
    ∧ five_digits d ∧ four_decimal l ∧ four_decimal a.

(** A float that is neither an infinity nor not-a-number. *)
Definition finite (x : scalar) : Prop :=
  ∃ negative n, round_4f x = F4_fin negative n.

End Notions.

(** ** A small concrete instance, used to run the definitions *)

Module Sample.

(** Integers in the place of floats: an integer [z] stands for the
    float of that value. *)
Definition Z_round_4f (z : Z) : fixed4 :=
  F4_fin (bool_decide (z < 0)%Z) (10 ^ 4 * Z.to_nat (Z.abs z)).

Definition Z_true_div (a b : nat) : Z := (Z.of_nat a `div` Z.of_nat b)%Z.

Lemma Z_true_div_round (a b : nat) :
  0 < b → a ≤ b →
  ∃ n, Z_round_4f (Z_true_div a b) = F4_fin false n ∧ n ≤ 10 ^ 4.
Proof.
  intros Hb Hab. unfold Z_round_4f, Z_true_div.
  assert (0 ≤ Z.of_nat a `div` Z.of_nat b ≤ 1)%Z as [H0 H1].
  { split; [apply Z.div_pos; lia|].
    apply Z.div_le_upper_bound; lia. }
  eexists. split; [by rewrite bool_decide_eq_false_2 by lia|].
  assert (Z.to_nat (Z.abs (Z.of_nat a `div` Z.of_nat b)) ≤ 1) as Hle by lia.
  transitivity (10 ^ 4 * 1); [by apply Nat.mul_le_mono_l|]. by rewrite Nat.mul_1_r.
Qed.

Definition ZOps : FloatOps := {|
  scalar := Z; Vec := Z; Weight := Z;
  vzeros := λ _, 0%Z; vadd := Z.add; vscale := Z.mul; vmatmul := Z.mul;
  wtranspose := λ w, w; vrelu := Z.max 0;
  pow_neg_half := λ d, Z.of_nat d;
  argmax := λ v, (v `mod` 6)%Z;
  cross_entropy := λ l labels, Z.of_nat (length l);
  np_mean := λ l, foldr Z.add 0%Z l;
  true_div := Z_true_div;
  round_4f := Z_round_4f;
  true_div_round := Z_true_div_round;
|}.
#[local] Existing Instance ZOps.

Definition ZGrad : Autograd := {|
  Grads := Z; OptState := Z; Adam_init := λ _, 0%Z;
  loss_backward := λ _ _ _ labels, Z.of_nat (length labels);
  Adam_step := λ o p g, ((o + 1)%Z,
    mkParams (Z.add (conv1_weight p) g) (conv1_bias p) (conv2_weight p) (conv2_bias p)
             (conv3_weight p) (conv3_bias p) (classifier_weight p) (classifier_bias p));
|}.
#[local] Existing Instance ZGrad.

(** A linear congruential generator. *)
Definition LCG : RandomGen := {|
  rk_state := Z; rk_seed := λ s, s;
  rk_interval := λ max s,
    (Z.to_nat (s `mod` (Z.of_nat max + 1)),
     (s * 1103515245 + 12345) `mod` 2147483648)%Z;
|}.
#[local] Existing Instance LCG.

Definition g_edge : DGLGraph :=
  mkGraph 2 [(0, 1); (1, 0)] {[ "node_attr" := mkTensor 18 [1%Z; 2%Z] ]} None.
Definition g_isolated : DGLGraph :=
  mkGraph 3 [] {[ "node_attr" := mkTensor 18 [3%Z; 4%Z; 5%Z] ]} None.

Definition five : Dataset :=
  [(g_edge, 0%Z); (g_isolated, 1%Z); (g_edge, 2%Z); (g_isolated, 3%Z); (g_edge, 4%Z)].

Definition six_hundred : Dataset := replicate 600 (g_isolated, 1%Z).

Definition params0 : Params := mkParams 1%Z 1%Z 1%Z 0%Z 1%Z 0%Z 1%Z 0%Z.

Definition model0 : GCNModel := GCNModel_init 18 64 6 params0.

Definition state0 : State := mkState model0 (Adam_init params0) true [].

Definition loader (idx : list nat) : DataLoader := mkDataLoader (mkSubset five idx) 2.

Definition sig0 : gmap string nat := {[ "node_attr" := 18 ]}.

(** The batch of the single graph [g_isolated] and its features. *)
Definition bg_isolated : DGLGraph := mkGraph 3 [] (ndata g_isolated) (Some [3]).
Definition X_isolated : Tensor := mkTensor 18 [3%Z; 4%Z; 5%Z].

Definition pair_data : list (DGLGraph * Z) := [(g_edge, 0%Z); (g_isolated, 1%Z)].

(** The index lists of the 80/20 split of [five]. *)
Definition split_indices (random_state : option Z) (entropy : Z) : list (list nat) :=
  match split_dataset five [4 # 5; 1 # 5]%Q true random_state entropy with
  | Ok subsets => sub_indices <$> subsets
  | Err _ => []
  end.

End Sample.

(** * The remaining cells and further notions *)

(** The values that only reach the console: [.float()] on one row of a
    tensor, and the texts that [print] shows for a graph, a label and the
    model. *)
Class NotebookOps `{FO : FloatOps} : Type := {
  vfloat : Vec → Vec;
  repr_graph : DGLGraph → string;
  repr_label : Z → string;
  repr_model : GCNModel → string;
}.

Section Cells.
Context `{FO : FloatOps} `{AG : !Autograd} `{RG : RandomGen} `{NO : !NotebookOps}.

(** [tensor.float()]: the shape is kept. *)
Definition th_float (t : Tensor) : Tensor := mkTensor (width t) (vfloat <$> rows t).

(** One round of the loop of the loading cell:
    [dataset[i][0].ndata['node_attr'] = (dataset[i][0].ndata['node_attr']).float()] *)
Definition float_node_attr (d : DGLGraph * Z) : result (DGLGraph * Z) :=
  let '(r, g) :=
    (do t <~ get_ndata "node_attr"; set_ndata "node_attr" (th_float t))%se d.1 in
  _ ← r; Ok (g, d.2).

(** The loading cell, on the dataset [raw] that [TUDataset("ENZYMES")]
    yields; turning [graph_labels] into a tensor keeps the labels. *)
Definition load_cell (raw : Dataset) : result Dataset := mapM float_node_attr raw.

(** The notebook from the loading cell to the validation cell.  The cell
    [graph, label = dataset[0]; print(graph); print(label)] raises on an
    empty dataset; the drawing cell writes nothing to the console; the
    training cell is preceded by [print(device); print(model)]. *)
Definition run_notebook (raw : Dataset) (cuda_available : bool) (entropy : Z)
    (init : Params) : result unit * list string :=
  match load_cell raw with
  | Err e => (Err e, [])
  | Ok dataset =>
      match dataset !! 0 with
      | None => (Err IndexError, [])
      | Some (graph, label) =>
          let out := [repr_graph graph; repr_label label] in
          match split_dataset dataset [4 # 5; 1 # 5]%Q true (Some 42%Z) entropy with
          | Ok [trainset; valset] =>
              let train_loader := mkDataLoader trainset 512 in
              let val_loader := mkDataLoader valset 512 in
              let device := if cuda_available then "cuda" else "cpu" in
              let model := GCNModel_init 18 64 6 init in
              let st := mkState model (Adam_init (m_params model)) true
                          (out ++ [device; repr_model model]) in
              let '(r, st) := (run training_cell (epochs cuda_available) train_loader;
                               validation_cell val_loader)%se st in
              (r, stdout st)
          | Ok _ => (Err ValueError, out)
          | Err e => (Err e, out)
          end
      end
  end.

(** ** Notions for the statements *)

(** Every edge of the graph joins two of its nodes. *)
Definition edges_in_range (g : DGLGraph) : Prop :=
  Forall (λ e : nat * nat, e.1 < num_nodes g ∧ e.2 < num_nodes g) (edges g).

(** [G] has the nodes, the edges and the per-graph node counts of the
    batch of the graphs [gs]; its frame is left open. *)
Definition batch_shape (G : DGLGraph) (gs : list DGLGraph) : Prop :=
  num_nodes G = sum_list (num_nodes <$> gs)
  ∧ edges G = batch_edges 0 gs
  ∧ batch_num_nodes G = num_nodes <$> gs.

(** Whether the graph has an edge, that is, whether [update_all] passes
    messages on it. *)
Definition has_edges (g : DGLGraph) : bool := bool_decide (edges g ≠ []).

(** The sums of the rows of [l] that arrive at each node of [g]. *)
Definition sum_rows (g : DGLGraph) (w : nat) (l : list Vec) : list Vec :=
  (λ v, vsum w (in_msgs g l v)) <$> seq 0 (num_nodes g).

(** The rows found after [update_all] for the nodes of [g] with source
    rows [l], when [g] is part of a graph on which messages are passed
    ([passing]) or not: the sums of the incoming rows, or the source rows
    themselves. *)
Definition agg_rows_in (passing : bool) (g : DGLGraph) (w : nat) (l : list Vec)
  : list Vec :=
  if passing then sum_rows g w l else l.

(** The rows that a ReLU layer computes for the nodes of [g] from one row
    per node, of width [w]. *)
Definition conv_rows_in (passing : bool) (L : GraphConv) (g : DGLGraph) (w : nat)
    (l : list Vec) : list Vec :=
  let norm := conv_norm g in
  let feat := zip_with vscale norm l in
  let rst :=
    if decide (out_feats L < in_feats L)
    then agg_rows_in passing g (out_feats L) ((λ r, vmatmul r (gc_weight L)) <$> feat)
    else (λ r, vmatmul r (gc_weight L)) <$> agg_rows_in passing g w feat in
  (λ r, vrelu (vadd r (gc_bias L))) <$> zip_with vscale norm rst.

(** The node rows after the three layers. *)
Definition hidden_rows_in (passing : bool) (m : GCNModel) (g : DGLGraph) (l : list Vec)
  : list Vec :=
  foldl (λ h L, conv_rows_in passing L g (in_feats L) h) l (layers m).

(** The row of logits of one graph, from its node features: the sum of
    its node rows after the three layers, through the linear classifier. *)
Definition graph_logits_in (passing : bool) (m : GCNModel) (g : DGLGraph) (l : list Vec)
  : Vec :=
  vadd (vmatmul (vsum (m_n_hidden m) (hidden_rows_in passing m g l))
                (wtranspose (classifier_weight (m_params m))))
       (classifier_bias (m_params m)).

(** The row of logits of a graph that is given to the model alone. *)
Definition graph_logits (m : GCNModel) (g : DGLGraph) (l : list Vec) : Vec :=
  graph_logits_in (has_edges g) m g l.

(** The graphs either all have an edge or all have none. *)
Definition uniform_edges (gs : list DGLGraph) : Prop :=
  Forall (λ g, edges g ≠ []) gs ∨ Forall (λ g, edges g = []) gs.

(** Whether the model, given the graph of item [d] alone, picks the label
    of [d]: 1 if it does, 0 otherwise. *)
Definition item_correct (m : GCNModel) (d : DGLGraph * Z) : nat :=
  if decide (argmax (graph_logits m d.1 (rows_at "node_attr" d.1)) = d.2) then 1 else 0.

Definition index_correct (m : GCNModel) (s : Subset) (i : nat) : nat :=
  match Subset_getitem s i with
  | Ok d => item_correct m d
  | Err _ => 0
  end.

(** Every graph that the subset points to has its edges in range. *)
Definition subset_in_range (s : Subset) : Prop :=
  Forall (λ j, ∃ d, sub_dataset s !! j = Some d ∧ edges_in_range d.1) (sub_indices s).

(** The graphs that the subset points to either all have an edge or all
    have none. *)
Definition subset_uniform (s : Subset) : Prop :=
  Forall (λ j, ∃ d, sub_dataset s !! j = Some d ∧ edges d.1 ≠ []) (sub_indices s)
  ∨ Forall (λ j, ∃ d, sub_dataset s !! j = Some d ∧ edges d.1 = []) (sub_indices s).

(** The items of a subset, in the order of its indices:
    [[subset[i] for i in range(len(subset))]]. *)
Definition Subset_items (s : Subset) : result (list (DGLGraph * Z)) :=
  mapM (Subset_getitem s) (seq 0 (Subset_len s)).

(** Reading a decimal numeral, as [int(s)] does for a string of digits. *)
Definition digit_value (c : Ascii.ascii) : nat := Ascii.nat_of_ascii c - 48.

Fixpoint parse_digits (s : string) (acc : nat) : nat :=
  match s with
  | EmptyString => acc
  | String c s' => parse_digits s' (10 * acc + digit_value c)
  end.

Definition parse_nat (s : string) : nat := parse_digits s 0.

(** Two states with the same model, but for the parameters. *)
Definition same_architecture (m m' : GCNModel) : Prop :=
  m_in_feats m' = m_in_feats m
  ∧ m_n_hidden m' = m_n_hidden m
  ∧ m_out_feats m' = m_out_feats m.

(** What no step of the training cell changes. *)
Definition train_frame (st st' : State) : Prop :=
  same_architecture (model st') (model st)
  ∧ training (model st') = training (model st)
  ∧ grad_enabled st' = grad_enabled st.

(** A batch fails with [e], before any change of the state, for every
    model of input width [in_f]. *)
Definition batch_fails (dl : DataLoader) (b : list nat) (in_f : nat) (e : error) : Prop :=
  ∀ st, m_in_feats (model st) = in_f →
    (∀ acc, val_batch dl acc b st = (Err e, st))
    ∧ (∀ acc, train_batch dl acc b st = (Err e, st)).

End Cells.

Module SampleCells.

#[local] Existing Instance Sample.ZOps.
#[local] Existing Instance Sample.ZGrad.
#[local] Existing Instance Sample.LCG.

Definition ZNotebook : @NotebookOps Sample.ZOps := {|
  vfloat := λ v, v;
  repr_graph := λ g, "DGLGraph(num_nodes=" +:+ format_d (num_nodes g) +:+ ")";
  repr_label := λ l, format_d (Z.to_nat l);
  repr_model := λ m, "GCNModel";
|}.
#[local] Existing Instance ZNotebook.

(** A graph without node features. *)
Definition g_bare : DGLGraph := mkGraph 2 [(0, 1)] ∅ None.

(** A graph whose features have width 7. *)
Definition g_narrow : DGLGraph :=
  mkGraph 1 [] {[ "node_attr" := mkTensor 7 [1%Z] ]} None.

(** Features of width 7 for the three nodes of [Sample.g_isolated]. *)
Definition X_narrow : Tensor := mkTensor 7 [3%Z; 4%Z; 5%Z].

(** Two graphs with edges, each with the rows of its node features. *)
Definition pair_rows : list (DGLGraph * list Z) :=
  [(Sample.g_edge, [1%Z; 2%Z]); (Sample.g_edge, [6%Z; 7%Z])].

(** A graph with edges and a graph without, with their rows. *)
Definition mixed_rows : list (DGLGraph * list Z) :=
  [(Sample.g_edge, [1%Z; 2%Z]); (Sample.g_isolated, [3%Z; 4%Z; 5%Z])].

(** The batch of the two graphs of [mixed_rows], without node features. *)
Definition bg_mixed : DGLGraph := mkGraph 5 [(0, 1); (1, 0)] ∅ (Some [2; 3]).

Definition bare_loader : DataLoader := mkDataLoader (mkSubset [(g_bare, 0%Z)] [0]) 2.
Definition narrow_loader : DataLoader := mkDataLoader (mkSubset [(g_narrow, 0%Z)] [0]) 2.

Definition one : Dataset := [(Sample.g_edge, 0%Z)].

End SampleCells.

(** Floats that may be not-a-number, in the place of floats: [None]
    stands for NaN, which every operation hands on, and [Some z] for the
    float of value [z]. *)
Module SampleNaN.

Definition nan_add (a b : option Z) : option Z := x ← a; y ← b; Some (x + y)%Z.
Definition nan_mul (a b : option Z) : option Z := x ← a; y ← b; Some (x * y)%Z.

Definition nan_round_4f (x : option Z) : fixed4 :=
  match x with
  | None => F4_nan
  | Some z => Sample.Z_round_4f z
  end.

Definition nan_true_div (a b : nat) : option Z := Some (Sample.Z_true_div a b).

Lemma nan_true_div_round (a b : nat) :
  0 < b → a ≤ b →
  ∃ n, nan_round_4f (nan_true_div a b) = F4_fin false n ∧ n ≤ 10 ^ 4.
Proof. apply Sample.Z_true_div_round. Qed.

Definition NaNOps : FloatOps := {|
  scalar := option Z; Vec := option Z; Weight := Z;
  vzeros := λ _, Some 0%Z; vadd := nan_add; vscale := nan_mul;
  vmatmul := λ v w, (λ x, x * w)%Z <$> v;
  wtranspose := λ w, w; vrelu := fmap (Z.max 0);
  pow_neg_half := λ d, Some (Z.of_nat d);
  argmax := λ v, default 0%Z ((λ x, x `mod` 6)%Z <$> v);
  cross_entropy := λ l labels, foldr (λ v acc, _ ← v; acc) (Some (Z.of_nat (length l))) l;
  np_mean := λ l, foldr nan_add (Some 0%Z) l;
  true_div := nan_true_div;
  round_4f := nan_round_4f;
  true_div_round := nan_true_div_round;
|}.
#[local] Existing Instance NaNOps.

(** No learning: the optimizer leaves the parameters as they are. *)
Definition NaNGrad : Autograd := {|
  Grads := unit; OptState := unit; Adam_init := λ _, tt;
  loss_backward := λ _ _ _ _, tt;
  Adam_step := λ o p _, (o, p);
|}.
#[local] Existing Instance NaNGrad.

(** A graph of two nodes, the features of one of which are NaN. *)
Definition g_nan : DGLGraph :=
  mkGraph 2 [(0, 1); (1, 0)] {[ "node_attr" := mkTensor 18 [None; Some 1%Z] ]} None.

Definition loader : DataLoader := mkDataLoader (mkSubset [(g_nan, 0%Z)] [0]) 512.

Definition params0 : Params :=
  mkParams 1%Z (Some 1%Z) 1%Z (Some 0%Z) 1%Z (Some 0%Z) 1%Z (Some 0%Z).

Definition state0 : State := mkState (GCNModel_init 18 64 6 params0) tt true [].

End SampleNaN.

(** * Proofs *)

Section Proofs.
Context `{FO : FloatOps} `{AG : !Autograd} `{RG : RandomGen}.

(** ** Batching *)

Lemma result_bind_Ok {A B} (f : A → result B) (r : result A) (b : B) :
  r ≫= f = Ok b → ∃ a, r = Ok a ∧ f a = Ok b.
Proof. destruct r as [a|e]; simpl; [eauto | discriminate]. Qed.

Lemma dgl_batch_inv (gs : list DGLGraph) (bg : DGLGraph) :
  dgl_batch gs = Ok bg →
  gs ≠ []
  ∧ batch_frames gs = Ok (ndata bg)
  ∧ num_nodes bg = sum_list (num_nodes <$> gs)
  ∧ edges bg = batch_edges 0 gs
  ∧ batch_info bg = Some (mjoin (batch_num_nodes <$> gs)).
Proof.
  unfold dgl_batch. destruct gs as [|g gs]; [discriminate|].
  intros Hb. apply result_bind_Ok in Hb as (fr & Hfr & Hb).
  injection Hb as <-. split; [done|]. split; [exact Hfr|]. done.
Qed.

Lemma collate_inv (data : list (DGLGraph * Z)) bg labels :
  collate_molgraphs_for_classification data = Ok (bg, labels) →
  data ≠ [] ∧ dgl_batch data.*1 = Ok bg ∧ labels = data.*2.
Proof.
  unfold collate_molgraphs_for_classification.
  destruct data as [|d data]; [discriminate|].
  intros Hc. apply result_bind_Ok in Hc as (bg' & Hbg & Hc).
  injection Hc as <- <-. done.
Qed.

Lemma frame_sig_lookup (fr : gmap string Tensor) k :
  frame_sig fr !! k = width <$> fr !! k.
Proof. unfold frame_sig. by rewrite lookup_fmap. Qed.

Lemma frame_cat_ok (f1 f2 : gmap string Tensor) :
  frame_sig f1 = frame_sig f2 →
  frame_cat f1 f2
  = Ok (map_zip_with (λ t1 t2, mkTensor (width t1) (rows t1 ++ rows t2)) f1 f2).
Proof.
  intros Hsig. unfold frame_cat.
  assert (Hdom : dom f1 = dom f2).
  { apply set_eq. intros k. rewrite !elem_of_dom.
    pose proof (f_equal (λ m, m !! k) Hsig) as Hk. simpl in Hk.
    rewrite !frame_sig_lookup in Hk.
    destruct (f1 !! k), (f2 !! k); simpl in Hk; try discriminate;
      split; intros [? ?]; by eauto. }
  rewrite decide_True by done.
  rewrite decide_True; [done|].
  intros k [t1 t2] Hk. simpl.
  apply map_lookup_zip_Some in Hk as [H1 H2]. simpl in *.
  pose proof (f_equal (λ m, m !! k) Hsig) as Hw. simpl in Hw.
  rewrite !frame_sig_lookup, H1, H2 in Hw. simpl in Hw. congruence.
Qed.

Lemma batch_frames_ok (sig : gmap string nat) (gs : list DGLGraph) :
  gs ≠ [] →
  Forall (wf_graph sig) gs →
  ∃ fr, batch_frames gs = Ok fr
    ∧ frame_sig fr = sig
    ∧ ∀ k, fr !! k = (λ w, mkTensor w (mjoin (rows_at k <$> gs))) <$> sig !! k.
Proof.
  induction gs as [|g gs IH]; [done|].
  intros _ Hwf. apply Forall_cons in Hwf as [(Hsig & _ & _) Hwf].
  destruct gs as [|g' gs].
  - exists (ndata g). simpl. split; [done|]. split; [done|].
    intros k. rewrite <- Hsig, frame_sig_lookup. unfold rows_at.
    destruct (ndata g !! k) as [[w r]|]; simpl; [|done].
    by rewrite app_nil_r.
  - destruct IH as (fr & Hfr & Hfsig & Hlk); [done|done|].
    change (batch_frames (g :: g' :: gs))
      with (batch_frames (g' :: gs) ≫= frame_cat (ndata g)).
    rewrite Hfr. simpl.
    rewrite frame_cat_ok by congruence.
    eexists. split; [done|]. split.
    + apply map_eq. intros k. rewrite frame_sig_lookup, map_lookup_zip_with.
      rewrite <- Hsig at 1. rewrite frame_sig_lookup.
      pose proof (f_equal (λ m, m !! k) Hfsig) as Hk. simpl in Hk.
      rewrite <- Hsig in Hk. rewrite !frame_sig_lookup in Hk.
      destruct (ndata g !! k), (fr !! k); simpl in *; done.
    + intros k. rewrite map_lookup_zip_with. rewrite (Hlk k).
      rewrite <- Hsig, frame_sig_lookup.
      change (rows_at k <$> g :: g' :: gs) with (rows_at k g :: (rows_at k <$> g' :: gs)).
      unfold rows_at at 2.
      pose proof (f_equal (λ m, m !! k) Hfsig) as Hk. simpl in Hk.
      rewrite <- Hsig in Hk. rewrite !frame_sig_lookup, Hlk in Hk.
      rewrite <- Hsig in Hk. rewrite frame_sig_lookup in Hk.
      destruct (ndata g !! k) as [[w r]|]; simpl in *; done.
Qed.

Lemma wf_graph_rows_at (sig : gmap string nat) (g : DGLGraph) k w :
  wf_graph sig g → sig !! k = Some w → length (rows_at k g) = num_nodes g.
Proof.
  intros (Hsig & Hrows & _) Hk. rewrite <- Hsig, frame_sig_lookup in Hk.
  unfold rows_at. destruct (ndata g !! k) as [t|] eqn:Ht; [|done].
  simpl. by apply (Hrows k t).
Qed.

Lemma wf_graphs_rows_at (sig : gmap string nat) (gs : list DGLGraph) k w :
  Forall (wf_graph sig) gs → sig !! k = Some w →
  length (mjoin (rows_at k <$> gs)) = sum_list (num_nodes <$> gs).
Proof.
  intros Hwf Hk. induction Hwf as [|g gs Hg _ IH]; [done|].
  csimpl. rewrite length_app, IH. f_equal. by eapply wf_graph_rows_at.
Qed.

Lemma wf_graphs_batch_num_nodes (sig : gmap string nat) (gs : list DGLGraph) :
  Forall (wf_graph sig) gs →
  mjoin (batch_num_nodes <$> gs) = num_nodes <$> gs.
Proof.
  intros Hwf. induction Hwf as [|g gs (_ & _ & Hplain) _ IH]; [done|].
  csimpl. rewrite IH. unfold batch_num_nodes. by rewrite Hplain.
Qed.

(** Batching well-formed graphs of one signature does not fail; the
    features of the batch are the features of the graphs, one after the
    other. *)
Lemma dgl_batch_ok (sig : gmap string nat) (gs : list DGLGraph) :
  gs ≠ [] →
  Forall (wf_graph sig) gs →
  ∃ bg, dgl_batch gs = Ok bg
    ∧ num_nodes bg = sum_list (num_nodes <$> gs)
    ∧ batch_num_nodes bg = num_nodes <$> gs
    ∧ ∀ k w, sig !! k = Some w →
        ndata bg !! k = Some (mkTensor w (mjoin (rows_at k <$> gs)))
        ∧ length (mjoin (rows_at k <$> gs)) = num_nodes bg.
Proof.
  intros Hne Hwf.
  destruct (batch_frames_ok sig gs Hne Hwf) as (fr & Hfr & _ & Hlk).
  unfold dgl_batch. destruct gs as [|g gs]; [done|].
  rewrite Hfr. cbn [mbind result_bind]. eexists. split; [done|].
  cbn [num_nodes ndata]. split; [done|]. split.
  - unfold batch_num_nodes at 1. cbn [batch_info default].
    by eapply wf_graphs_batch_num_nodes.
  - intros k w Hk. rewrite Hlk, Hk. split; [done|].
    by eapply wf_graphs_rows_at.
Qed.

Lemma collate_ok (sig : gmap string nat) (data : list (DGLGraph * Z)) :
  data ≠ [] →
  Forall (wf_graph sig) data.*1 →
  ∃ bg, collate_molgraphs_for_classification data = Ok (bg, data.*2)
    ∧ dgl_batch data.*1 = Ok bg.
Proof.
  intros Hne Hwf.
  destruct (dgl_batch_ok sig data.*1) as (bg & Hbg & _); [by destruct data|done|].
  exists bg. split; [|done].
  unfold collate_molgraphs_for_classification.
  destruct data as [|d data]; [done|]. by rewrite Hbg.
Qed.


(** ** Splitting *)

Lemma swap_length (x : list nat) i j : length (swap x i j) = length x.
Proof.
  unfold swap. destruct (x !! i), (x !! j); try done.
  by rewrite !length_insert.
Qed.

Lemma swap_Permutation (x : list nat) i j : swap x i j ≡ₚ x.
Proof.
  unfold swap.
  destruct (x !! i) as [a|] eqn:Hi; [|done].
  destruct (x !! j) as [b|] eqn:Hj; [|done].
  apply Permutation_inj. split; [by rewrite !length_insert|].
  exists (λ k, if decide (k = i) then j else if decide (k = j) then i else k).
  split.
  - intros k1 k2. repeat case_decide; congruence.
  - intros k.
    pose proof (lookup_lt_Some _ _ _ Hi). pose proof (lookup_lt_Some _ _ _ Hj).
    destruct (decide (k = j)) as [->|Hkj].
    + rewrite list_lookup_insert_eq by (by rewrite length_insert).
      case_decide; subst; congruence.
    + rewrite list_lookup_insert_ne by done.
      destruct (decide (k = i)) as [->|Hki].
      * rewrite list_lookup_insert_eq by done. done.
      * rewrite list_lookup_insert_ne by done. done.
Qed.

Lemma shuffle_from_Permutation i st (x : list nat) : shuffle_from i st x ≡ₚ x.
Proof.
  revert st x. induction i as [|i IH]; intros st x; simpl; [done|].
  destruct (rk_interval (S i) st) as [j st'].
  rewrite IH. apply swap_Permutation.
Qed.

Lemma permutation_Permutation st n : permutation st n ≡ₚ seq 0 n.
Proof. apply shuffle_from_Permutation. Qed.

Lemma py_slice_prefix {A} (l : list A) (k : Z) :
  (0 ≤ k ≤ Z.of_nat (length l))%Z →
  py_slice l (k - k) k = take (Z.to_nat k) l.
Proof.
  intros Hk. unfold py_slice.
  replace (k - k)%Z with 0%Z by lia. simpl.
  destruct (Z.ltb_spec k 0); [lia|].
  rewrite Z.min_l by lia. rewrite Z.min_l by lia. simpl. f_equal. lia.
Qed.

Lemma py_slice_suffix {A} (l : list A) (k : Z) :
  (0 ≤ k ≤ Z.of_nat (length l))%Z →
  py_slice l (k + (Z.of_nat (length l) - k) - (Z.of_nat (length l) - k))
             (k + (Z.of_nat (length l) - k)) = drop (Z.to_nat k) l.
Proof.
  intros Hk. unfold py_slice.
  replace (k + (Z.of_nat (length l) - k) - (Z.of_nat (length l) - k))%Z with k by lia.
  replace (k + (Z.of_nat (length l) - k))%Z with (Z.of_nat (length l)) by lia.
  destruct (Z.ltb_spec k 0); [lia|].
  destruct (Z.ltb_spec (Z.of_nat (length l)) 0); [lia|].
  rewrite Z.min_l by lia. rewrite Z.min_l by lia.
  apply take_ge. rewrite length_drop. lia.
Qed.

Lemma split_dataset_80_20 (dataset : Dataset) (shuffle : bool) random_state entropy :
  let n := length dataset in
  let k := Nat.div (4 * n) 5 in
  let indices := if shuffle then permutation (RandomState random_state entropy) n else seq 0 n in
  split_dataset dataset [4 # 5; 1 # 5]%Q shuffle random_state entropy
  = Ok [mkSubset dataset (take k indices); mkSubset dataset (drop k indices)].
Proof.
  intros n k indices. unfold split_dataset.
  change (allclose_one (foldr Qplus 0%Q [4 # 5; 1 # 5]%Q)) with true. cbv iota.
  fold n. fold indices.
  assert (Hlen : length indices = n).
  { unfold indices. destruct shuffle.
    - by rewrite permutation_Permutation, length_seq.
    - by rewrite length_seq. }
  assert (Hk : scaled_length n (4 # 5) = Z.of_nat k).
  { unfold scaled_length, k. simpl Qnum. simpl Qden.
    rewrite Z.quot_div_nonneg by lia.
    rewrite Nat2Z.inj_div. f_equal. lia. }
  cbn [fmap list_fmap set_last_length accumulate_from zip zip_with].
  rewrite Hk.
  assert (k ≤ n) by (unfold k; apply Nat.Div0.div_le_upper_bound; lia).
  f_equal. f_equal.
  - f_equal. replace (0 + Z.of_nat k - Z.of_nat k)%Z with (Z.of_nat k - Z.of_nat k)%Z by lia.
    replace (0 + Z.of_nat k)%Z with (Z.of_nat k) by lia.
    rewrite py_slice_prefix by lia. by rewrite Nat2Z.id.
  - f_equal. f_equal. rewrite <- Hlen.
    replace (0 + Z.of_nat k)%Z with (Z.of_nat k) by lia.
    rewrite py_slice_suffix by lia. by rewrite Nat2Z.id.
Qed.

(** ** Graph convolution *)

Lemma in_degrees_length g : length (in_degrees g) = num_nodes g.
Proof. unfold in_degrees. by rewrite length_fmap, length_seq. Qed.

Lemma th_mul_norm_same (feat : Tensor) (norm : list scalar) :
  length (rows feat) = length norm →
  th_mul_norm feat norm = Ok (mkTensor (width feat) (zip_with vscale norm (rows feat))).
Proof. intros Hl. unfold th_mul_norm. by rewrite decide_True. Qed.

(** Storing the features, passing the messages and reading the result:
    the three steps of a layer around [update_all]. *)
Lemma message_passing_spec (feat : Tensor) (g : DGLGraph) :
  ∃ g',
    (run set_ndata "h" feat; run update_all_copy_sum "h" "h"; get_ndata "h")%se g
    = if decide (length (rows feat) = num_nodes g)
      then (Ok (aggregate g feat), g')
      else (Err DGLError, g).
Proof.
  unfold se_bind at 1. unfold set_ndata at 1.
  case_decide as Hl; [|by exists g].
  unfold se_bind at 1. unfold update_all_copy_sum. unfold se_bind at 1.
  unfold se_get at 1. cbv iota beta. cbn [edges set_frame]. unfold aggregate.
  case_decide as He.
  - unfold se_ret, get_ndata. cbn [ndata set_frame]. rewrite lookup_insert_eq.
    by eexists.
  - unfold se_bind, get_ndata.
    cbn [ndata set_frame]. rewrite lookup_insert_eq.
    unfold set_ndata. cbn [rows num_nodes set_frame edges ndata].
    rewrite length_fmap, length_seq. rewrite decide_True by done.
    cbn [ndata set_frame]. rewrite lookup_insert_eq. by eexists.
Qed.

Lemma se_bind_lift {S A B} (r : result A) (k : A → SE S B) (s : S) :
  se_bind (se_lift r) k s = match r with Ok a => k a s | Err e => (Err e, s) end.
Proof. unfold se_bind, se_lift. by destruct r. Qed.

Lemma GraphConv_forward_unfold (L : GraphConv) (feat : Tensor) (g : DGLGraph) :
  GraphConv_forward L feat g = (GraphConv_value L feat g, g).
Proof.
  unfold GraphConv_forward, local_var. f_equal.
  unfold se_bind at 1. unfold se_get at 1. cbv iota beta.
  fold (conv_norm g). rewrite se_bind_lift. unfold GraphConv_value.
  destruct (th_mul_norm feat (conv_norm g)) as [feat1|e]; [|done].
  cbn [mbind result_bind].
  unfold se_bind at 1.
  case_decide as Hbr.
  - rewrite se_bind_lift.
    destruct (th_matmul _ _ _ feat1) as [feat2|e]; [|done].
    cbn [mbind result_bind].
    destruct (message_passing_spec feat2 g) as [g' ->].
    case_decide; [|done].
    rewrite se_bind_lift. cbn [mbind result_bind].
    by destruct (th_mul_norm _ _).
  - destruct (message_passing_spec feat1 g) as [g' Hmp].
    unfold se_bind in Hmp |- *. 
    destruct (set_ndata "h" feat1 g) as [[[]|e] g1].
    + destruct (update_all_copy_sum "h" "h" g1) as [[[]|e] g2].
      * rewrite Hmp. case_decide; [|done]. unfold se_lift.
        destruct (th_matmul _ _ _ _) as [r|e]; [|done].
        cbn [mbind result_bind]. by destruct (th_mul_norm _ _).
      * case_decide; simplify_eq. done.
    + case_decide; simplify_eq. done.
Qed.

Lemma th_mul_norm_inv (feat t : Tensor) (norm : list scalar) :
  th_mul_norm feat norm = Ok t → width t = width feat.
Proof.
  unfold th_mul_norm. case_decide; [by intros [= <-]|].
  destruct norm as [|c [|c' norm]], (rows feat) as [|r [|r' l]];
    intros [= <-]; done.
Qed.

Lemma th_matmul_inv n_in n_out W (feat t : Tensor) :
  th_matmul n_in n_out W feat = Ok t →
  width feat = n_in ∧ t = mkTensor n_out ((λ r, vmatmul r W) <$> rows feat).
Proof. unfold th_matmul. case_decide; [by intros [= <-]|done]. Qed.

Lemma conv_norm_length g : length (conv_norm g) = num_nodes g.
Proof. unfold conv_norm. by rewrite length_fmap, in_degrees_length. Qed.

Lemma aggregate_length g feat :
  length (rows feat) = num_nodes g → length (rows (aggregate g feat)) = num_nodes g.
Proof.
  intros Hl. unfold aggregate. case_decide; [done|].
  cbn [rows]. by rewrite length_fmap, length_seq.
Qed.

Lemma aggregate_width g feat : width (aggregate g feat) = width feat.
Proof. unfold aggregate. by case_decide. Qed.

(** Whatever the input, a result of a ReLU layer has one row per node and
    the output width of the layer. *)
Lemma GraphConv_value_shape (L : GraphConv) (feat t : Tensor) (g : DGLGraph) :
  gc_activation L = Some F_relu →
  GraphConv_value L feat g = Ok t →
  length (rows t) = num_nodes g ∧ width t = out_feats L.
Proof.
  intros Hact. unfold GraphConv_value. rewrite Hact.
  intros Hv. apply result_bind_Ok in Hv as (feat1 & H1 & Hv).
  apply result_bind_Ok in Hv as (rst & Hrst & Hv).
  apply result_bind_Ok in Hv as (rst2 & H2 & Hv).
  injection Hv as <-. cbn [apply_activation F_relu th_add_bias rows width].
  rewrite !length_fmap.
  assert (length (rows rst) = num_nodes g ∧ width rst = out_feats L) as [Hr Hw].
  { case_decide.
    - apply result_bind_Ok in Hrst as (feat2 & Hf2 & Hrst).
      case_decide as Hl2; [|done]. injection Hrst as <-.
      apply th_matmul_inv in Hf2 as [_ ->].
      split; [by apply aggregate_length|by rewrite aggregate_width].
    - case_decide as Hl1; [|done].
      apply th_matmul_inv in Hrst as [_ ->]. cbn [rows width].
      rewrite length_fmap. split; [by apply aggregate_length|done]. }
  rewrite th_mul_norm_same in H2 by (by rewrite conv_norm_length).
  injection H2 as <-. cbn [rows width].
  rewrite length_zip_with, conv_norm_length. split; [lia|done].
Qed.

(** With one row per node and the input width of the layer, the layer
    does not fail. *)
Lemma GraphConv_value_ok (L : GraphConv) (feat : Tensor) (g : DGLGraph) :
  length (rows feat) = num_nodes g →
  width feat = in_feats L →
  is_Ok (GraphConv_value L feat g).
Proof.
  intros Hr Hw. unfold GraphConv_value.
  rewrite th_mul_norm_same by (by rewrite conv_norm_length).
  cbn [mbind result_bind].
  assert (Hl : length (zip_with vscale (conv_norm g) (rows feat)) = num_nodes g).
  { rewrite length_zip_with, conv_norm_length. lia. }
  case_decide.
  - unfold th_matmul at 1. cbn [width rows]. rewrite decide_True by done.
    cbn [mbind result_bind rows]. rewrite length_fmap, decide_True by done.
    cbn [mbind result_bind].
    rewrite th_mul_norm_same
      by (rewrite conv_norm_length; apply aggregate_length; cbn [rows];
          by rewrite length_fmap).
    eexists; done.
  - cbn [rows]. rewrite decide_True by done.
    unfold th_matmul. rewrite aggregate_width. cbn [width]. rewrite decide_True by done.
    cbn [mbind result_bind].
    rewrite th_mul_norm_same
      by (cbn [rows]; rewrite length_fmap, conv_norm_length; by apply aggregate_length).
    eexists; done.
Qed.

(** ** The forward pass *)

Lemma layers_relu (m : GCNModel) (L : GraphConv) :
  L ∈ layers m → gc_activation L = Some F_relu.
Proof.
  unfold layers. intros HL.
  repeat (apply elem_of_cons in HL as [->|HL]; [done|]).
  by apply elem_of_nil in HL.
Qed.

Lemma readout_spec (h : Tensor) (g : DGLGraph) :
  local_scope (run set_ndata "feat" h; sum_nodes "feat")%se g
  = if decide (length (rows h) = num_nodes g)
    then (Ok (readout g h), g) else (Err DGLError, g).
Proof.
  unfold local_scope, se_bind at 1. unfold set_ndata.
  case_decide; [|done].
  unfold sum_nodes, se_bind, get_ndata, se_get, se_ret.
  cbn [ndata set_frame]. rewrite lookup_insert_eq. done.
Qed.

(** The stateful forward pass returns [forward_value] and leaves the
    graph as it found it. *)
Lemma GCNModel_forward_unfold (m : GCNModel) (features : Tensor) (g : DGLGraph) :
  GCNModel_forward m features g = (forward_value m features g, g).
Proof.
  unfold GCNModel_forward, forward_value.
  pose proof (layers_relu m) as Hrelu.
  destruct (layers m) as [|l1 [|l2 [|l3 [|l4 ls]]]] eqn:Hl;
    try (unfold layers in Hl; discriminate).
  cbn [se_foldM]. unfold se_bind at 1. unfold se_bind at 1.
  rewrite GraphConv_forward_unfold.
  destruct (GraphConv_value l1 features g) as [h1|e]; [|done].
  cbn [mbind result_bind]. unfold se_bind at 1.
  rewrite GraphConv_forward_unfold.
  destruct (GraphConv_value l2 h1 g) as [h2|e]; [|done].
  cbn [mbind result_bind]. unfold se_bind at 1.
  rewrite GraphConv_forward_unfold.
  destruct (GraphConv_value l3 h2 g) as [h3|e] eqn:H3; [|done].
  cbn [mbind result_bind]. unfold se_ret.
  unfold se_bind at 1. rewrite readout_spec.
  apply GraphConv_value_shape in H3 as [Hr _]; [|apply Hrelu; set_solver].
  rewrite decide_True by done. done.
Qed.

Lemma in_degree_edgeless (g : DGLGraph) v : edges g = [] → in_degree g v = 0.
Proof. unfold in_degree. by intros ->. Qed.

Lemma conv_norm_edgeless (g : DGLGraph) :
  edges g = [] → conv_norm g = replicate (num_nodes g) (pow_neg_half 1).
Proof.
  intros He. unfold conv_norm, in_degrees. rewrite <- list_fmap_compose.
  rewrite <- (length_seq (num_nodes g) 0) at 2.
  generalize (seq 0 (num_nodes g)). intros l.
  induction l as [|v l IH]; [done|]. cbn [fmap list_fmap length replicate].
  f_equal; [|apply IH]. simpl. by rewrite in_degree_edgeless.
Qed.

Lemma aggregate_edgeless (g : DGLGraph) (feat : Tensor) :
  edges g = [] → aggregate g feat = feat.
Proof. intros He. unfold aggregate. by rewrite decide_True. Qed.

Lemma scale_edgeless (g : DGLGraph) (l : list Vec) :
  edges g = [] →
  length l = num_nodes g →
  zip_with vscale (conv_norm g) l = vscale (pow_neg_half 1) <$> l.
Proof.
  intros He Hl. rewrite conv_norm_edgeless by done.
  apply zip_with_replicate_l. lia.
Qed.

(** On a graph without edges a ReLU layer transforms every node on its
    own. *)
Lemma GraphConv_value_edgeless (L : GraphConv) (feat : Tensor) (g : DGLGraph) :
  edges g = [] →
  gc_activation L = Some F_relu →
  length (rows feat) = num_nodes g →
  width feat = in_feats L →
  GraphConv_value L feat g
  = Ok (mkTensor (out_feats L) (relu_zero_neighbor_conv L <$> rows feat)).
Proof.
  intros He Hact Hr Hw. unfold GraphConv_value. rewrite Hact.
  rewrite th_mul_norm_same by (by rewrite conv_norm_length).
  cbn [mbind result_bind]. rewrite scale_edgeless by done.
  case_decide.
  - unfold th_matmul at 1. cbn [width rows]. rewrite decide_True by done.
    cbn [mbind result_bind rows]. rewrite !length_fmap, decide_True by done.
    cbn [mbind result_bind]. rewrite aggregate_edgeless by done.
    rewrite th_mul_norm_same by (cbn [rows]; by rewrite !length_fmap, conv_norm_length).
    cbn [mbind result_bind rows width].
    rewrite scale_edgeless by (try done; by rewrite !length_fmap).
    unfold apply_activation, F_relu, th_add_bias. cbn [width rows].
    by rewrite <- !list_fmap_compose.
  - cbn [rows]. rewrite length_fmap, decide_True by done.
    rewrite aggregate_edgeless by done.
    unfold th_matmul. cbn [width rows]. rewrite decide_True by done.
    cbn [mbind result_bind].
    rewrite th_mul_norm_same by (cbn [rows]; by rewrite !length_fmap, conv_norm_length).
    cbn [mbind result_bind rows width].
    rewrite scale_edgeless by (try done; by rewrite !length_fmap).
    unfold apply_activation, F_relu, th_add_bias. cbn [width rows].
    by rewrite <- !list_fmap_compose.
Qed.

Lemma segments_length (ns : list nat) (l : list Vec) :
  length (segments ns l) = length ns.
Proof. revert l. induction ns as [|n ns IH]; intros l; simpl; [done|]. by rewrite IH. Qed.

(** With one row per node and the input width of the model, the forward
    pass does not fail and yields one row of logits per graph. *)
Lemma forward_value_ok (m : GCNModel) (X : Tensor) (g : DGLGraph) :
  length (rows X) = num_nodes g →
  width X = m_in_feats m →
  ∃ logits, forward_value m X g = Ok logits
    ∧ width logits = m_out_feats m
    ∧ length (rows logits) = batch_size g.
Proof.
  intros Hr Hw. unfold forward_value, layers.
  set (l1 := mkGraphConv (m_in_feats m) _ _ _ _).
  set (l2 := mkGraphConv _ _ (conv2_weight _) _ _).
  set (l3 := mkGraphConv _ _ (conv3_weight _) _ _).
  destruct (GraphConv_value_ok l1 X g) as [h1 H1]; [done|done|].
  rewrite H1. cbn [mbind result_bind].
  apply GraphConv_value_shape in H1 as [Hr1 Hw1]; [|done].
  destruct (GraphConv_value_ok l2 h1 g) as [h2 H2]; [done|done|].
  rewrite H2. cbn [mbind result_bind].
  apply GraphConv_value_shape in H2 as [Hr2 Hw2]; [|done].
  destruct (GraphConv_value_ok l3 h2 g) as [h3 H3]; [done|done|].
  rewrite H3. cbn [mbind result_bind].
  apply GraphConv_value_shape in H3 as [Hr3 Hw3]; [|done].
  unfold Linear_forward, th_matmul, readout, classifier.
  cbn [width rows in_features out_features lin_weight lin_bias].
  rewrite decide_True by done. cbn [mbind result_bind].
  eexists. split; [done|]. unfold th_add_bias. cbn [width rows].
  split; [done|]. by rewrite !length_fmap, segments_length.
Qed.

Lemma dgl_batch_single (g0 bg : DGLGraph) :
  dgl_batch [g0] = Ok bg →
  bg = mkGraph (num_nodes g0 + 0) ((shift_edge 0 <$> edges g0) ++ [])
               (ndata g0) (Some (batch_num_nodes g0 ++ [])).
Proof. unfold dgl_batch, batch_frames, mbind, result_bind. by intros [= <-]. Qed.

(** Without the local scope the readout leaves the node embedding in the
    frame of the graph, under key ['feat']. *)
Lemma readout_writes_feat (h : Tensor) (g : DGLGraph) :
  length (rows h) = num_nodes g →
  ((run set_ndata "feat" h; sum_nodes "feat")%se g).1 = Ok (readout g h)
  ∧ ndata ((run set_ndata "feat" h; sum_nodes "feat")%se g).2 !! "feat" = Some h.
Proof.
  intros Hr. unfold se_bind, set_ndata. rewrite decide_True by done.
  unfold sum_nodes, se_bind, get_ndata, se_get, se_ret.
  cbn [ndata set_frame]. rewrite lookup_insert_eq. cbn [fst snd ndata set_frame].
  by rewrite lookup_insert_eq.
Qed.

(** ** The loader and the loops *)

Lemma batch_sampler_join (bs : nat) (b l : list nat) :
  mjoin (batch_sampler bs b l) = b ++ l.
Proof.
  revert b. induction l as [|idx l IH]; intros b; simpl.
  - case_decide as Hb; simpl; [done|].
    destruct b; [done|simpl in Hb; lia].
  - case_decide; csimpl; rewrite IH; by rewrite <- ?app_assoc.
Qed.

Lemma batch_sampler_nonempty (bs : nat) (b l : list nat) :
  Forall (λ batch, batch ≠ []) (batch_sampler bs b l).
Proof.
  revert b. induction l as [|idx l IH]; intros b; simpl.
  - case_decide as Hb; [|done]. apply Forall_singleton. by destruct b; [simpl in Hb; lia|].
  - case_decide; [|apply IH]. apply Forall_cons. split; [|apply IH].
    by destruct b.
Qed.

Lemma DataLoader_batches_join (dl : DataLoader) :
  mjoin (DataLoader_batches dl) = seq 0 (Subset_len (dl_dataset dl)).
Proof. unfold DataLoader_batches. by rewrite batch_sampler_join. Qed.

Lemma join_Forall_inv {A} (P : A → Prop) (ls : list (list A)) :
  Forall P (mjoin ls) → Forall (Forall P) ls.
Proof.
  induction ls as [|l ls IH]; [done|]. csimpl.
  rewrite Forall_app. intros [? ?]. apply Forall_cons. split; [done|by apply IH].
Qed.

Lemma DataLoader_batches_valid (dl : DataLoader) :
  Forall (λ batch, batch ≠ [] ∧ Forall (λ i, i < Subset_len (dl_dataset dl)) batch)
         (DataLoader_batches dl).
Proof.
  apply Forall_and. split; [apply batch_sampler_nonempty|].
  apply join_Forall_inv. rewrite DataLoader_batches_join.
  apply Forall_forall. intros i Hi. apply elem_of_seq in Hi. lia.
Qed.

Lemma DataLoader_batches_total (dl : DataLoader) :
  sum_list (length <$> DataLoader_batches dl) = Subset_len (dl_dataset dl).
Proof.
  rewrite <- (length_seq (Subset_len (dl_dataset dl)) 0), <- DataLoader_batches_join.
  generalize (DataLoader_batches dl). intros ls.
  induction ls as [|l ls IH]; [done|]. csimpl. rewrite length_app. by rewrite IH.
Qed.

Lemma getitems_ok (sig : gmap string nat) (s : Subset) (batch : list nat) :
  Forall (λ j, ∃ d, sub_dataset s !! j = Some d ∧ wf_graph sig d.1) (sub_indices s) →
  Forall (λ i, i < Subset_len s) batch →
  ∃ data, mapM (Subset_getitem s) batch = Ok data
    ∧ length data = length batch
    ∧ Forall (wf_graph sig) data.*1.
Proof.
  intros Hwf Hb. induction Hb as [|i batch Hi _ (data & Hd & Hl & Hdwf)].
  - exists []. done.
  - unfold Subset_len in Hi. apply lookup_lt_is_Some_2 in Hi as [j Hj].
    pose proof (Forall_lookup_1 _ _ _ _ Hwf Hj) as (d & Hd' & Hdw).
    assert (Hg : Subset_getitem s i = Ok d)
      by (unfold Subset_getitem; by rewrite Hj, Hd').
    exists (d :: data). cbn [mapM]. rewrite Hg. cbn [mbind result_bind].
    rewrite Hd. cbn [mbind result_bind].
    split; [done|]. split; [simpl; by rewrite Hl|]. csimpl. by apply Forall_cons.
Qed.

Lemma mapM_getitem_inv (s : Subset) (batch : list nat) (data : list (DGLGraph * Z)) :
  mapM (Subset_getitem s) batch = Ok data →
  Forall2 (λ i d, Subset_getitem s i = Ok d) batch data.
Proof.
  revert data. induction batch as [|i batch IH]; intros data; cbn [mapM].
  - intros [= <-]. constructor.
  - intros Hm. apply result_bind_Ok in Hm as (d & Hd & Hm).
    apply result_bind_Ok in Hm as (data' & Hdata' & Hm). injection Hm as <-.
    constructor; [done|by apply IH].
Qed.

Lemma getitem_item_at (s : Subset) (i : nat) (d : DGLGraph * Z) :
  Subset_getitem s i = Ok d ↔ item_at s i = Some d.
Proof.
  unfold Subset_getitem, item_at.
  destruct (sub_indices s !! i) as [j|]; simpl; [|done].
  destruct (sub_dataset s !! j) as [d'|]; simpl; [|done].
  split; by intros [= <-].
Qed.

(** The items that the loader fetches for a batch are the items of the
    batch. *)
Lemma getitems_batch_items (s : Subset) (batch : list nat) (data : list (DGLGraph * Z)) :
  mapM (Subset_getitem s) batch = Ok data → batch_items s batch = data.
Proof.
  intros Hm%mapM_getitem_inv. unfold batch_items.
  induction Hm as [|i d batch data Hd _ IH]; [done|].
  apply getitem_item_at in Hd. csimpl. by rewrite Hd, IH.
Qed.

Lemma batch_items_labels (n_classes : nat) (s : Subset) (batch : list nat) :
  labels_in_range n_classes s →
  Forall (λ l : Z, (0 ≤ l < Z.of_nat n_classes)%Z) (batch_items s batch).*2.
Proof.
  intros Hl. apply Forall_fmap. apply Forall_forall. intros d Hd.
  unfold batch_items in Hd. apply list_elem_of_omap in Hd as (i & _ & Hi).
  unfold item_at in Hi.
  destruct (sub_indices s !! i) as [j|] eqn:Hj; simpl in Hi; [|done].
  destruct (Forall_lookup_1 _ _ _ _ Hl Hj) as (d' & Hd' & Hrange).
  rewrite Hd' in Hi. by injection Hi as <-.
Qed.

(** Counting the correct predictions as the cells do gives the number of
    positions at which the predicted class is the label. *)
Lemma count_correct_agreements (logits : Tensor) (labels : list Z) :
  count_correct logits labels = agreements (argmax <$> rows logits) labels.
Proof.
  unfold count_correct. generalize (argmax <$> rows logits). intros preds.
  revert labels. induction preds as [|p preds IH]; intros [|l labels]; try done.
  cbn [zip zip_with agreements]. rewrite filter_cons. cbn [fst snd].
  destruct (decide (p = l)); cbn [length]; by rewrite IH.
Qed.

Lemma agreements_le (preds labels : list Z) : agreements preds labels ≤ length labels.
Proof.
  revert labels. induction preds as [|p preds IH]; intros [|l labels]; simpl; try lia.
  specialize (IH labels). destruct (decide (p = l)); lia.
Qed.

(** The forward pass does not look at the mode of the model. *)
Lemma forward_value_training (m : GCNModel) (b : bool) (X : Tensor) (g : DGLGraph) :
  forward_value (set_training m b) X g = forward_value m X g.
Proof. done. Qed.

Lemma forward_value_params (m m' : GCNModel) (X : Tensor) (g : DGLGraph) :
  m_in_feats m' = m_in_feats m → m_n_hidden m' = m_n_hidden m →
  m_out_feats m' = m_out_feats m → m_params m' = m_params m →
  forward_value m' X g = forward_value m X g.
Proof.
  intros H1 H2 H3 H4. unfold forward_value, layers, classifier.
  by rewrite H1, H2, H3, H4.
Qed.

(** One batch of a well-formed loader goes through fetching, popping the
    features and the forward pass without failure; the labels are those
    of the items of the batch and the logits are the logits of the
    batch. *)
Lemma batch_logits_ok (in_f : nat) (dl : DataLoader) (m : GCNModel) (batch : list nat) :
  wf_loader in_f dl →
  m_in_feats m = in_f →
  batch ≠ [] →
  Forall (λ i, i < Subset_len (dl_dataset dl)) batch →
  ∃ bg feats bg' logits,
    DataLoader_fetch dl batch = Ok (bg, (batch_items (dl_dataset dl) batch).*2)
    ∧ pop_ndata "node_attr" bg = (Ok feats, bg')
    ∧ batch_inputs (dl_dataset dl) batch = Some (bg', feats)
    ∧ call_model m bg' feats = Ok logits
    ∧ rows logits = batch_logits m (dl_dataset dl) batch
    ∧ width logits = m_out_feats m
    ∧ length (batch_items (dl_dataset dl) batch).*2 = length batch
    ∧ length (rows logits) = length batch.
Proof.
  intros (_ & sig & Hsig & Hwf) Hm Hne Hb.
  destruct (getitems_ok sig _ batch Hwf Hb) as (data & Hdata & Hl & Hdwf).
  assert (data ≠ []) by (intros ->; by destruct batch).
  destruct (collate_ok sig data) as (bg & Hc & Hbg); [done|done|].
  destruct (dgl_batch_ok sig data.*1) as (bg2 & Hbg2 & Hn & Hbn & Hlk);
    [by destruct data|done|].
  assert (bg2 = bg) as -> by congruence.
  destruct (Hlk "node_attr" in_f Hsig) as [Hattr Hrows].
  set (feats := mkTensor in_f (mjoin (rows_at "node_attr" <$> data.*1))) in *.
  set (bg' := set_frame bg (delete "node_attr" (ndata bg))).
  destruct (forward_value_ok m feats bg') as (logits & Hlog & Hwl & Hlrows);
    [done|done|].
  pose proof (getitems_batch_items _ _ _ Hdata) as Hitems.
  exists bg, feats, bg', logits. rewrite Hitems.
  split; [unfold DataLoader_fetch; by rewrite Hdata|].
  split; [unfold pop_ndata; by rewrite Hattr|].
  assert (Hin : batch_inputs (dl_dataset dl) batch = Some (bg', feats)).
  { unfold batch_inputs. by rewrite Hitems, Hbg, Hattr. }
  split; [exact Hin|].
  split; [unfold call_model; by rewrite GCNModel_forward_unfold|].
  split; [unfold batch_logits; by rewrite Hin, Hlog|].
  split; [done|].
  split; [by rewrite length_fmap|].
  rewrite Hlrows. unfold batch_size, bg', batch_num_nodes, set_frame. cbn [batch_info num_nodes].
  fold (batch_num_nodes bg). rewrite Hbn, !length_fmap. done.
Qed.

Lemma omap_length_le {A B} (f : A → option B) (l : list A) :
  length (omap f l) ≤ length l.
Proof.
  induction l as [|x l IH]; [done|]. csimpl. destruct (f x); simpl; lia.
Qed.

Lemma batch_correct_le (m : GCNModel) (s : Subset) (batch : list nat) :
  batch_correct m s batch ≤ length batch.
Proof.
  unfold batch_correct. etrans; [apply agreements_le|].
  rewrite length_fmap. unfold batch_items. apply omap_length_le.
Qed.

Lemma val_batch_ok (in_f : nat) (dl : DataLoader) (st : State) (acc : nat * nat)
    (batch : list nat) :
  wf_loader in_f dl →
  m_in_feats (model st) = in_f →
  batch ≠ [] →
  Forall (λ i, i < Subset_len (dl_dataset dl)) batch →
  val_batch dl acc batch st
  = (Ok (acc.1 + batch_correct (model st) (dl_dataset dl) batch, acc.2 + length batch), st).
Proof.
  intros Hwf Hm Hne Hb.
  destruct (batch_logits_ok in_f dl (model st) batch Hwf Hm Hne Hb)
    as (bg & feats & bg' & logits & Hf & Hp & _ & Hc & Hrows & _ & Hl & _).
  unfold val_batch. rewrite se_bind_lift, Hf, Hp.
  rewrite se_bind_lift. unfold se_bind at 1. unfold se_get at 1. cbv iota beta.
  rewrite se_bind_lift, Hc. destruct acc as [t n]. rewrite Hl.
  by rewrite count_correct_agreements, Hrows.
Qed.

Lemma val_fold_ok (in_f : nat) (dl : DataLoader) (st : State) (batches : list (list nat))
    (acc : nat * nat) :
  wf_loader in_f dl →
  m_in_feats (model st) = in_f →
  Forall (λ batch, batch ≠ [] ∧ Forall (λ i, i < Subset_len (dl_dataset dl)) batch) batches →
  se_foldM (val_batch dl) acc batches st
  = (Ok (acc.1 + sum_list (batch_correct (model st) (dl_dataset dl) <$> batches),
         acc.2 + sum_list (length <$> batches)), st)
  ∧ sum_list (batch_correct (model st) (dl_dataset dl) <$> batches)
    ≤ sum_list (length <$> batches).
Proof.
  intros Hwf Hm Hbs. revert acc.
  induction Hbs as [|batch batches [Hne Hb] _ IH]; intros acc.
  - simpl. unfold se_ret. destruct acc. simpl. split; [|done]. by rewrite !Nat.add_0_r.
  - cbn [se_foldM]. unfold se_bind.
    rewrite (val_batch_ok in_f dl st acc batch Hwf Hm Hne Hb).
    pose proof (batch_correct_le (model st) (dl_dataset dl) batch) as Hle.
    destruct (IH (acc.1 + batch_correct (model st) (dl_dataset dl) batch,
                  acc.2 + length batch)) as [-> Hle'].
    csimpl. split; [|lia]. by rewrite !Nat.add_assoc.
Qed.

Lemma batch_items_join (s : Subset) (batches : list (list nat)) :
  batch_items s (mjoin batches) = mjoin (batch_items s <$> batches).
Proof.
  unfold batch_items. induction batches as [|b batches IH]; [done|].
  csimpl. by rewrite omap_app, IH.
Qed.

(** Every position of a well-formed subset points to an item. *)
Lemma batch_items_length (in_f : nat) (dl : DataLoader) :
  wf_loader in_f dl →
  length (batch_items (dl_dataset dl) (seq 0 (Subset_len (dl_dataset dl))))
  = Subset_len (dl_dataset dl).
Proof.
  intros (_ & sig & _ & Hwf).
  destruct (getitems_ok sig _ (seq 0 (Subset_len (dl_dataset dl))) Hwf)
    as (data & Hdata & Hl & _).
  { apply Forall_forall. intros i Hi%elem_of_seq. lia. }
  rewrite (getitems_batch_items _ _ _ Hdata), Hl. by rewrite length_seq.
Qed.

(** *** Validation *)

Lemma call_model_training (m : GCNModel) (b : bool) (bg : DGLGraph) (feats : Tensor) :
  call_model (set_training m b) bg feats = call_model m bg feats.
Proof. unfold call_model. by rewrite !GCNModel_forward_unfold. Qed.

Lemma batch_logits_training (m : GCNModel) (b : bool) (s : Subset) (batch : list nat) :
  batch_logits (set_training m b) s batch = batch_logits m s batch.
Proof. done. Qed.

Lemma batch_correct_training (m : GCNModel) (b : bool) (s : Subset) (batch : list nat) :
  batch_correct (set_training m b) s batch = batch_correct m s batch.
Proof. done. Qed.

Lemma validation_cell_unfold (in_f : nat) (dl : DataLoader) (st : State) :
  wf_loader in_f dl →
  m_in_feats (model st) = in_f →
  let m_eval := set_training (model st) false in
  let st_ng := mkState m_eval (optimizer st) false (stdout st) in
  let correct :=
    sum_list (batch_correct (model st) (dl_dataset dl) <$> DataLoader_batches dl) in
  let total := Subset_len (dl_dataset dl) in
  se_foldM (val_batch dl) (0, 0) (DataLoader_batches dl) st_ng = (Ok (correct, total), st_ng)
  ∧ correct ≤ total
  ∧ validation_cell dl st
    = if decide (total = 0)
      then (Err ZeroDivisionError, mkState m_eval (optimizer st) (grad_enabled st) (stdout st))
      else (Ok tt, mkState m_eval (optimizer st) (grad_enabled st)
                     (stdout st ++ [validation_line correct total])).
Proof.
  intros Hwf Hm m_eval st_ng correct total.
  destruct (val_fold_ok in_f dl st_ng (DataLoader_batches dl) (0, 0) Hwf)
    as [Hfold Hle]; [done|apply DataLoader_batches_valid|].
  rewrite DataLoader_batches_total in Hfold, Hle.
  cbn [fst snd model st_ng Nat.add] in Hfold, Hle.
  assert (Hc : batch_correct m_eval (dl_dataset dl) <$> DataLoader_batches dl
               = batch_correct (model st) (dl_dataset dl) <$> DataLoader_batches dl).
  { apply list_fmap_ext. intros i b _. apply batch_correct_training. }
  rewrite Hc in Hfold, Hle.
  fold correct in Hfold, Hle. fold total in Hfold, Hle.
  split; [exact Hfold|]. split; [exact Hle|].
  unfold validation_cell, validation_cell_of, validation_loop.
  unfold se_bind at 1. unfold model_eval at 1.
  unfold se_bind at 1. unfold no_grad.
  unfold set_grad_enabled, set_model. cbn [model optimizer stdout grad_enabled].
  fold m_eval. change (mkState m_eval (optimizer st) false (stdout st)) with st_ng.
  rewrite Hfold. unfold st_ng. cbn [model optimizer stdout grad_enabled].
  case_decide; done.
Qed.

(** *** Training *)

Lemma optimize_ok (in_f : nat) (bg : DGLGraph) (feats : Tensor) (labels : list Z) (st : State) :
  train_inv in_f st →
  ∃ st', optimize bg feats labels st = (Ok tt, st')
    ∧ train_inv in_f st' ∧ stdout st' = stdout st
    ∧ m_out_feats (model st') = m_out_feats (model st)
    ∧ (model st', optimizer st')
      = (let '(o', p') := Adam_step (optimizer st) (m_params (model st))
                            (loss_backward (model st) bg feats labels) in
         (with_params (model st) p', o')).
Proof.
  intros [Hm Hg]. unfold optimize. rewrite Hg.
  destruct (Adam_step _ _ _) as [opt' p']. eexists. split; [done|].
  split; [|done]. split; done.
Qed.

Lemma loss_criterion_ok (logits : Tensor) (labels : list Z) :
  length (rows logits) = length labels →
  Forall (λ l : Z, (0 ≤ l < Z.of_nat (width logits))%Z) labels →
  loss_criterion logits labels = Ok (cross_entropy (rows logits) labels).
Proof.
  intros Hl Hr. unfold loss_criterion. rewrite decide_True by done.
  rewrite decide_True; [done|]. eapply Forall_impl; [exact Hr|]. intros l ?. by right.
Qed.

(** One step of the training loop: the loss and the correct predictions
    of the batch at the current parameters are recorded, and the model
    and the optimizer make one step. *)
Lemma train_batch_ok (in_f : nat) (dl : DataLoader) (st : State) (acc : EpochAcc)
    (batch : list nat) :
  wf_loader in_f dl →
  labels_in_range (m_out_feats (model st)) (dl_dataset dl) →
  train_inv in_f st →
  batch ≠ [] →
  Forall (λ i, i < Subset_len (dl_dataset dl)) batch →
  ∃ st',
    train_batch dl acc batch st
    = (Ok (mkEpochAcc (loss_list acc ++ [batch_loss (model st) (dl_dataset dl) batch])
                      (true_samples acc + batch_correct (model st) (dl_dataset dl) batch)
                      (num_samples acc + length batch)), st')
    ∧ train_inv in_f st' ∧ stdout st' = stdout st
    ∧ m_out_feats (model st') = m_out_feats (model st)
    ∧ (model st', optimizer st') = adam_update (dl_dataset dl) (model st, optimizer st) batch.
Proof.
  intros Hwf Hlab Hinv Hne Hb.
  destruct (batch_logits_ok in_f dl (model st) batch Hwf (proj1 Hinv) Hne Hb)
    as (bg & feats & bg' & logits & Hf & Hp & Hin & Hc & Hrows & Hw & Hl & Hlr).
  destruct (optimize_ok in_f bg' feats (batch_items (dl_dataset dl) batch).*2 st Hinv)
    as (st' & Hopt & Hinv' & Hout & Hof & Hstep).
  unfold train_batch. rewrite se_bind_lift, Hf, Hp.
  rewrite se_bind_lift. unfold se_bind at 1. unfold se_get at 1. cbv iota beta.
  rewrite se_bind_lift, Hc.
  rewrite se_bind_lift, loss_criterion_ok;
    [|congruence|rewrite Hw; by apply batch_items_labels].
  unfold se_bind. rewrite Hopt. unfold se_ret.
  exists st'. rewrite count_correct_agreements, Hrows, Hl.
  split; [done|]. split; [done|]. split; [done|]. split; [done|].
  rewrite Hstep. unfold adam_update. by rewrite Hin.
Qed.

Lemma train_fold_ok (in_f : nat) (dl : DataLoader) (batches : list (list nat))
    (st : State) (acc : EpochAcc) :
  wf_loader in_f dl →
  labels_in_range (m_out_feats (model st)) (dl_dataset dl) →
  train_inv in_f st →
  Forall (λ batch, batch ≠ [] ∧ Forall (λ i, i < Subset_len (dl_dataset dl)) batch) batches →
  ∃ st',
    se_foldM (train_batch dl) acc batches st
    = (Ok (mkEpochAcc
             (loss_list acc ++ epoch_losses (dl_dataset dl) batches (model st, optimizer st))
             (true_samples acc + epoch_correct (dl_dataset dl) batches (model st, optimizer st))
             (num_samples acc + sum_list (length <$> batches))), st')
    ∧ train_inv in_f st' ∧ stdout st' = stdout st
    ∧ m_out_feats (model st') = m_out_feats (model st)
    ∧ (model st', optimizer st')
      = after_epoch (dl_dataset dl) batches (model st, optimizer st).
Proof.
  intros Hwf Hlab Hinv Hbs. revert st acc Hlab Hinv.
  induction Hbs as [|batch batches [Hne Hb] _ IH]; intros st acc Hlab Hinv.
  - exists st. simpl. unfold se_ret, epoch_losses, epoch_correct. simpl.
    rewrite app_nil_r, !Nat.add_0_r. by destruct acc.
  - destruct (train_batch_ok in_f dl st acc batch Hwf Hlab Hinv Hne Hb)
      as (st1 & Hstep & Hinv1 & Hout1 & Hof1 & Hmo1).
    rewrite <- Hof1 in Hlab.
    destruct (IH st1 (mkEpochAcc
                 (loss_list acc ++ [batch_loss (model st) (dl_dataset dl) batch])
                 (true_samples acc + batch_correct (model st) (dl_dataset dl) batch)
                 (num_samples acc + length batch)) Hlab Hinv1)
      as (st2 & Hfold & Hinv2 & Hout2 & Hof2 & Hmo2).
    exists st2. cbn [se_foldM]. unfold se_bind. rewrite Hstep, Hfold.
    cbn [loss_list true_samples num_samples]. rewrite Hmo1.
    split.
    { f_equal. f_equal. unfold epoch_losses, epoch_correct.
      cbn [before_batches zip_with sum_list sum_list_with fmap list_fmap fst].
      rewrite <- app_assoc. f_equal; unfold id; lia. }
    split; [done|]. split; [congruence|]. split; [congruence|].
    rewrite Hmo2, Hmo1. done.
Qed.

(** The line that an epoch started with model and optimizer [mo] prints
    as epoch [i]. *)
Lemma epoch_correct_le (s : Subset) (batches : list (list nat)) (mo : GCNModel * OptState) :
  epoch_correct s batches mo ≤ sum_list (length <$> batches).
Proof.
  unfold epoch_correct. revert mo. induction batches as [|b batches IH]; intros mo; [done|].
  cbn [before_batches zip_with sum_list sum_list_with fmap list_fmap].
  pose proof (batch_correct_le mo.1 s b). specialize (IH (adam_update s mo b)). simpl in *. lia.
Qed.

Lemma train_epoch_ok (in_f : nat) (dl : DataLoader) (i : nat) (st : State) :
  wf_loader in_f dl →
  labels_in_range (m_out_feats (model st)) (dl_dataset dl) →
  train_inv in_f st →
  0 < Subset_len (dl_dataset dl) →
  ∃ st',
    train_epoch dl i st = (Ok tt, st')
    ∧ train_inv in_f st'
    ∧ m_out_feats (model st') = m_out_feats (model st)
    ∧ (model st', optimizer st')
      = after_epoch (dl_dataset dl) (DataLoader_batches dl) (model st, optimizer st)
    ∧ stdout st'
      = stdout st ++ [epoch_report (dl_dataset dl) (DataLoader_batches dl)
                        (model st, optimizer st) i].
Proof.
  intros Hwf Hlab Hinv Hpos.
  destruct (train_fold_ok in_f dl (DataLoader_batches dl) st (mkEpochAcc [] 0 0) Hwf Hlab Hinv)
    as (st1 & Hfold & Hinv1 & Hout1 & Hof1 & Hmo1);
    [apply DataLoader_batches_valid|].
  rewrite DataLoader_batches_total in Hfold. cbn [num_samples true_samples loss_list] in *.
  eexists. unfold train_epoch, se_bind. rewrite Hfold. cbn [num_samples].
  rewrite decide_False by lia.
  split; [done|]. cbn [model optimizer stdout grad_enabled].
  split; [exact Hinv1|]. split; [done|]. split; [done|]. by rewrite Hout1.
Qed.

Lemma at_epoch_S (s : Subset) (batches : list (list nat)) (mo : GCNModel * OptState) (j : nat) :
  at_epoch s batches mo (S j) = at_epoch s batches (after_epoch s batches mo) j.
Proof. unfold at_epoch. apply Nat.iter_succ_r. Qed.

Lemma training_loop_ok (in_f : nat) (dl : DataLoader) (n i : nat) (st : State) :
  wf_loader in_f dl →
  labels_in_range (m_out_feats (model st)) (dl_dataset dl) →
  train_inv in_f st →
  0 < Subset_len (dl_dataset dl) →
  ∃ st',
    se_foldM (λ _ i, train_epoch dl i) tt (seq i n) st = (Ok tt, st')
    ∧ train_inv in_f st'
    ∧ m_out_feats (model st') = m_out_feats (model st)
    ∧ (model st', optimizer st')
      = at_epoch (dl_dataset dl) (DataLoader_batches dl) (model st, optimizer st) n
    ∧ stdout st'
      = stdout st ++ ((λ j, epoch_report (dl_dataset dl) (DataLoader_batches dl)
                              (at_epoch (dl_dataset dl) (DataLoader_batches dl)
                                        (model st, optimizer st) j) (i + j))
                        <$> seq 0 n).
Proof.
  intros Hwf Hlab Hinv Hpos. revert i st Hlab Hinv.
  induction n as [|n IH]; intros i st Hlab Hinv.
  - exists st. simpl. unfold se_ret. split; [done|]. split; [done|]. split; [done|].
    split; [done|]. by rewrite app_nil_r.
  - destruct (train_epoch_ok in_f dl i st Hwf Hlab Hinv Hpos)
      as (st1 & Hep & Hinv1 & Hof1 & Hmo1 & Hout1).
    rewrite <- Hof1 in Hlab.
    destruct (IH (S i) st1 Hlab Hinv1) as (st' & Hloop & Hinv' & Hof' & Hmo' & Hout').
    exists st'. cbn [seq se_foldM]. unfold se_bind. rewrite Hep.
    split; [exact Hloop|]. split; [exact Hinv'|]. split; [congruence|].
    split; [by rewrite at_epoch_S, <- Hmo1|].
    rewrite Hout', Hout1, <- app_assoc. f_equal. cbn [fmap list_fmap app].
    rewrite Nat.add_0_r. f_equal.
    rewrite <- fmap_S_seq, <- list_fmap_compose. apply list_fmap_ext.
    intros k j _. cbv [compose]. rewrite at_epoch_S, Hmo1. f_equal. lia.
Qed.

(** *** The epoch number in a report *)

Lemma string_length_app (s1 s2 : string) :
  String.length (s1 +:+ s2) = String.length s1 + String.length s2.
Proof. induction s1 as [|c s1 IH]; [done|]. simpl. by rewrite IH. Qed.

Lemma zeros_length (k : nat) : String.length (zeros k) = k.
Proof. induction k as [|k IH]; [done|]. simpl. by rewrite IH. Qed.

Lemma is_digit_digit_char (d : nat) : d < 10 → is_digit (digit_char d).
Proof.
  intros Hd. unfold is_digit, digit_char.
  rewrite Ascii.nat_ascii_embedding by lia. lia.
Qed.

Lemma string_Forall_app (P : Ascii.ascii → Prop) (s1 s2 : string) :
  string_Forall P s1 → string_Forall P s2 → string_Forall P (s1 +:+ s2).
Proof. induction s1 as [|c s1 IH]; [done|]. simpl. intros [? ?] ?. split; [done|by apply IH]. Qed.

Lemma zeros_digits (k : nat) : string_Forall is_digit (zeros k).
Proof.
  induction k as [|k IH]; [done|]. simpl. split; [|done].
  apply is_digit_digit_char. lia.
Qed.

Lemma dec_digits_length (fuel n k : nat) (acc : string) :
  0 < k → n < 10 ^ k →
  String.length (dec_digits fuel n acc) ≤ k + String.length acc.
Proof.
  revert n k acc. induction fuel as [|fuel IH]; intros n k acc Hk Hn;
    cbn [dec_digits]; [lia|].
  case_decide as Hq; [cbn [String.length]; lia|].
  destruct k as [|[|k]]; [lia| |].
  - exfalso. apply Hq. apply Nat.div_small. by rewrite Nat.pow_1_r in Hn.
  - etrans; [apply (IH _ (S k)); [lia|]|cbn [String.length]; lia].
    apply Nat.Div0.div_lt_upper_bound. by rewrite <- Nat.pow_succ_r'.
Qed.

Lemma dec_digits_digits (fuel n : nat) (acc : string) :
  string_Forall is_digit acc → string_Forall is_digit (dec_digits fuel n acc).
Proof.
  revert n acc. induction fuel as [|fuel IH]; intros n acc Hacc;
    cbn [dec_digits]; [done|].
  assert (string_Forall is_digit (String (digit_char (n `mod` 10)) acc)).
  { split; [|done]. apply is_digit_digit_char. apply Nat.mod_upper_bound. lia. }
  case_decide; [done|]. by apply IH.
Qed.

Lemma format_05d_five_digits (i : nat) :
  i < 10 ^ 5 →
  String.length (format_05d i) = 5 ∧ string_Forall is_digit (format_05d i).
Proof.
  intros Hi. unfold format_05d, format_d.
  pose proof (dec_digits_length (S i) i 5 EmptyString ltac:(lia) Hi) as Hlen.
  cbn [String.length] in Hlen.
  split.
  - rewrite string_length_app, zeros_length. lia.
  - apply string_Forall_app; [apply zeros_digits|]. by apply dec_digits_digits.
Qed.

(** *** The numbers in a report *)

Lemma dec_digits_nonempty (fuel n : nat) (acc : string) :
  acc ≠ EmptyString → dec_digits fuel n acc ≠ EmptyString.
Proof.
  revert n acc. induction fuel as [|fuel IH]; intros n acc Hacc; cbn [dec_digits]; [done|].
  case_decide; [done|]. by apply IH.
Qed.

Lemma format_d_nonempty (n : nat) : format_d n ≠ EmptyString.
Proof.
  unfold format_d. cbn [dec_digits]. case_decide; [done|]. by apply dec_digits_nonempty.
Qed.

Lemma format_d_digits (n : nat) : string_Forall is_digit (format_d n).
Proof. unfold format_d. by apply dec_digits_digits. Qed.

Lemma format_04d_four_digits (n : nat) :
  n < 10 ^ 4 →
  String.length (format_04d n) = 4 ∧ string_Forall is_digit (format_04d n).
Proof.
  intros Hn. unfold format_04d.
  pose proof (dec_digits_length (S n) n 4 EmptyString ltac:(lia) Hn) as Hlen.
  cbn [String.length] in Hlen. fold (format_d n) in Hlen.
  split.
  - rewrite string_length_app, zeros_length. lia.
  - apply string_Forall_app; [apply zeros_digits|apply format_d_digits].
Qed.

(** A finite float is printed with exactly four decimals. *)
Lemma format_4f_finite (x : scalar) : finite x → four_decimal (format_4f x).
Proof.
  intros (negative & n & Hx). unfold format_4f. rewrite Hx.
  destruct (format_04d_four_digits (n `mod` 10 ^ 4)) as [Hlen Hdig].
  { apply Nat.mod_upper_bound. by apply Nat.pow_nonzero. }
  exists negative, (format_d (n `div` 10 ^ 4)), (format_04d (n `mod` 10 ^ 4)).
  split; [done|]. split; [apply format_d_nonempty|]. split; [apply format_d_digits|].
  done.
Qed.

(** A numeral with four decimals starts with a digit, after its sign. *)
Lemma four_decimal_head (s : string) :
  four_decimal s →
  ∃ c rest, (s = String c rest ∨ s = "-" +:+ String c rest) ∧ is_digit c.
Proof.
  intros (negative & int & frac & -> & Hne & Hdig & _).
  destruct int as [|c int]; [done|]. destruct Hdig as [Hc _].
  exists c, (int +:+ "." +:+ frac). split; [|done].
  destruct negative; [by right|by left].
Qed.

Ltac not_a_digit H := exfalso; unfold is_digit in H; vm_compute in H; lia.

(** The other floats are not: they are printed as [nan], [inf] and
    [-inf]. *)
Lemma four_decimal_finite (x : scalar) : four_decimal (format_4f x) → finite x.
Proof.
  unfold format_4f, finite.
  destruct (round_4f x) as [|negative|negative n]; [| |by eauto].
  - intros (c & rest & [H|H] & Hc)%four_decimal_head; [|done].
    injection H as <- _. not_a_digit Hc.
  - intros (c & rest & [H|H] & Hc)%four_decimal_head; destruct negative; simpl in H.
    + injection H as <- _. not_a_digit Hc.
    + injection H as <- _. not_a_digit Hc.
    + injection H as <- _. not_a_digit Hc.
    + done.
Qed.

(** The quotient of two counts is printed with four decimals. *)
Lemma format_4f_accuracy (a b : nat) :
  0 < b → a ≤ b → four_decimal (format_4f (true_div a b)).
Proof.
  intros Hb Hab. apply format_4f_finite.
  destruct (true_div_round a b Hb Hab) as (n & Hn & _). by exists false, n.
Qed.

(** A report whose mean loss is finite has the form
    [Epoch <5-digit> | Loss: <4-decimal> | Accuracy: <4-decimal>]. *)
Lemma epoch_report_form (s : Subset) (batches : list (list nat)) (mo : GCNModel * OptState)
    (i : nat) :
  i < 10 ^ 5 →
  0 < Subset_len s →
  epoch_correct s batches mo ≤ Subset_len s →
  finite (np_mean (epoch_losses s batches mo)) →
  report_form (epoch_report s batches mo i).
Proof.
  intros Hi Hpos Hle Hfin. unfold report_form, epoch_report.
  eexists _, _, _. split; [reflexivity|].
  split; [by apply format_05d_five_digits|].
  split; [by apply format_4f_finite|by apply format_4f_accuracy].
Qed.

(** *** The cells, one after the other *)

Lemma split_loaders_wf (sig : gmap string nat) (in_f bs : nat) (dataset : Dataset)
    (indices sub : list nat) :
  0 < bs →
  sig !! "node_attr" = Some in_f →
  Forall (λ d, wf_graph sig d.1) dataset →
  indices ≡ₚ seq 0 (length dataset) →
  sub ⊆ indices →
  wf_loader in_f (mkDataLoader (mkSubset dataset sub) bs).
Proof.
  intros Hbs Hsig Hwf Hperm Hsub. split; [done|]. exists sig. split; [done|].
  cbn [dl_dataset sub_indices sub_dataset]. apply Forall_forall. intros j Hj.
  apply Hsub in Hj. rewrite Hperm in Hj. apply elem_of_seq in Hj.
  destruct (lookup_lt_is_Some_2 dataset j) as [d Hd]; [lia|].
  exists d. split; [done|]. by eapply (Forall_lookup_1 _ _ _ _ Hwf).
Qed.

Lemma split_labels_in_range (n_classes : nat) (dataset : Dataset) (indices sub : list nat) :
  Forall (λ d : DGLGraph * Z, (0 ≤ d.2 < Z.of_nat n_classes)%Z) dataset →
  indices ≡ₚ seq 0 (length dataset) →
  sub ⊆ indices →
  labels_in_range n_classes (mkSubset dataset sub).
Proof.
  intros Hlab Hperm Hsub. unfold labels_in_range. cbn [sub_indices sub_dataset].
  apply Forall_forall. intros j Hj.
  apply Hsub in Hj. rewrite Hperm in Hj. apply elem_of_seq in Hj.
  destruct (lookup_lt_is_Some_2 dataset j) as [d Hd]; [lia|].
  exists d. split; [done|]. by eapply (Forall_lookup_1 _ _ _ _ Hlab).
Qed.

(** On a well-formed dataset of at least two graphs whose node features
    have width 18 and whose labels are among the six classes, the notebook
    runs to its end and prints one line per epoch and the validation
    line. *)
Lemma notebook_runs (sig : gmap string nat) (dataset : Dataset) (cuda_available : bool)
    (entropy : Z) (init : Params) :
  sig !! "node_attr" = Some 18 →
  Forall (λ d, wf_graph sig d.1) dataset →
  Forall (λ d : DGLGraph * Z, (0 ≤ d.2 < 6)%Z) dataset →
  2 ≤ length dataset →
  ∃ out, notebook dataset cuda_available entropy init = (Ok tt, out)
    ∧ length out = epochs cuda_available + 1.
Proof.
  intros Hsig Hwf Hlab Hlen. unfold notebook.
  rewrite split_dataset_80_20. cbv zeta.
  set (n := length dataset) in *.
  set (k := Nat.div (4 * n) 5).
  set (indices := permutation _ n).
  assert (Hperm : indices ≡ₚ seq 0 n) by apply permutation_Permutation.
  assert (Hilen : length indices = n) by (by rewrite Hperm, length_seq).
  assert (Hk : 5 * k ≤ 4 * n < 5 * k + 5).
  { unfold k. pose proof (Nat.div_mod_eq (4 * n) 5).
    pose proof (Nat.mod_upper_bound (4 * n) 5). lia. }
  set (train_loader := mkDataLoader (mkSubset dataset (take k indices)) 512).
  set (val_loader := mkDataLoader (mkSubset dataset (drop k indices)) 512).
  assert (Hwft : wf_loader 18 train_loader).
  { eapply split_loaders_wf; [lia|done|done|exact Hperm|].
    apply subseteq_take. }
  assert (Hwfv : wf_loader 18 val_loader).
  { eapply split_loaders_wf; [lia|done|done|exact Hperm|].
    apply subseteq_drop. }
  assert (Hlabt : labels_in_range 6 (dl_dataset train_loader)).
  { eapply (split_labels_in_range 6); [exact Hlab|exact Hperm|apply subseteq_take]. }
  set (st := mkState _ _ true []).
  assert (Hinv : train_inv 18 st) by done.
  assert (Hpost : 0 < Subset_len (dl_dataset train_loader)).
  { unfold Subset_len. cbn [train_loader dl_dataset sub_indices].
    rewrite length_take, Hilen. lia. }
  assert (Hposv : 0 < Subset_len (dl_dataset val_loader)).
  { unfold Subset_len. cbn [val_loader dl_dataset sub_indices].
    rewrite length_drop, Hilen. lia. }
  set (st0 := set_model st (set_training (model st) true)).
  destruct (training_loop_ok 18 train_loader (epochs cuda_available) 0 st0 Hwft)
    as (st' & Hloop & [Hm' _] & _ & _ & Hout); [done|done|done|].
  destruct (validation_cell_unfold 18 val_loader st' Hwfv Hm') as (_ & _ & Hval).
  rewrite decide_False in Hval by lia.
  unfold se_bind at 1. unfold training_cell, se_bind at 1. unfold model_train.
  fold st0. rewrite Hloop, Hval. cbn [stdout].
  eexists. split; [done|].
  rewrite Hout. cbn [stdout st0 set_model st app].
  rewrite length_app, length_fmap, length_seq. done.
Qed.

(** * The claims *)

(** C1. On the batch of a single graph without edges, with one feature
    row per node of the input width, the forward pass returns the linear
    classifier applied to the sum, over the nodes, of the rows obtained by
    applying the three ReLU zero-neighbour convolutions to each node's own
    row; the classifier does not fail, and no row of another node enters
    the row of a node. *)
Theorem forward_edgeless_single_graph (m : GCNModel) (g0 bg : DGLGraph) (X : Tensor) :
  edges g0 = [] →
  batch_info g0 = None →
  dgl_batch [g0] = Ok bg →
  length (rows X) = num_nodes bg →
  width X = m_in_feats m →
  let pooled := mkTensor (m_n_hidden m) [vsum (m_n_hidden m) (node_transform m <$> rows X)] in
  GCNModel_forward m X bg = (Linear_forward (classifier m) pooled, bg)
  ∧ is_Ok (Linear_forward (classifier m) pooled).
Proof.
  intros He Hplain Hbg Hr Hw pooled.
  apply dgl_batch_single in Hbg.
  assert (Hebg : edges bg = []) by (by rewrite Hbg, He).
  assert (Hbn : batch_num_nodes bg = [num_nodes bg]).
  { rewrite Hbg. unfold batch_num_nodes at 1. cbn [batch_info default num_nodes].
    unfold batch_num_nodes. rewrite Hplain. simpl. f_equal. lia. }
  clear Hbg.
  split.
  - rewrite GCNModel_forward_unfold. f_equal.
    unfold forward_value, pooled, node_transform, layers.
    set (l1 := mkGraphConv (m_in_feats m) _ _ _ _).
    set (l2 := mkGraphConv _ _ (conv2_weight _) _ _).
    set (l3 := mkGraphConv _ _ (conv3_weight _) _ _).
    rewrite (GraphConv_value_edgeless l1) by done. cbn [mbind result_bind].
    rewrite (GraphConv_value_edgeless l2) by (cbn [rows width]; by rewrite ?length_fmap).
    cbn [mbind result_bind rows].
    rewrite (GraphConv_value_edgeless l3) by (cbn [rows width]; by rewrite ?length_fmap).
    cbn [mbind result_bind rows].
    unfold readout. rewrite Hbn. cbn [width rows segments fmap list_fmap out_feats l3].
    rewrite take_ge by (rewrite !length_fmap; lia).
    rewrite <- !list_fmap_compose. done.
  - unfold Linear_forward, th_matmul, pooled, classifier.
    cbn [width in_features]. rewrite decide_True by done. by eexists.
Qed.

(** C9. Whatever the model, the graph and the features, and whether the
    forward pass returns or raises, the graph is left as it was: its node
    frame is unchanged, and key ['feat'] holds after the call what it held
    before (nothing, if it was absent). *)
Theorem forward_preserves_ndata (m : GCNModel) (g : DGLGraph) (X : Tensor) :
  (GCNModel_forward m X g).2 = g
  ∧ ndata (GCNModel_forward m X g).2 = ndata g
  ∧ ndata (GCNModel_forward m X g).2 !! "feat" = ndata g !! "feat".
Proof. by rewrite GCNModel_forward_unfold. Qed.

(** C3. Whenever the collate function returns a batch, the number of nodes
    of the merged graph is the sum of the numbers of nodes of the input
    graphs; and it does return one for every non-empty list of well-formed
    graphs of one signature. *)
Theorem collate_preserves_node_count (data : list (DGLGraph * Z)) :
  (∀ bg labels,
     collate_molgraphs_for_classification data = Ok (bg, labels) →
     num_nodes bg = sum_list (num_nodes <$> data.*1))
  ∧ (∀ sig, data ≠ [] → Forall (wf_graph sig) data.*1 →
     is_Ok (collate_molgraphs_for_classification data)).
Proof.
  split.
  - intros bg labels Hc. apply collate_inv in Hc as (_ & Hbg & _).
    by apply dgl_batch_inv in Hbg as (_ & _ & Hn & _).
  - intros sig Hne Hwf. destruct (collate_ok sig data Hne Hwf) as (bg & Hc & _).
    by eexists.
Qed.

(** C4. Whenever the collate function returns, the label vector is the
    list of the labels of the input pairs in input order (the label at
    position [i] is the label of the pair at position [i]), and the
    per-graph node counts of the batch follow the same order, so that the
    [i]-th row of a readout belongs to the [i]-th label; and it does
    return for every non-empty list of well-formed graphs. *)
Theorem collate_preserves_label_order (data : list (DGLGraph * Z)) :
  (∀ bg labels,
     collate_molgraphs_for_classification data = Ok (bg, labels) →
     labels = data.*2
     ∧ (∀ i, labels !! i = snd <$> data !! i)
     ∧ batch_num_nodes bg = mjoin (batch_num_nodes <$> data.*1))
  ∧ (∀ sig, data ≠ [] → Forall (wf_graph sig) data.*1 →
     ∃ bg, collate_molgraphs_for_classification data = Ok (bg, data.*2)
       ∧ batch_num_nodes bg = num_nodes <$> data.*1).
Proof.
  split.
  - intros bg labels Hc. apply collate_inv in Hc as (_ & Hbg & ->).
    apply dgl_batch_inv in Hbg as (_ & _ & _ & _ & Hbi).
    split; [done|]. split.
    + intros i. by rewrite list_lookup_fmap.
    + unfold batch_num_nodes at 1. by rewrite Hbi.
  - intros sig Hne Hwf. destruct (collate_ok sig data Hne Hwf) as (bg & Hc & Hbg).
    exists bg. split; [done|].
    destruct (dgl_batch_ok sig data.*1) as (bg' & Hbg' & _ & Hbn & _);
      [by destruct data|done|].
    congruence.
Qed.

(** C2. Splitting with the ratios [0.8, 0.2] yields a training and a
    validation subset of the same dataset whose index lists are disjoint,
    repeat no index and together hold every index of the dataset; the
    training size is [4n/5] rounded down and the validation size is the
    rest, both within one element of the requested share; 600 graphs give
    480 and 120.  This holds for every seed (and with or without
    shuffling). *)
Theorem split_80_20_partition (dataset : Dataset) (shuffle : bool)
    (random_state : option Z) (entropy : Z) :
  let n := length dataset in
  ∃ trainset valset,
    split_dataset dataset [4 # 5; 1 # 5]%Q shuffle random_state entropy
      = Ok [trainset; valset]
    ∧ sub_dataset trainset = dataset ∧ sub_dataset valset = dataset
    ∧ sub_indices trainset ++ sub_indices valset ≡ₚ seq 0 n
    ∧ NoDup (sub_indices trainset ++ sub_indices valset)
    ∧ (∀ i, i ∈ sub_indices trainset → i ∉ sub_indices valset)
    ∧ (∀ i, i ∈ sub_indices trainset ∨ i ∈ sub_indices valset ↔ i < n)
    ∧ Subset_len trainset + Subset_len valset = n
    ∧ 5 * Subset_len trainset ≤ 4 * n < 5 * Subset_len trainset + 5
    ∧ n ≤ 5 * Subset_len valset < n + 5
    ∧ (n = 600 → Subset_len trainset = 480 ∧ Subset_len valset = 120).
Proof.
  intros n.
  pose proof (split_dataset_80_20 dataset shuffle random_state entropy) as Hsplit.
  cbv zeta in Hsplit. fold n in Hsplit.
  set (k := Nat.div (4 * n) 5) in *.
  set (indices := if shuffle then permutation (RandomState random_state entropy) n
                  else seq 0 n) in *.
  assert (Hperm : indices ≡ₚ seq 0 n).
  { unfold indices. destruct shuffle; [apply permutation_Permutation|done]. }
  assert (Hlen : length indices = n) by (by rewrite Hperm, length_seq).
  assert (Hk : 5 * k ≤ 4 * n < 5 * k + 5).
  { unfold k. pose proof (Nat.div_mod_eq (4 * n) 5).
    pose proof (Nat.mod_upper_bound (4 * n) 5). lia. }
  assert (Hnd : NoDup (take k indices ++ drop k indices)).
  { rewrite take_drop, Hperm. apply NoDup_seq. }
  exists (mkSubset dataset (take k indices)), (mkSubset dataset (drop k indices)).
  unfold Subset_len. cbn [sub_dataset sub_indices].
  rewrite length_take, length_drop, Hlen.
  split; [exact Hsplit|]. split; [done|]. split; [done|].
  split; [by rewrite take_drop|]. split; [exact Hnd|].
  split; [|split; [|lia]].
  - apply NoDup_app in Hnd as (_ & Hdisj & _). exact Hdisj.
  - intros i. rewrite <- elem_of_app, take_drop, Hperm, elem_of_seq. lia.
Qed.

(** C8. Running the training cell for 0 epochs returns without failure
    and leaves the parameters, the hyper-parameters, the optimizer state
    and the output as they were. *)
Theorem training_zero_epochs_keeps_parameters (dl : DataLoader) (st : State) :
  ∃ st', training_cell 0 dl st = (Ok tt, st')
    ∧ m_params (model st') = m_params (model st)
    ∧ layers (model st') = layers (model st)
    ∧ classifier (model st') = classifier (model st)
    ∧ optimizer st' = optimizer st
    ∧ stdout st' = stdout st.
Proof. eexists. split; [reflexivity|]. done. Qed.

(** C6. On a well-formed, non-empty validation loader the validation
    cell prints the accuracy [correct/total], where [total] is the size
    of the validation subset and [correct] is the number of its graphs
    whose row of logits has its largest entry at the label of the graph,
    the logits being the forward pass of the model on each batch.
    (a) Same forward computation as training: a step of the training loop
    on a batch records the cross-entropy of these very logits and counts
    the same correct predictions.  (b) Once over the subset: the batches
    hold every position of the subset once, in order, so that every item
    is counted once.  (c) Gradients disabled: the cell runs its loop only
    in states where gradients are disabled (it does the same with any
    loop that agrees with its own in those states), and it leaves the
    parameters, the optimizer and the gradient mode as they were. *)
Theorem validation_cell_accuracy (in_f : nat) (dl : DataLoader) (st : State) :
  wf_loader in_f dl →
  m_in_feats (model st) = in_f →
  0 < Subset_len (dl_dataset dl) →
  let s := dl_dataset dl in
  let batches := DataLoader_batches dl in
  let total := Subset_len s in
  let correct := sum_list (batch_correct (model st) s <$> batches) in
  validation_cell dl st
  = (Ok tt, mkState (set_training (model st) false) (optimizer st) (grad_enabled st)
              (stdout st
               ++ ["Validation Accuracy: " +:+ format_4f (true_div correct total)]))
  ∧ correct ≤ total
  ∧ mjoin batches = seq 0 total
  ∧ mjoin (batch_items s <$> batches) = batch_items s (seq 0 total)
  ∧ length (batch_items s (seq 0 total)) = total
  ∧ (∀ b acc st_t,
       b ∈ batches →
       model st_t = set_training (model st) true →
       grad_enabled st_t = true →
       labels_in_range (m_out_feats (model st)) s →
       ∃ st_t',
         train_batch dl acc b st_t
         = (Ok (mkEpochAcc
                  (loss_list acc
                   ++ [cross_entropy (batch_logits (model st) s b) (batch_items s b).*2])
                  (true_samples acc + batch_correct (model st) s b)
                  (num_samples acc + length b)), st_t'))
  ∧ (∀ loop : SE State (nat * nat),
       (∀ st0, grad_enabled st0 = false → loop st0 = validation_loop dl st0) →
       validation_cell_of loop st = validation_cell dl st).
Proof.
  intros Hwf Hm Hpos s batches total correct.
  destruct (validation_cell_unfold in_f dl st Hwf Hm) as (_ & Hle & Hcell).
  split; [rewrite Hcell; by rewrite decide_False by lia|].
  split; [exact Hle|].
  split; [apply DataLoader_batches_join|].
  split; [unfold batches, total, s; by rewrite <- DataLoader_batches_join, batch_items_join|].
  split; [by eapply batch_items_length|].
  split.
  - intros b acc st_t Hb Hmt Hg Hlab.
    apply list_elem_of_lookup in Hb as [i Hb].
    destruct (Forall_lookup_1 _ _ _ _ (DataLoader_batches_valid dl) Hb) as [Hne Hvalid].
    assert (Hinv : train_inv in_f st_t) by (split; [by rewrite Hmt|done]).
    assert (Hlab' : labels_in_range (m_out_feats (model st_t)) (dl_dataset dl))
      by (by rewrite Hmt).
    destruct (train_batch_ok in_f dl st_t acc b Hwf Hlab' Hinv Hne Hvalid)
      as (st' & Hstep & _).
    exists st'. rewrite Hstep, Hmt. done.
  - intros loop Hloop.
    unfold validation_cell, validation_cell_of. unfold se_bind at 1 3.
    unfold model_eval. unfold se_bind at 1 2. unfold no_grad.
    by rewrite Hloop.
Qed.

(** C10. On a well-formed validation loader, [num_samples] ends as the
    sum of the sizes of the batches, which is the size of the validation
    subset.  The cell prints [true_samples/num_samples] exactly when the
    subset is not empty; on an empty subset the division raises
    [ZeroDivisionError] and nothing is printed. *)
Theorem validation_defined_iff_nonempty (in_f : nat) (dl : DataLoader) (st : State) :
  wf_loader in_f dl →
  m_in_feats (model st) = in_f →
  let m_eval := set_training (model st) false in
  let st_ng := mkState m_eval (optimizer st) false (stdout st) in
  let total := Subset_len (dl_dataset dl) in
  ∃ correct,
    se_foldM (val_batch dl) (0, 0) (DataLoader_batches dl) st_ng
      = (Ok (correct, total), st_ng)
    ∧ sum_list (length <$> DataLoader_batches dl) = total
    ∧ (total = 0 →
       (validation_cell dl st).1 = Err ZeroDivisionError
       ∧ stdout (validation_cell dl st).2 = stdout st)
    ∧ (0 < total →
       (validation_cell dl st).1 = Ok tt
       ∧ stdout (validation_cell dl st).2
         = stdout st ++ [validation_line correct total])
    ∧ (is_Ok (validation_cell dl st).1 ↔ 0 < total).
Proof.
  intros Hwf Hm m_eval st_ng total.
  destruct (validation_cell_unfold in_f dl st Hwf Hm) as (Hfold & Hle & Hcell).
  eexists. split; [exact Hfold|]. split; [apply DataLoader_batches_total|].
  rewrite Hcell. clear Hcell. fold total. destruct (decide (total = 0)) as [Ht|Ht].
  - split; [done|]. split; [lia|]. split; [by intros [? ?]|lia].
  - split; [lia|]. split; [done|]. split; [lia|]. intros _. by eexists.
Qed.

(** C7. On a well-formed, non-empty training loader whose labels are
    class indices of the model, with gradients enabled, the training cell
    runs its [n] epochs and prints one line per epoch, in order.  The
    line of epoch [i] is ["Epoch "], the number [i], [" | Loss: "], the
    mean of the cross-entropy losses of the batches of that epoch (each
    at the parameters that the optimizer steps before it have reached),
    [" | Accuracy: "] and the correct predictions of that epoch over the
    size of the training subset.  For up to [10^5] epochs the number has
    five digits; the accuracy is printed with four decimals; the loss is
    printed with four decimals exactly when the mean loss is a finite
    number (it is printed as [nan] or [inf] otherwise), and the line then
    has the form [Epoch <5-digit> | Loss: <4-decimal> | Accuracy:
    <4-decimal>]. *)
Theorem training_cell_reports_each_epoch (in_f n : nat) (dl : DataLoader) (st : State) :
  wf_loader in_f dl →
  labels_in_range (m_out_feats (model st)) (dl_dataset dl) →
  train_inv in_f st →
  0 < Subset_len (dl_dataset dl) →
  n ≤ 10 ^ 5 →
  let s := dl_dataset dl in
  let batches := DataLoader_batches dl in
  let mo := at_epoch s batches (set_training (model st) true, optimizer st) in
  let loss i := np_mean (epoch_losses s batches (mo i)) in
  let accuracy i := true_div (epoch_correct s batches (mo i)) (Subset_len s) in
  let line i :=
    "Epoch " +:+ format_05d i +:+ " | Loss: " +:+ format_4f (loss i)
    +:+ " | Accuracy: " +:+ format_4f (accuracy i) in
  ∃ st',
    training_cell n dl st = (Ok tt, st')
    ∧ (model st', optimizer st') = mo n
    ∧ stdout st' = stdout st ++ (line <$> seq 0 n)
    ∧ ∀ i, i < n →
        five_digits (format_05d i)
        ∧ epoch_correct s batches (mo i) ≤ Subset_len s
        ∧ four_decimal (format_4f (accuracy i))
        ∧ (four_decimal (format_4f (loss i)) ↔ finite (loss i))
        ∧ (finite (loss i) → report_form (line i)).
Proof.
  intros Hwf Hlab Hinv Hpos Hn s batches mo loss accuracy line.
  set (st0 := set_model st (set_training (model st) true)).
  assert (Hinv0 : train_inv in_f st0) by (destruct Hinv; by split).
  destruct (training_loop_ok in_f dl n 0 st0 Hwf Hlab Hinv0 Hpos)
    as (st' & Hloop & _ & _ & Hmo & Hout).
  exists st'. split.
  { unfold training_cell, se_bind. unfold model_train. fold st0. exact Hloop. }
  split; [exact Hmo|]. split; [exact Hout|].
  intros i Hi.
  assert (Hle : epoch_correct s batches (mo i) ≤ Subset_len s).
  { etrans; [apply epoch_correct_le|]. unfold batches. by rewrite DataLoader_batches_total. }
  split; [apply format_05d_five_digits; lia|]. split; [exact Hle|].
  split; [by apply format_4f_accuracy|].
  split; [split; [apply four_decimal_finite|apply format_4f_finite]|].
  intros Hfin. apply (epoch_report_form s batches (mo i) i); [lia|done|done|done].
Qed.

End Proofs.

(** * The statements at concrete inputs *)

Section Witnesses.
#[local] Existing Instance Sample.ZOps.
#[local] Existing Instance Sample.ZGrad.
#[local] Existing Instance Sample.LCG.

Lemma sample_wf_isolated : wf_graph Sample.sig0 Sample.g_isolated.
Proof.
  split; [by vm_compute|]. split; [|done].
  unfold Sample.g_isolated. cbn [ndata num_nodes].
  by apply map_Forall_singleton.
Qed.

Lemma sample_wf_edge : wf_graph Sample.sig0 Sample.g_edge.
Proof.
  split; [by vm_compute|]. split; [|done].
  unfold Sample.g_edge. cbn [ndata num_nodes].
  by apply map_Forall_singleton.
Qed.

Lemma sample_wf_loader (idx : list nat) :
  Forall (λ j, j < 5) idx → wf_loader 18 (Sample.loader idx).
Proof.
  intros Hidx. split; [simpl; lia|].
  exists Sample.sig0. split; [done|].
  cbn [Sample.loader dl_dataset sub_indices sub_dataset].
  eapply Forall_impl; [exact Hidx|]. intros j Hj. cbv beta in Hj.
  destruct j as [|[|[|[|[|j]]]]]; [| | | | |lia];
    eexists; (split; [reflexivity|]);
    first [exact sample_wf_edge | exact sample_wf_isolated].
Qed.

Ltac solve_indices :=
  repeat first [apply Forall_nil_2 | apply Forall_cons; split; [cbv beta; lia|]].

Lemma sample_wf_pair : Forall (wf_graph Sample.sig0) Sample.pair_data.*1.
Proof.
  apply Forall_cons. split; [exact sample_wf_edge|].
  apply Forall_cons. split; [exact sample_wf_isolated|]. apply Forall_nil_2.
Qed.

Lemma forward_edgeless_single_graph_witness :
  edges Sample.g_isolated = []
  ∧ dgl_batch [Sample.g_isolated] = Ok Sample.bg_isolated
  ∧ GCNModel_forward Sample.model0 Sample.X_isolated Sample.bg_isolated
    = (Linear_forward (classifier Sample.model0)
         (mkTensor 64 [vsum 64 (node_transform Sample.model0 <$> rows Sample.X_isolated)]),
       Sample.bg_isolated).
Proof.
  split; [reflexivity|]. split; [reflexivity|].
  apply (forward_edgeless_single_graph Sample.model0 Sample.g_isolated
           Sample.bg_isolated Sample.X_isolated); reflexivity.
Defined.

Lemma split_80_20_partition_witness :
  length Sample.six_hundred = 600
  ∧ ∃ trainset valset,
      split_dataset Sample.six_hundred [4 # 5; 1 # 5]%Q true (Some 42%Z) 0%Z
        = Ok [trainset; valset]
      ∧ Subset_len trainset = 480 ∧ Subset_len valset = 120.
Proof.
  split; [reflexivity|].
  destruct (split_80_20_partition Sample.six_hundred true (Some 42%Z) 0%Z)
    as (trainset & valset & Hsplit & _ & _ & _ & _ & _ & _ & _ & _ & _ & H600).
  exists trainset, valset. split; [exact Hsplit|]. apply H600. reflexivity.
Defined.

Lemma collate_preserves_node_count_witness :
  Sample.pair_data ≠ []
  ∧ is_Ok (collate_molgraphs_for_classification Sample.pair_data)
  ∧ ∀ bg labels,
      collate_molgraphs_for_classification Sample.pair_data = Ok (bg, labels) →
      num_nodes bg = 5.
Proof.
  destruct (collate_preserves_node_count Sample.pair_data) as [Hcount Hok].
  split; [discriminate|]. split.
  - apply (Hok Sample.sig0); [discriminate|exact sample_wf_pair].
  - intros bg labels Hc. apply (Hcount bg labels Hc).
Defined.

Lemma collate_preserves_label_order_witness :
  Sample.pair_data ≠ []
  ∧ ∃ bg, collate_molgraphs_for_classification Sample.pair_data = Ok (bg, [0%Z; 1%Z])
      ∧ batch_num_nodes bg = [2; 3].
Proof.
  destruct (collate_preserves_label_order Sample.pair_data) as [_ Hok].
  split; [discriminate|].
  apply (Hok Sample.sig0); [discriminate|exact sample_wf_pair].
Defined.

Lemma sample_labels (idx : list nat) :
  Forall (λ j, j < 5) idx → labels_in_range 6 (dl_dataset (Sample.loader idx)).
Proof.
  intros Hidx. unfold labels_in_range.
  cbn [Sample.loader dl_dataset sub_indices sub_dataset].
  eapply Forall_impl; [exact Hidx|]. intros j Hj. cbv beta in Hj.
  destruct j as [|[|[|[|[|j]]]]]; [| | | | |lia];
    eexists; (split; [reflexivity|]); simpl; lia.
Qed.

Lemma validation_cell_accuracy_witness :
  wf_loader 18 (Sample.loader [3; 4])
  ∧ m_in_feats (model Sample.state0) = 18
  ∧ 0 < Subset_len (dl_dataset (Sample.loader [3; 4]))
  ∧ validation_cell (Sample.loader [3; 4]) Sample.state0
    = (Ok tt,
       mkState (set_training Sample.model0 false) (optimizer Sample.state0) true
         ["Validation Accuracy: "
          +:+ format_4f (true_div
                (sum_list (batch_correct Sample.model0 (dl_dataset (Sample.loader [3; 4]))
                             <$> DataLoader_batches (Sample.loader [3; 4])))
                2)]).
Proof.
  assert (Hwf : wf_loader 18 (Sample.loader [3; 4]))
    by (apply sample_wf_loader; solve_indices).
  assert (Hpos : 0 < Subset_len (dl_dataset (Sample.loader [3; 4]))) by (vm_compute; lia).
  split; [exact Hwf|]. split; [reflexivity|]. split; [exact Hpos|].
  exact (proj1 (validation_cell_accuracy 18 (Sample.loader [3; 4]) Sample.state0
                  Hwf eq_refl Hpos)).
Defined.

Lemma validation_defined_iff_nonempty_witness :
  wf_loader 18 (Sample.loader [])
  ∧ m_in_feats (model Sample.state0) = 18
  ∧ (validation_cell (Sample.loader []) Sample.state0).1 = Err ZeroDivisionError
  ∧ stdout (validation_cell (Sample.loader []) Sample.state0).2 = [].
Proof.
  assert (Hwf : wf_loader 18 (Sample.loader []))
    by (apply sample_wf_loader; solve_indices).
  split; [exact Hwf|]. split; [reflexivity|].
  destruct (validation_defined_iff_nonempty 18 (Sample.loader []) Sample.state0
              Hwf eq_refl) as (correct & _ & _ & Hzero & _).
  apply Hzero. reflexivity.
Defined.

Lemma training_cell_reports_each_epoch_witness :
  wf_loader 18 (Sample.loader [0; 1; 2])
  ∧ labels_in_range (m_out_feats (model Sample.state0))
      (dl_dataset (Sample.loader [0; 1; 2]))
  ∧ train_inv 18 Sample.state0
  ∧ 0 < Subset_len (dl_dataset (Sample.loader [0; 1; 2]))
  ∧ 2 ≤ 10 ^ 5
  ∧ ∃ st' lines,
      training_cell 2 (Sample.loader [0; 1; 2]) Sample.state0 = (Ok tt, st')
      ∧ stdout st' = [] ++ lines
      ∧ length lines = 2.
Proof.
  assert (Hwf : wf_loader 18 (Sample.loader [0; 1; 2]))
    by (apply sample_wf_loader; solve_indices).
  assert (Hlab : labels_in_range (m_out_feats (model Sample.state0))
                   (dl_dataset (Sample.loader [0; 1; 2])))
    by (apply sample_labels; solve_indices).
  assert (Hinv : train_inv 18 Sample.state0) by (split; reflexivity).
  assert (Hpos : 0 < Subset_len (dl_dataset (Sample.loader [0; 1; 2]))) by (vm_compute; lia).
  assert (Hn : 2 ≤ 10 ^ 5) by (apply Nat.leb_le; vm_compute; reflexivity).
  split; [exact Hwf|]. split; [exact Hlab|]. split; [exact Hinv|].
  split; [exact Hpos|]. split; [exact Hn|].
  destruct (training_cell_reports_each_epoch 18 2 (Sample.loader [0; 1; 2])
              Sample.state0 Hwf Hlab Hinv Hpos Hn)
    as (st' & Hcell & _ & Hout & _).
  eexists st', _. split; [exact Hcell|]. split; [exact Hout|].
  by rewrite length_fmap, length_seq.
Defined.

(** A mean loss that is not a number is printed as [nan]: the line of
    the epoch does not have four decimals after [Loss:]. *)
Lemma training_report_nan_loss :
  (training_cell 1 SampleNaN.loader SampleNaN.state0).1 = Ok tt
  ∧ stdout (training_cell 1 SampleNaN.loader SampleNaN.state0).2
    = ["Epoch 00000 | Loss: nan | Accuracy: 1.0000"]
  ∧ ¬ report_form "Epoch 00000 | Loss: nan | Accuracy: 1.0000".
Proof.
  split; [by vm_compute|]. split; [by vm_compute|].
  intros (d & l & a & Heq & [Hlen Hdig] & Hl & _).
  destruct d as [|c1 [|c2 [|c3 [|c4 [|c5 [|c6 d]]]]]]; try discriminate Hlen.
  cbn in Heq. injection Heq as _ _ _ _ _ Heq.
  apply four_decimal_head in Hl as (c & rest & [Hc|Hc] & Hcd); subst l.
  - cbn in Heq. injection Heq as <- _. exfalso. unfold is_digit in Hcd.
    vm_compute in Hcd. lia.
  - cbn in Heq. discriminate Heq.
Qed.

(** ** The definitions, run *)

Example split_sample :
  Sample.split_indices (Some 42%Z) 0%Z = [[0; 1; 4; 3]; [2]].
Proof. vm_compute. reflexivity. Qed.

(** Without a seed the permutation follows the entropy of the
    environment: the determinism of the split needs the seed. *)
Example split_unseeded_depends_on_entropy :
  Sample.split_indices None 1%Z = [[4; 3; 0; 2]; [1]]
  ∧ Sample.split_indices None 2%Z = [[0; 4; 1; 3]; [2]].
Proof. vm_compute. split; reflexivity. Qed.

Example batch_sampler_sample : batch_sampler 2 [] (seq 0 5) = [[0; 1]; [2; 3]; [4]].
Proof. reflexivity. Qed.

Example format_05d_sample :
  format_05d 7 = "00007" ∧ format_05d 499 = "00499" ∧ format_d 0 = "0".
Proof. by vm_compute. Qed.

Example notebook_sample :
  notebook Sample.five false 0%Z Sample.params0
  = (Ok tt,
     ((λ i, "Epoch " +:+ format_05d i +:+ " | Loss: 4.0000 | Accuracy: 0.0000") <$> seq 0 50)
     ++ ["Validation Accuracy: 0.0000"]).
Proof. vm_compute. reflexivity. Qed.

(** On a graph without edges the logits follow the features of the
    nodes. *)
Example forward_edgeless_sample :
  rows_of (call_model Sample.model0 Sample.bg_isolated Sample.X_isolated) = [15%Z]
  ∧ rows_of (call_model Sample.model0 Sample.bg_isolated (mkTensor 18 [0%Z; 0%Z; 0%Z]))
    = [3%Z].
Proof. vm_compute. split; reflexivity. Qed.

End Witnesses.

(** * Further properties of the cells *)

Section MoreProofs.
Context `{FO : FloatOps} `{AG : !Autograd} `{RG : RandomGen} `{NO : !NotebookOps}.

(** ** The loops on every path *)

Lemma se_foldM_cons_err {S A B} (f : A → B → SE S A) a b l s e s' :
  f a b s = (Err e, s') → se_foldM f a (b :: l) s = (Err e, s').
Proof. intros Hf. cbn [se_foldM]. unfold se_bind. by rewrite Hf. Qed.

Lemma val_batch_state (dl : DataLoader) (acc : nat * nat) (batch : list nat) (st : State) :
  (val_batch dl acc batch st).2 = st.
Proof.
  unfold val_batch. rewrite se_bind_lift.
  destruct (DataLoader_fetch dl batch) as [[bg labels]|e]; [|done].
  destruct (pop_ndata "node_attr" bg) as [popped bg'].
  rewrite se_bind_lift. destruct popped as [feats|e]; [|done].
  unfold se_bind at 1. unfold se_get at 1. cbv iota beta.
  rewrite se_bind_lift. destruct (call_model _ _ _); [|done]. by destruct acc.
Qed.

Lemma val_fold_state (dl : DataLoader) (batches : list (list nat)) (acc : nat * nat)
    (st : State) :
  (se_foldM (val_batch dl) acc batches st).2 = st.
Proof.
  revert acc. induction batches as [|b batches IH]; intros acc; [done|].
  cbn [se_foldM]. unfold se_bind.
  pose proof (val_batch_state dl acc b st) as Hb.
  destruct (val_batch dl acc b st) as [[acc'|e] st1]; simpl in Hb; subst st1; [|done].
  apply IH.
Qed.

Lemma validation_cell_outcome (dl : DataLoader) (st : State) :
  ∃ r lines,
    validation_cell dl st
    = (r, mkState (set_training (model st) false) (optimizer st) (grad_enabled st)
            (stdout st ++ lines))
    ∧ length lines ≤ 1
    ∧ (r = Ok tt ↔ length lines = 1).
Proof.
  unfold validation_cell, validation_cell_of, validation_loop. unfold se_bind at 1. unfold model_eval at 1.
  unfold se_bind at 1. unfold no_grad.
  set (st1 := set_grad_enabled (set_model st (set_training (model st) false)) false).
  pose proof (val_fold_state dl (DataLoader_batches dl) (0, 0) st1) as Hst.
  destruct (se_foldM _ _ _ st1) as [[[t n]|e] st2]; simpl in Hst; subst st2.
  - case_decide.
    + exists (Err ZeroDivisionError), (@nil string). rewrite app_nil_r.
      split; [done|]. split; [simpl; lia|]. split; [done|simpl; lia].
    + eexists (Ok tt), (cons _ nil). done.
  - exists (Err e), (@nil string). rewrite app_nil_r.
    split; [done|]. split; [simpl; lia|]. split; [done|simpl; lia].
Qed.

(** X6. The validation cell never trains, whatever the loader and
    whether it returns or raises: parameters, architecture and optimizer
    state are unchanged, the gradient mode is restored, the model is left
    in evaluation mode, and at most one line is printed, exactly one when
    the cell returns. *)
Theorem validation_never_trains (dl : DataLoader) (st : State) :
  m_params (model (validation_cell dl st).2) = m_params (model st)
  ∧ same_architecture (model (validation_cell dl st).2) (model st)
  ∧ training (model (validation_cell dl st).2) = false
  ∧ optimizer (validation_cell dl st).2 = optimizer st
  ∧ grad_enabled (validation_cell dl st).2 = grad_enabled st
  ∧ ∃ lines, stdout (validation_cell dl st).2 = stdout st ++ lines
      ∧ length lines ≤ 1
      ∧ ((validation_cell dl st).1 = Ok tt ↔ length lines = 1).
Proof.
  destruct (validation_cell_outcome dl st) as (r & lines & -> & Hlen & Hok).
  cbn. do 5 (split; [done|]). by exists lines.
Qed.

Lemma train_frame_refl (st : State) : train_frame st st.
Proof. done. Qed.

Lemma train_frame_trans (st1 st2 st3 : State) :
  train_frame st1 st2 → train_frame st2 st3 → train_frame st1 st3.
Proof.
  intros ((? & ? & ?) & ? & ?) ((? & ? & ?) & ? & ?).
  repeat split; congruence.
Qed.

Lemma train_batch_frame (dl : DataLoader) (acc : EpochAcc) (batch : list nat) (st : State) :
  train_frame st (train_batch dl acc batch st).2
  ∧ stdout (train_batch dl acc batch st).2 = stdout st.
Proof.
  assert (∃ r st', train_batch dl acc batch st = (r, st')
            ∧ train_frame st st' ∧ stdout st' = stdout st) as (r & st' & -> & H).
  { unfold train_batch. rewrite se_bind_lift.
    destruct (DataLoader_fetch dl batch) as [[bg labels]|e]; [|by eexists _, _].
    destruct (pop_ndata "node_attr" bg) as [popped bg'].
    rewrite se_bind_lift. destruct popped as [feats|e]; [|by eexists _, _].
    unfold se_bind at 1. unfold se_get at 1. cbv iota beta.
    rewrite se_bind_lift. destruct (call_model _ _ _) as [logits|e]; [|by eexists _, _].
    rewrite se_bind_lift. destruct (loss_criterion _ _) as [loss|e]; [|by eexists _, _].
    unfold se_bind, optimize. destruct (grad_enabled st) eqn:Hg; [|by eexists _, _].
    destruct (Adam_step _ _ _) as [opt' p']. eexists _, _. split; [done|].
    repeat split; cbn; congruence. }
  exact H.
Qed.

Lemma train_fold_frame (dl : DataLoader) (batches : list (list nat)) (acc : EpochAcc)
    (st : State) :
  train_frame st (se_foldM (train_batch dl) acc batches st).2
  ∧ stdout (se_foldM (train_batch dl) acc batches st).2 = stdout st.
Proof.
  revert acc st. induction batches as [|b batches IH]; intros acc st; [done|].
  cbn [se_foldM]. unfold se_bind.
  destruct (train_batch_frame dl acc b st) as [Hf Hout].
  destruct (train_batch dl acc b st) as [[acc'|e] st1]; [|done].
  destruct (IH acc' st1) as [Hf' Hout']. simpl in Hf, Hout.
  split; [by eapply train_frame_trans|congruence].
Qed.

Lemma train_epoch_outcome (dl : DataLoader) (i : nat) (st : State) :
  ∃ lines,
    train_frame st (train_epoch dl i st).2
    ∧ stdout (train_epoch dl i st).2 = stdout st ++ lines
    ∧ length lines ≤ 1
    ∧ ((train_epoch dl i st).1 = Ok tt ↔ length lines = 1).
Proof.
  unfold train_epoch, se_bind.
  destruct (train_fold_frame dl (DataLoader_batches dl) (mkEpochAcc [] 0 0) st)
    as [Hf Hout].
  destruct (se_foldM _ _ _ st) as [[acc|e] st1]; simpl in Hf, Hout.
  - case_decide.
    + exists (@nil string). rewrite app_nil_r. cbn.
      split; [done|]. split; [done|]. split; [lia|]. split; [done|lia].
    + eexists (cons _ nil). cbn. rewrite Hout. done.
  - exists (@nil string). rewrite app_nil_r. cbn.
    split; [done|]. split; [done|]. split; [lia|]. split; [done|lia].
Qed.

Lemma training_loop_outcome (dl : DataLoader) (n i : nat) (st : State) :
  ∃ lines,
    train_frame st (se_foldM (λ _ i, train_epoch dl i) tt (seq i n) st).2
    ∧ stdout (se_foldM (λ _ i, train_epoch dl i) tt (seq i n) st).2 = stdout st ++ lines
    ∧ length lines ≤ n
    ∧ ((se_foldM (λ _ i, train_epoch dl i) tt (seq i n) st).1 = Ok tt ↔ length lines = n).
Proof.
  revert i st. induction n as [|n IH]; intros i st.
  - exists (@nil string). rewrite app_nil_r. cbn. done.
  - cbn [seq se_foldM]. unfold se_bind.
    destruct (train_epoch_outcome dl i st) as (l1 & Hf1 & Hout1 & Hlen1 & Hok1).
    destruct (train_epoch dl i st) as [[[]|e] st1]; simpl in Hf1, Hout1, Hok1.
    + destruct (IH (S i) st1) as (l2 & Hf2 & Hout2 & Hlen2 & Hok2).
      exists (l1 ++ l2). split; [by eapply train_frame_trans|].
      split; [by rewrite Hout2, Hout1, app_assoc|].
      assert (length l1 = 1) by (by apply Hok1).
      rewrite length_app. split; [lia|]. rewrite Hok2. lia.
    + exists l1. cbn. split; [done|]. split; [done|].
      assert (length l1 ≠ 1) by (intros Hl; by apply Hok1 in Hl).
      split; [lia|]. split; [done|lia].
Qed.

(** X7. The training cell, whatever the loader and whether it returns or
    raises, keeps the architecture of the model and the gradient mode,
    leaves the model in training mode, and only appends to the output: at
    most one line per epoch, and exactly [n] lines when it returns. *)
Theorem training_keeps_architecture (n : nat) (dl : DataLoader) (st : State) :
  same_architecture (model (training_cell n dl st).2) (model st)
  ∧ training (model (training_cell n dl st).2) = true
  ∧ grad_enabled (training_cell n dl st).2 = grad_enabled st
  ∧ ∃ lines, stdout (training_cell n dl st).2 = stdout st ++ lines
      ∧ length lines ≤ n
      ∧ ((training_cell n dl st).1 = Ok tt ↔ length lines = n).
Proof.
  unfold training_cell, se_bind. unfold model_train.
  set (st0 := set_model st (set_training (model st) true)).
  destruct (training_loop_outcome dl n 0 st0) as (lines & Hf & Hout & Hlen & Hok).
  destruct (se_foldM _ _ _ st0) as [r st']. simpl in *.
  destruct Hf as (Harch & Htr & Hg).
  split; [exact Harch|]. split; [exact Htr|]. split; [exact Hg|].
  exists lines. split; [exact Hout|]. split; [exact Hlen|].
  destruct r as [[]|e]; exact Hok.
Qed.

Lemma training_cell_empty_set (n : nat) (dl : DataLoader) (st : State) :
  Subset_len (dl_dataset dl) = 0 →
  0 < n →
  training_cell n dl st
  = (Err ZeroDivisionError, set_model st (set_training (model st) true)).
Proof.
  intros Hlen Hn. destruct n as [|n]; [lia|].
  unfold training_cell, se_bind. unfold model_train.
  cbn [seq se_foldM]. unfold se_bind, train_epoch, se_bind.
  unfold DataLoader_batches. rewrite Hlen. done.
Qed.

(** X2. Training on an empty training set for at least one epoch raises
    [ZeroDivisionError] in the report of the first epoch, where
    [true_samples / num_samples] divides by zero: the model is in training
    mode, its parameters are unchanged and nothing is printed. *)
Theorem training_on_empty_set_raises (n : nat) (dl : DataLoader) (st : State) :
  Subset_len (dl_dataset dl) = 0 →
  0 < n →
  training_cell n dl st
  = (Err ZeroDivisionError, set_model st (set_training (model st) true))
  ∧ m_params (model (training_cell n dl st).2) = m_params (model st)
  ∧ stdout (training_cell n dl st).2 = stdout st.
Proof.
  intros Hlen Hn. by rewrite (training_cell_empty_set n dl st Hlen Hn).
Qed.

(** ** Failures of the first batch *)

Lemma DataLoader_first_batch (dl : DataLoader) :
  0 < Subset_len (dl_dataset dl) →
  ∃ b rest, DataLoader_batches dl = b :: rest
    ∧ b ≠ [] ∧ Forall (λ i, i < Subset_len (dl_dataset dl)) b.
Proof.
  intros Hpos. pose proof (DataLoader_batches_valid dl) as Hv.
  pose proof (DataLoader_batches_total dl) as Ht.
  destruct (DataLoader_batches dl) as [|b rest]; [simpl in Ht; lia|].
  apply Forall_cons in Hv as [[? ?] _]. by exists b, rest.
Qed.

(** Fetching a batch of graphs of one signature: the frame of the batch
    has that signature. *)
Lemma fetch_frames (sig : gmap string nat) (dl : DataLoader) (batch : list nat) :
  Forall (λ j, ∃ d, sub_dataset (dl_dataset dl) !! j = Some d ∧ wf_graph sig d.1)
         (sub_indices (dl_dataset dl)) →
  batch ≠ [] →
  Forall (λ i, i < Subset_len (dl_dataset dl)) batch →
  ∃ bg data,
    mapM (Subset_getitem (dl_dataset dl)) batch = Ok data
    ∧ DataLoader_fetch dl batch = Ok (bg, data.*2)
    ∧ length data = length batch
    ∧ Forall (wf_graph sig) data.*1
    ∧ dgl_batch data.*1 = Ok bg
    ∧ ∀ k, ndata bg !! k = (λ w, mkTensor w (mjoin (rows_at k <$> data.*1))) <$> sig !! k.
Proof.
  intros Hwf Hne Hb.
  destruct (getitems_ok sig _ batch Hwf Hb) as (data & Hdata & Hl & Hdwf).
  assert (data ≠ []) by (intros ->; by destruct batch).
  destruct (collate_ok sig data) as (bg & Hc & Hbg); [done|done|].
  exists bg, data. split; [done|].
  split; [unfold DataLoader_fetch; by rewrite Hdata|].
  split; [done|]. split; [done|]. split; [done|].
  destruct (batch_frames_ok sig data.*1) as (fr & Hfr & _ & Hlk); [by destruct data|done|].
  apply dgl_batch_inv in Hbg as Hinv. destruct Hinv as (_ & Hfr' & _).
  rewrite Hfr in Hfr'. injection Hfr' as <-. exact Hlk.
Qed.

Lemma cells_fail_with_first_batch (n : nat) (dl : DataLoader) (st : State) b rest e :
  DataLoader_batches dl = b :: rest →
  batch_fails dl b (m_in_feats (model st)) e →
  0 < n →
  validation_cell dl st
  = (Err e, mkState (set_training (model st) false) (optimizer st) (grad_enabled st)
              (stdout st))
  ∧ training_cell n dl st = (Err e, set_model st (set_training (model st) true)).
Proof.
  intros Hb Hfail Hn. split.
  - unfold validation_cell, validation_cell_of, validation_loop. unfold se_bind at 1. unfold model_eval at 1.
    unfold se_bind at 1. unfold no_grad. rewrite Hb.
    erewrite se_foldM_cons_err; [|by apply Hfail]. done.
  - destruct n as [|n]; [lia|].
    unfold training_cell, se_bind. unfold model_train.
    cbn [seq se_foldM]. unfold se_bind, train_epoch, se_bind. rewrite Hb.
    erewrite se_foldM_cons_err; [|by apply Hfail]. done.
Qed.

(** X3. When the graphs of a non-empty subset carry no feature
    [node_attr], the validation cell and the training cell (for at least
    one epoch) both raise [KeyError 'node_attr'] at the first batch, in
    [bg.ndata.pop('node_attr')], with nothing printed and the parameters
    untouched. *)
Theorem missing_node_attr_raises (sig : gmap string nat) (n : nat) (dl : DataLoader)
    (st : State) :
  sig !! "node_attr" = None →
  Forall (λ j, ∃ d, sub_dataset (dl_dataset dl) !! j = Some d ∧ wf_graph sig d.1)
         (sub_indices (dl_dataset dl)) →
  0 < Subset_len (dl_dataset dl) →
  0 < n →
  validation_cell dl st
  = (Err (KeyError "node_attr"),
     mkState (set_training (model st) false) (optimizer st) (grad_enabled st) (stdout st))
  ∧ training_cell n dl st
    = (Err (KeyError "node_attr"), set_model st (set_training (model st) true)).
Proof.
  intros Hsig Hwf Hpos Hn.
  destruct (DataLoader_first_batch dl Hpos) as (b & rest & Hb & Hne & Hvalid).
  apply (cells_fail_with_first_batch n dl st b rest); [done| |done].
  destruct (fetch_frames sig dl b Hwf Hne Hvalid) as (bg & data & _ & Hf & _ & _ & _ & Hlk).
  specialize (Hlk "node_attr"). rewrite Hsig in Hlk. simpl in Hlk.
  intros st' _. split; intros acc.
  - unfold val_batch. rewrite se_bind_lift, Hf. unfold pop_ndata. by rewrite Hlk.
  - unfold train_batch. rewrite se_bind_lift, Hf. unfold pop_ndata. by rewrite Hlk.
Qed.

(** ** Shapes that the forward pass rejects *)

Lemma GraphConv_value_wrong_width (L : GraphConv) (X : Tensor) (g : DGLGraph) :
  width X ≠ in_feats L →
  ∃ e, GraphConv_value L X g = Err e
    ∧ (length (rows X) = num_nodes g → e = RuntimeError).
Proof.
  intros Hw. unfold GraphConv_value.
  destruct (th_mul_norm X (conv_norm g)) as [f1|e] eqn:H1.
  - apply th_mul_norm_inv in H1 as Hw1. cbn [mbind result_bind].
    assert (Hmm : ∀ t, width t = width f1 →
              th_matmul (in_feats L) (out_feats L) (gc_weight L) t = Err RuntimeError).
    { intros t Ht. unfold th_matmul. rewrite decide_False by congruence. done. }
    case_decide.
    + rewrite Hmm by done. by eexists.
    + case_decide as Hr.
      * rewrite Hmm by apply aggregate_width. by eexists.
      * eexists. split; [done|]. intros HX. exfalso. apply Hr.
        rewrite th_mul_norm_same in H1 by (by rewrite conv_norm_length).
        injection H1 as <-. cbn [rows]. rewrite length_zip_with, conv_norm_length. lia.
  - eexists. split; [done|]. intros HX.
    rewrite th_mul_norm_same in H1 by (by rewrite conv_norm_length). done.
Qed.

Lemma th_mul_norm_mismatch (X : Tensor) (norm : list scalar) :
  length (rows X) ≠ length norm →
  length (rows X) ≠ 1 →
  length norm ≠ 1 →
  th_mul_norm X norm = Err RuntimeError.
Proof.
  intros Hl H1 H2. unfold th_mul_norm. rewrite decide_False by done.
  destruct norm as [|c [|c' norm]]; destruct (rows X) as [|r [|r' l]]; simpl in *; done.
Qed.

Lemma forward_value_wrong_width (m : GCNModel) (g : DGLGraph) (X : Tensor) :
  width X ≠ m_in_feats m →
  ∃ e, forward_value m X g = Err e
    ∧ (length (rows X) = num_nodes g → e = RuntimeError).
Proof.
  intros Hw. unfold forward_value, layers.
  set (l1 := mkGraphConv (m_in_feats m) _ _ _ _).
  destruct (GraphConv_value_wrong_width l1 X g Hw) as (e & -> & He). by exists e.
Qed.

(** X4. [forward] raises, and leaves the graph as it was, when the
    features do not fit the model: on a width other than [in_feats] (a
    [RuntimeError] from the matrix product when there is one row per
    node), and on a number of rows different from the number of nodes
    when neither is 1 (a [RuntimeError] from the multiplication by the
    norm). *)
Theorem forward_rejects_wrong_shape (m : GCNModel) (g : DGLGraph) (X : Tensor) :
  (width X ≠ m_in_feats m →
   ∃ e, GCNModel_forward m X g = (Err e, g)
     ∧ (length (rows X) = num_nodes g → e = RuntimeError))
  ∧ (length (rows X) ≠ num_nodes g → length (rows X) ≠ 1 → num_nodes g ≠ 1 →
     GCNModel_forward m X g = (Err RuntimeError, g)).
Proof.
  rewrite GCNModel_forward_unfold. split.
  - intros Hw. destruct (forward_value_wrong_width m g X Hw) as (e & -> & He).
    by exists e.
  - intros Hr H1 HN. unfold forward_value, layers, GraphConv_value.
    rewrite th_mul_norm_mismatch by (by rewrite ?conv_norm_length). done.
Qed.

(** X5. When the node features of a non-empty subset have a width other
    than the model's [in_feats], the validation cell and the training cell
    (for at least one epoch) both raise [RuntimeError] at the first batch,
    with nothing printed and the parameters untouched. *)
Theorem wrong_feature_width_raises (w n : nat) (dl : DataLoader) (st : State) :
  wf_loader w dl →
  w ≠ m_in_feats (model st) →
  0 < Subset_len (dl_dataset dl) →
  0 < n →
  validation_cell dl st
  = (Err RuntimeError,
     mkState (set_training (model st) false) (optimizer st) (grad_enabled st) (stdout st))
  ∧ training_cell n dl st
    = (Err RuntimeError, set_model st (set_training (model st) true)).
Proof.
  intros (_ & sig & Hsig & Hwf) Hw Hpos Hn.
  destruct (DataLoader_first_batch dl Hpos) as (b & rest & Hb & Hne & Hvalid).
  apply (cells_fail_with_first_batch n dl st b rest); [done| |done].
  destruct (fetch_frames sig dl b Hwf Hne Hvalid)
    as (bg & data & _ & Hf & _ & Hdwf & Hbg & Hlk).
  specialize (Hlk "node_attr"). rewrite Hsig in Hlk. simpl in Hlk.
  destruct (dgl_batch_ok sig data.*1) as (bg2 & Hbg2 & _ & _ & Hrows);
    [intros Hnil; by rewrite Hnil in Hbg|done|].
  assert (bg2 = bg) as -> by congruence.
  destruct (Hrows "node_attr" w Hsig) as [_ Hlen].
  intros st' Hst'.
  assert (Hcall :
    call_model (model st') (set_frame bg (delete "node_attr" (ndata bg)))
      (mkTensor w (mjoin (rows_at "node_attr" <$> data.*1))) = Err RuntimeError).
  { unfold call_model. rewrite GCNModel_forward_unfold.
    destruct (forward_value_wrong_width (model st')
                (set_frame bg (delete "node_attr" (ndata bg)))
                (mkTensor w (mjoin (rows_at "node_attr" <$> data.*1))))
      as (e & -> & He); [cbn; congruence|].
    cbn. f_equal. by apply He. }
  split; intros acc.
  - unfold val_batch. rewrite se_bind_lift, Hf. unfold pop_ndata. rewrite Hlk.
    rewrite se_bind_lift. unfold se_bind at 1. unfold se_get at 1. cbv iota beta.
    by rewrite se_bind_lift, Hcall.
  - unfold train_batch. rewrite se_bind_lift, Hf. unfold pop_ndata. rewrite Hlk.
    rewrite se_bind_lift. unfold se_bind at 1. unfold se_get at 1. cbv iota beta.
    by rewrite se_bind_lift, Hcall.
Qed.

(** ** A batch computes what its graphs compute one by one *)

Lemma fmap_seq_shift {B} (f : nat → B) (off n : nat) :
  f <$> seq off n = (λ u, f (off + u)) <$> seq 0 n.
Proof.
  rewrite <- (Nat.add_0_r off) at 1. rewrite <- fmap_add_seq, <- list_fmap_compose. done.
Qed.

Lemma fmap_seq_ext {B} (f h : nat → B) (off n : nat) :
  (∀ v, off ≤ v < off + n → f v = h v) → f <$> seq off n = h <$> seq off n.
Proof.
  intros Hfh. apply list_fmap_ext. intros i x Hx.
  apply lookup_seq in Hx as [-> ?]. apply Hfh. lia.
Qed.

Lemma fmap_join {A B} (f : A → B) (ls : list (list A)) :
  f <$> mjoin ls = mjoin (fmap f <$> ls).
Proof. induction ls as [|l ls IH]; [done|]. csimpl. by rewrite fmap_app, IH. Qed.

Lemma zip_with_join {A B C} (f : A → B → C) (ls : list (list A)) (ks : list (list B)) :
  Forall2 (λ l k, length l = length k) ls ks →
  zip_with f (mjoin ls) (mjoin ks) = mjoin (zip_with (zip_with f) ls ks).
Proof.
  induction 1 as [|l k ls ks Hl _ IH]; [done|]. csimpl.
  by rewrite zip_with_app, IH.
Qed.

Lemma batch_edges_ge (off : nat) (gs : list DGLGraph) (e : nat * nat) :
  e ∈ batch_edges off gs → off ≤ e.1 ∧ off ≤ e.2.
Proof.
  revert off. induction gs as [|g gs IH]; intros off; simpl.
  - by intros ?%elem_of_nil.
  - rewrite elem_of_app, list_elem_of_fmap. intros [(e' & -> & _)|He].
    + simpl. lia.
    + apply IH in He. lia.
Qed.

Lemma in_degree_no_edge (es : list (nat * nat)) (v : nat) :
  (∀ e, e ∈ es → e.2 ≠ v) → length (filter (λ e : nat * nat, e.2 = v) es) = 0.
Proof.
  intros Hes. induction es as [|e es IH]; [done|].
  rewrite filter_cons. rewrite decide_False by (apply Hes; left).
  apply IH. intros e' He'. apply Hes. by right.
Qed.

Lemma in_msgs_no_edge (es : list (nat * nat)) (feat : list Vec) (v : nat) :
  (∀ e, e ∈ es → e.2 ≠ v) →
  omap (λ e : nat * nat, if decide (e.2 = v) then feat !! e.1 else None) es = [].
Proof.
  intros Hes. induction es as [|e es IH]; [done|]. csimpl.
  rewrite decide_False by (apply Hes; left).
  apply IH. intros e' He'. apply Hes. by right.
Qed.

Lemma in_degree_shift (off : nat) (es : list (nat * nat)) (u : nat) :
  length (filter (λ e : nat * nat, e.2 = off + u) (shift_edge off <$> es))
  = length (filter (λ e : nat * nat, e.2 = u) es).
Proof.
  induction es as [|e es IH]; [done|]. rewrite fmap_cons, !filter_cons. simpl.
  destruct (decide (e.2 = u)) as [Hu|Hu].
  - rewrite decide_True by lia. simpl. by rewrite IH.
  - rewrite decide_False by lia. done.
Qed.

Lemma in_msgs_shift (off : nat) (es : list (nat * nat)) (pre l post : list Vec) (u : nat) :
  length pre = off →
  (∀ e, e ∈ es → e.1 < length l) →
  omap (λ e : nat * nat, if decide (e.2 = off + u) then (pre ++ l ++ post) !! e.1 else None)
       (shift_edge off <$> es)
  = omap (λ e : nat * nat, if decide (e.2 = u) then l !! e.1 else None) es.
Proof.
  intros Hpre Hes. induction es as [|e es IH]; [done|].
  assert (Hlk : (pre ++ l ++ post) !! (off + e.1) = l !! e.1).
  { rewrite lookup_app_r by lia. replace (off + e.1 - length pre) with e.1 by lia.
    apply lookup_app_l. apply Hes. left. }
  csimpl. rewrite IH by (intros e' He'; apply Hes; by right).
  destruct (decide (e.2 = u)) as [Hu|Hu].
  - rewrite decide_True by lia. by rewrite Hlk.
  - rewrite decide_False by lia. done.
Qed.

Lemma in_range_src (g : DGLGraph) (e : nat * nat) :
  edges_in_range g → e ∈ edges g → e.1 < num_nodes g ∧ e.2 < num_nodes g.
Proof. intros Hr He. by apply (proj1 (Forall_forall _ _) Hr). Qed.

Lemma in_degrees_batch (off : nat) (gs : list DGLGraph) :
  Forall edges_in_range gs →
  (λ v, length (filter (λ e : nat * nat, e.2 = v) (batch_edges off gs)))
    <$> seq off (sum_list (num_nodes <$> gs))
  = mjoin (in_degrees <$> gs).
Proof.
  intros Hr. revert off. induction Hr as [|g gs Hg _ IH]; intros off; [done|].
  csimpl. rewrite seq_app, fmap_app. f_equal.
  - unfold in_degrees, in_degree. rewrite (fmap_seq_shift _ off).
    apply (fmap_seq_ext _ _ 0). intros u Hu. rewrite filter_app, length_app.
    rewrite in_degree_shift.
    rewrite (in_degree_no_edge (batch_edges _ _)); [lia|].
    intros e He%batch_edges_ge. lia.
  - rewrite <- (IH (off + num_nodes g)). apply fmap_seq_ext. intros v Hv.
    rewrite filter_app, length_app.
    rewrite in_degree_no_edge; [done|].
    intros e (e' & -> & He')%list_elem_of_fmap.
    apply (in_range_src g) in He'; [|done]. simpl. lia.
Qed.

Lemma agg_rows_batch (w off : nat) (gs : list DGLGraph) (ls : list (list Vec))
    (pre : list Vec) :
  Forall edges_in_range gs →
  Forall2 (λ g l, length l = num_nodes g) gs ls →
  length pre = off →
  (λ v, vsum w (omap (λ e : nat * nat,
                        if decide (e.2 = v) then (pre ++ mjoin ls) !! e.1 else None)
                     (batch_edges off gs)))
    <$> seq off (sum_list (num_nodes <$> gs))
  = mjoin (zip_with (λ g l, sum_rows g w l) gs ls).
Proof.
  intros Hr Hl. revert off pre.
  induction Hl as [|g l gs ls Hgl Hl IH]; intros off pre Hpre; [done|].
  apply Forall_cons in Hr as [Hg Hr].
  csimpl. rewrite seq_app, fmap_app. f_equal.
  - unfold sum_rows, in_msgs. rewrite (fmap_seq_shift _ off).
    apply (fmap_seq_ext _ _ 0). intros u Hu. f_equal. rewrite omap_app.
    rewrite in_msgs_shift; [|done|].
    + rewrite (in_msgs_no_edge (batch_edges _ _)); [by rewrite app_nil_r|].
      intros e He%batch_edges_ge. lia.
    + intros e He. apply (in_range_src g) in He; [|done]. lia.
  - rewrite <- (IH Hr (off + num_nodes g) (pre ++ l)) by (rewrite length_app; lia).
    apply fmap_seq_ext. intros v Hv. f_equal. rewrite omap_app.
    rewrite in_msgs_no_edge; [by rewrite <- app_assoc|].
    intros e (e' & -> & He')%list_elem_of_fmap.
    apply (in_range_src g) in He'; [|done]. simpl. lia.
Qed.

Lemma zip_with_fmap_same {A B C D} (f : B → C → D) (a : A → B) (b : A → C)
    (ps : list A) :
  zip_with f (a <$> ps) (b <$> ps) = (λ p, f (a p) (b p)) <$> ps.
Proof. induction ps as [|p ps IH]; [done|]. csimpl. by rewrite IH. Qed.

Lemma Forall2_fmap_same {A B C} (R : B → C → Prop) (a : A → B) (b : A → C)
    (ps : list A) :
  Forall (λ p, R (a p) (b p)) ps → Forall2 R (a <$> ps) (b <$> ps).
Proof. induction 1; csimpl; by constructor. Qed.

Lemma conv_norm_batch (G : DGLGraph) (gs : list DGLGraph) :
  batch_shape G gs →
  Forall edges_in_range gs →
  conv_norm G = mjoin (conv_norm <$> gs).
Proof.
  intros (Hn & He & _) Hr. unfold conv_norm at 1. unfold in_degrees, in_degree.
  rewrite Hn, He, (in_degrees_batch 0 gs Hr), fmap_join, <- list_fmap_compose. done.
Qed.

Lemma sum_rows_of_batch (G : DGLGraph) (w : nat) (gs : list DGLGraph)
    (ls : list (list Vec)) :
  batch_shape G gs →
  Forall edges_in_range gs →
  Forall2 (λ g l, length l = num_nodes g) gs ls →
  sum_rows G w (mjoin ls) = mjoin (zip_with (λ g l, sum_rows g w l) gs ls).
Proof.
  intros (Hn & He & _) Hr Hl. unfold sum_rows at 1. unfold in_msgs.
  rewrite Hn, He. by apply (agg_rows_batch w 0 gs ls []).
Qed.

Lemma zip_with_second {A B} (gs : list A) (ls : list B) :
  length gs = length ls → zip_with (λ _ l, l) gs ls = ls.
Proof.
  revert ls. induction gs as [|g gs IH]; intros [|l ls]; simpl; try done.
  intros [= Hl]. by rewrite IH.
Qed.

(** Whether messages are passed or not, the rows after [update_all] on a
    batch are those of its graphs, one after the other. *)
Lemma agg_rows_of_batch (passing : bool) (G : DGLGraph) (w : nat) (gs : list DGLGraph)
    (ls : list (list Vec)) :
  batch_shape G gs →
  Forall edges_in_range gs →
  Forall2 (λ g l, length l = num_nodes g) gs ls →
  agg_rows_in passing G w (mjoin ls)
  = mjoin (zip_with (λ g l, agg_rows_in passing g w l) gs ls).
Proof.
  intros HG Hr Hl. destruct passing; cbn [agg_rows_in].
  - by apply sum_rows_of_batch.
  - rewrite zip_with_second; [done|]. by eapply Forall2_length.
Qed.

Lemma agg_rows_length (passing : bool) (g : DGLGraph) (w : nat) (l : list Vec) :
  length l = num_nodes g → length (agg_rows_in passing g w l) = num_nodes g.
Proof.
  intros Hl. destruct passing; cbn [agg_rows_in]; [|done].
  unfold sum_rows. by rewrite length_fmap, length_seq.
Qed.

Lemma conv_rows_length (passing : bool) (L : GraphConv) (g : DGLGraph) (w : nat)
    (l : list Vec) :
  length l = num_nodes g → length (conv_rows_in passing L g w l) = num_nodes g.
Proof.
  intros Hl. unfold conv_rows_in.
  rewrite length_fmap, length_zip_with, conv_norm_length.
  assert (Hf : length (zip_with vscale (conv_norm g) l) = num_nodes g)
    by (rewrite length_zip_with, conv_norm_length; lia).
  case_decide; rewrite ?length_fmap, agg_rows_length; rewrite ?length_fmap; lia.
Qed.

(** A layer on a batch is the layer on every graph. *)
Lemma conv_rows_batch (passing : bool) (L : GraphConv) (G : DGLGraph) (w : nat)
    (ps : list (DGLGraph * list Vec)) :
  batch_shape G ps.*1 →
  Forall (λ p, edges_in_range p.1 ∧ length p.2 = num_nodes p.1) ps →
  conv_rows_in passing L G w (mjoin ps.*2)
  = mjoin ((λ p, conv_rows_in passing L p.1 w p.2) <$> ps).
Proof.
  intros HG Hps.
  assert (Hr : Forall edges_in_range ps.*1).
  { apply Forall_fmap. eapply Forall_impl; [exact Hps|]. by intros p [? ?]. }
  assert (Hagg : ∀ w' (h : DGLGraph * list Vec → list Vec),
    Forall (λ p, length (h p) = num_nodes p.1) ps →
    agg_rows_in passing G w' (mjoin (h <$> ps))
    = mjoin ((λ p, agg_rows_in passing p.1 w' (h p)) <$> ps)).
  { intros w' h Hh.
    rewrite (agg_rows_of_batch passing G w' ps.*1 (h <$> ps) HG Hr).
    - by rewrite (zip_with_fmap_same (λ g l, agg_rows_in passing g w' l) fst h).
    - apply (Forall2_fmap_same (λ g l, length l = num_nodes g) fst h). done. }
  assert (Hscale : ∀ (h : DGLGraph * list Vec → list Vec),
    Forall (λ p, length (h p) = num_nodes p.1) ps →
    zip_with vscale (conv_norm G) (mjoin (h <$> ps))
    = mjoin ((λ p, zip_with vscale (conv_norm p.1) (h p)) <$> ps)).
  { intros h Hh. rewrite (conv_norm_batch G ps.*1 HG Hr), <- list_fmap_compose.
    rewrite zip_with_join.
    - by rewrite (zip_with_fmap_same (zip_with vscale) (conv_norm ∘ fst) h).
    - apply (Forall2_fmap_same (λ l k, length l = length k) (conv_norm ∘ fst) h).
      eapply Forall_impl; [exact Hh|]. intros p Hp. simpl. by rewrite conv_norm_length. }
  assert (Hsnd : Forall (λ p : DGLGraph * list Vec, length p.2 = num_nodes p.1) ps).
  { eapply Forall_impl; [exact Hps|]. by intros p [? ?]. }
  unfold conv_rows_in at 1. rewrite (Hscale snd Hsnd).
  assert (Hf1 : Forall (λ p : DGLGraph * list Vec,
            length (zip_with vscale (conv_norm p.1) p.2) = num_nodes p.1) ps).
  { eapply Forall_impl; [exact Hsnd|]. intros p Hp. simpl in *.
    rewrite length_zip_with, conv_norm_length. lia. }
  assert (Hmap : ∀ {A B} (f : A → B) (h : DGLGraph * list Vec → list A),
    f <$> mjoin (h <$> ps) = mjoin ((λ p, f <$> h p) <$> ps)).
  { intros A B f h. by rewrite fmap_join, <- list_fmap_compose. }
  case_decide as Hbr.
  - rewrite (Hmap _ _ (λ r, vmatmul r (gc_weight L))).
    rewrite (Hagg _ (λ p, (λ r, vmatmul r (gc_weight L)) <$> zip_with vscale (conv_norm p.1) p.2)).
    2:{ eapply Forall_impl; [exact Hf1|]. intros p Hp. simpl in *. by rewrite length_fmap. }
    rewrite (Hscale (λ p, agg_rows_in passing p.1 (out_feats L)
               ((λ r, vmatmul r (gc_weight L)) <$> zip_with vscale (conv_norm p.1) p.2))).
    2:{ eapply Forall_impl; [exact Hf1|]. intros p Hp. simpl in *.
        apply agg_rows_length. by rewrite length_fmap. }
    rewrite Hmap. f_equal.
    apply list_fmap_ext. intros i p _. simpl. unfold conv_rows_in.
    by rewrite decide_True by done.
  - rewrite (Hagg _ (λ p, zip_with vscale (conv_norm p.1) p.2) Hf1).
    rewrite (Hmap _ _ (λ r, vmatmul r (gc_weight L))).
    rewrite (Hscale (λ p, (λ r, vmatmul r (gc_weight L)) <$>
               agg_rows_in passing p.1 w (zip_with vscale (conv_norm p.1) p.2))).
    2:{ eapply Forall_impl; [exact Hf1|]. intros p Hp. simpl in *.
        by rewrite length_fmap, agg_rows_length. }
    rewrite Hmap. f_equal.
    apply list_fmap_ext. intros i p _. simpl. unfold conv_rows_in.
    by rewrite decide_False by done.
Qed.
Lemma aggregate_agg_rows (g : DGLGraph) (w : nat) (l : list Vec) :
  aggregate g (mkTensor w l) = mkTensor w (agg_rows_in (has_edges g) g w l).
Proof.
  unfold aggregate, has_edges. case_decide as He.
  - by rewrite bool_decide_eq_false_2 by (by intros ?).
  - by rewrite bool_decide_eq_true_2.
Qed.

(** With one row per node and the input width of the layer, a ReLU layer
    returns [conv_rows_in], with messages passed if the graph has an
    edge. *)
Lemma GraphConv_value_rows (L : GraphConv) (w : nat) (l : list Vec) (g : DGLGraph) :
  gc_activation L = Some F_relu →
  length l = num_nodes g →
  w = in_feats L →
  GraphConv_value L (mkTensor w l) g
  = Ok (mkTensor (out_feats L) (conv_rows_in (has_edges g) L g w l)).
Proof.
  intros Hact Hr Hw. unfold GraphConv_value. rewrite Hact.
  rewrite th_mul_norm_same by (by rewrite conv_norm_length).
  cbn [mbind result_bind width rows].
  assert (Hl : length (zip_with vscale (conv_norm g) l) = num_nodes g).
  { rewrite length_zip_with, conv_norm_length. lia. }
  unfold conv_rows_in. case_decide.
  - unfold th_matmul at 1. cbn [width rows]. rewrite decide_True by done.
    cbn [mbind result_bind rows]. rewrite length_fmap, decide_True by done.
    cbn [mbind result_bind]. rewrite aggregate_agg_rows.
    rewrite th_mul_norm_same
      by (cbn [rows]; rewrite agg_rows_length, conv_norm_length;
          [done|by rewrite length_fmap]).
    cbn [mbind result_bind]. unfold apply_activation, F_relu, th_add_bias.
    cbn [width rows]. by rewrite <- list_fmap_compose.
  - rewrite decide_True by done. rewrite aggregate_agg_rows.
    unfold th_matmul. cbn [width rows]. rewrite decide_True by done.
    cbn [mbind result_bind].
    rewrite th_mul_norm_same
      by (cbn [rows]; by rewrite length_fmap, agg_rows_length, conv_norm_length).
    cbn [mbind result_bind]. unfold apply_activation, F_relu, th_add_bias.
    cbn [width rows]. by rewrite <- list_fmap_compose.
Qed.

Lemma segments_join (ls : list (list Vec)) :
  segments (length <$> ls) (mjoin ls) = ls.
Proof.
  induction ls as [|l ls IH]; [done|]. csimpl.
  by rewrite take_app_length, drop_app_length, IH.
Qed.

Lemma hidden_rows_length (passing : bool) (m : GCNModel) (g : DGLGraph) (l : list Vec) :
  length l = num_nodes g → length (hidden_rows_in passing m g l) = num_nodes g.
Proof.
  intros Hl. unfold hidden_rows_in, layers. cbn [foldl].
  by do 3 apply conv_rows_length.
Qed.

Lemma forward_value_rows (m : GCNModel) (l : list Vec) (g : DGLGraph) :
  length l = num_nodes g →
  forward_value m (mkTensor (m_in_feats m) l) g
  = Ok (mkTensor (m_out_feats m)
          ((λ r, vadd (vmatmul r (wtranspose (classifier_weight (m_params m))))
                      (classifier_bias (m_params m)))
             <$> (vsum (m_n_hidden m)
                    <$> segments (batch_num_nodes g)
                          (hidden_rows_in (has_edges g) m g l)))).
Proof.
  intros Hl. unfold forward_value, hidden_rows_in, layers. cbn [foldl in_feats].
  set (l1 := mkGraphConv (m_in_feats m) _ _ _ _).
  set (l2 := mkGraphConv _ _ (conv2_weight _) _ _).
  set (l3 := mkGraphConv _ _ (conv3_weight _) _ _).
  rewrite (GraphConv_value_rows l1) by done. cbn [mbind result_bind out_feats l1].
  rewrite (GraphConv_value_rows l2) by (try done; by apply conv_rows_length).
  cbn [mbind result_bind out_feats l2].
  rewrite (GraphConv_value_rows l3) by (try done; by do 2 apply conv_rows_length).
  cbn [mbind result_bind out_feats l3].
  unfold Linear_forward, th_matmul, readout, classifier.
  cbn [width rows in_features out_features lin_weight lin_bias].
  rewrite decide_True by done. cbn [mbind result_bind].
  unfold th_add_bias. cbn [width rows]. by rewrite <- !list_fmap_compose.
Qed.

Lemma hidden_rows_batch (passing : bool) (m : GCNModel) (G : DGLGraph)
    (ps : list (DGLGraph * list Vec)) :
  batch_shape G ps.*1 →
  Forall (λ p, edges_in_range p.1 ∧ length p.2 = num_nodes p.1) ps →
  hidden_rows_in passing m G (mjoin ps.*2)
  = mjoin ((λ p, hidden_rows_in passing m p.1 p.2) <$> ps).
Proof.
  intros HG Hps. unfold hidden_rows_in, layers. cbn [foldl in_feats].
  set (l1 := mkGraphConv (m_in_feats m) _ _ _ _).
  set (l2 := mkGraphConv _ _ (conv2_weight _) _ _).
  set (l3 := mkGraphConv _ _ (conv3_weight _) _ _).
  assert (Hstep : ∀ L w (h : DGLGraph * list Vec → list Vec),
    Forall (λ p, length (h p) = num_nodes p.1) ps →
    conv_rows_in passing L G w (mjoin (h <$> ps))
    = mjoin ((λ p, conv_rows_in passing L p.1 w (h p)) <$> ps)).
  { intros L w h Hh.
    pose proof (conv_rows_batch passing L G w ((λ p, (p.1, h p)) <$> ps)) as Hc.
    rewrite <- !list_fmap_compose in Hc.
    apply Hc; [exact HG|].
    apply Forall_fmap. apply Forall_forall. intros p Hp. simpl.
    split; [by apply (proj1 (Forall_forall _ _) Hps)|by apply (proj1 (Forall_forall _ _) Hh)]. }
  assert (H0 : Forall (λ p : DGLGraph * list Vec, length p.2 = num_nodes p.1) ps).
  { eapply Forall_impl; [exact Hps|]. by intros p [? ?]. }
  rewrite (Hstep l1 _ snd H0).
  rewrite (Hstep l2 _ (λ p, conv_rows_in passing l1 p.1 (m_in_feats m) p.2)).
  2:{ eapply Forall_impl; [exact H0|]. intros p Hp. by apply conv_rows_length. }
  rewrite (Hstep l3 _ (λ p, conv_rows_in passing l2 p.1 (m_n_hidden m)
                              (conv_rows_in passing l1 p.1 (m_in_feats m) p.2))).
  2:{ eapply Forall_impl; [exact H0|]. intros p Hp. by do 2 apply conv_rows_length. }
  done.
Qed.

(** The forward pass on a graph with the shape of a batch: every graph
    gets the row of logits of its own nodes, with messages passed if the
    batch has an edge. *)
Lemma forward_value_batch (m : GCNModel) (G : DGLGraph) (ps : list (DGLGraph * list Vec)) :
  batch_shape G ps.*1 →
  Forall (λ p, edges_in_range p.1 ∧ length p.2 = num_nodes p.1) ps →
  forward_value m (mkTensor (m_in_feats m) (mjoin ps.*2)) G
  = Ok (mkTensor (m_out_feats m) ((λ p, graph_logits_in (has_edges G) m p.1 p.2) <$> ps)).
Proof.
  intros HG Hps.
  assert (H0 : Forall (λ p : DGLGraph * list Vec, length p.2 = num_nodes p.1) ps).
  { eapply Forall_impl; [exact Hps|]. by intros p [? ?]. }
  assert (Hlen : length (mjoin ps.*2) = num_nodes G).
  { destruct HG as (-> & _). clear Hps. induction H0 as [|p ps Hp _ IH]; [done|].
    csimpl. by rewrite length_app, IH, Hp. }
  rewrite forward_value_rows by done. do 2 f_equal.
  rewrite hidden_rows_batch by done.
  destruct HG as (_ & _ & ->).
  assert (Hseg : num_nodes <$> ps.*1
                 = length <$> ((λ p, hidden_rows_in (has_edges G) m p.1 p.2) <$> ps)).
  { rewrite <- !list_fmap_compose. apply list_fmap_ext. intros i p Hp. simpl.
    rewrite hidden_rows_length; [done|].
    by apply (Forall_lookup_1 _ _ _ _ H0 Hp). }
  rewrite Hseg, segments_join, <- !list_fmap_compose. done.
Qed.

(** A batch has an edge exactly when one of its graphs has. *)
Lemma batch_edges_nil (off : nat) (gs : list DGLGraph) :
  batch_edges off gs = [] ↔ Forall (λ g, edges g = []) gs.
Proof.
  revert off. induction gs as [|g gs IH]; intros off; cbn [batch_edges].
  - split; [constructor|done].
  - rewrite Forall_cons, <- IH. split.
    + intros [H1 H2]%app_eq_nil. split; [|done]. by apply fmap_nil_inv in H1.
    + intros [-> ->]. done.
Qed.

Lemma has_edges_uniform (G : DGLGraph) (gs : list DGLGraph) (g : DGLGraph) :
  batch_shape G gs →
  uniform_edges gs →
  g ∈ gs →
  has_edges G = has_edges g.
Proof.
  intros (_ & He & _) Hu Hg. unfold has_edges. rewrite He.
  destruct Hu as [Hall|Hnone].
  - rewrite !bool_decide_eq_true_2; [done| |].
    + by apply (proj1 (Forall_forall _ _) Hall).
    + intros Hnil%batch_edges_nil.
      apply (proj1 (Forall_forall _ _) Hall) in Hg as Hne.
      by apply (proj1 (Forall_forall _ _) Hnil) in Hg.
  - rewrite !bool_decide_eq_false_2; [done| |].
    + intros Hne. apply Hne. by apply (proj1 (Forall_forall _ _) Hnone).
    + intros Hne. apply Hne. by apply batch_edges_nil.
Qed.

Lemma plain_batch_num_nodes (gs : list DGLGraph) :
  Forall (λ g, batch_info g = None) gs →
  mjoin (batch_num_nodes <$> gs) = num_nodes <$> gs.
Proof.
  induction 1 as [|g gs Hg _ IH]; [done|]. csimpl. rewrite IH.
  unfold batch_num_nodes. by rewrite Hg.
Qed.

Lemma dgl_batch_shape (gs : list DGLGraph) (bg : DGLGraph) :
  Forall (λ g, batch_info g = None) gs →
  dgl_batch gs = Ok bg →
  batch_shape bg gs.
Proof.
  intros Hplain Hbg. apply dgl_batch_inv in Hbg as (_ & _ & Hn & He & Hbi).
  split; [done|]. split; [done|].
  unfold batch_num_nodes at 1. rewrite Hbi. simpl. by apply plain_batch_num_nodes.
Qed.

Lemma batch_shape_set_frame (G : DGLGraph) (gs : list DGLGraph) fr :
  batch_shape G gs → batch_shape (set_frame G fr) gs.
Proof. done. Qed.

Lemma uniform_edges_single (g : DGLGraph) : uniform_edges [g].
Proof.
  destruct (decide (edges g = [])) as [He|He]; [right|left]; by apply Forall_singleton.
Qed.

(** X8. The model treats the graphs of a batch independently, when the
    graphs of the batch either all have an edge or all have none: on the
    batch of plain graphs whose edges join their own nodes, with one
    feature row per node, row [i] of the logits is what the layers, the
    sum readout and the classifier give on graph [i] and its own rows,
    and it is the single row that the model returns on the batch of that
    graph alone. *)
Theorem batched_forward_is_per_graph (m : GCNModel) (ps : list (DGLGraph * list Vec))
    (bg : DGLGraph) :
  Forall (λ p, edges_in_range p.1 ∧ batch_info p.1 = None
               ∧ length p.2 = num_nodes p.1) ps →
  uniform_edges ps.*1 →
  dgl_batch ps.*1 = Ok bg →
  call_model m bg (mkTensor (m_in_feats m) (mjoin ps.*2))
    = Ok (mkTensor (m_out_feats m) ((λ p, graph_logits m p.1 p.2) <$> ps))
  ∧ ∀ p bg1, p ∈ ps → dgl_batch [p.1] = Ok bg1 →
      call_model m bg1 (mkTensor (m_in_feats m) p.2)
      = Ok (mkTensor (m_out_feats m) [graph_logits m p.1 p.2]).
Proof.
  intros Hps Hu Hbg.
  assert (Hone : ∀ (qs : list (DGLGraph * list Vec)) G,
    Forall (λ p, edges_in_range p.1 ∧ batch_info p.1 = None
                 ∧ length p.2 = num_nodes p.1) qs →
    uniform_edges qs.*1 →
    dgl_batch qs.*1 = Ok G →
    call_model m G (mkTensor (m_in_feats m) (mjoin qs.*2))
    = Ok (mkTensor (m_out_feats m) ((λ p, graph_logits m p.1 p.2) <$> qs))).
  { intros qs G Hqs Hqu HG. unfold call_model. rewrite GCNModel_forward_unfold.
    cbn [fst].
    assert (Hshape : batch_shape G qs.*1).
    { apply dgl_batch_shape; [|done]. apply Forall_fmap.
      eapply Forall_impl; [exact Hqs|]. by intros p (_ & ? & _). }
    rewrite forward_value_batch; [|done|].
    - do 2 f_equal. apply list_fmap_ext. intros i p Hp. unfold graph_logits.
      rewrite (has_edges_uniform G qs.*1 p.1 Hshape Hqu); [done|].
      apply list_elem_of_fmap_2. by eapply list_elem_of_lookup_2.
    - eapply Forall_impl; [exact Hqs|]. by intros p (? & _ & ?). }
  split; [by apply Hone|].
  intros p bg1 Hp Hbg1.
  assert (Hp1 : Forall (λ p : DGLGraph * list Vec, edges_in_range p.1
                 ∧ batch_info p.1 = None ∧ length p.2 = num_nodes p.1) [p]).
  { apply Forall_singleton. by apply (proj1 (Forall_forall _ _) Hps). }
  pose proof (Hone [p] bg1 Hp1 (uniform_edges_single p.1) Hbg1) as H1. csimpl in H1.
  by rewrite app_nil_r in H1.
Qed.

(** ** What the batch keeps of its graphs *)

Lemma batch_edges_length (off : nat) (gs : list DGLGraph) :
  length (batch_edges off gs) = sum_list ((λ g, length (edges g)) <$> gs).
Proof.
  revert off. induction gs as [|g gs IH]; intros off; [done|]. csimpl.
  by rewrite length_app, length_fmap, IH.
Qed.

Lemma batch_edges_lt (off : nat) (gs : list DGLGraph) (e : nat * nat) :
  Forall edges_in_range gs →
  e ∈ batch_edges off gs →
  e.1 < off + sum_list (num_nodes <$> gs) ∧ e.2 < off + sum_list (num_nodes <$> gs).
Proof.
  intros Hr. revert off. induction Hr as [|g gs Hg _ IH]; intros off; csimpl.
  - by intros ?%elem_of_nil.
  - rewrite elem_of_app, list_elem_of_fmap. intros [(e' & -> & He')|He].
    + apply (in_range_src g) in He'; [|done]. simpl. lia.
    + apply IH in He. lia.
Qed.

Lemma rows_at_lengths (sig : gmap string nat) (gs : list DGLGraph) k w :
  Forall (wf_graph sig) gs → sig !! k = Some w →
  length <$> (rows_at k <$> gs) = num_nodes <$> gs.
Proof.
  intros Hwf Hk. induction Hwf as [|g gs Hg _ IH]; [done|]. csimpl.
  rewrite IH. f_equal. by eapply wf_graph_rows_at.
Qed.

(** X9. The collate function keeps the graphs of a batch apart: cutting
    each batched feature by the per-graph node counts gives back the rows
    of each input graph in order, with the width unchanged; no feature is
    invented; the batch has as many edges as the inputs together; and
    every edge still joins two nodes of the batch. *)
Theorem collate_keeps_graphs_apart (sig : gmap string nat) (data : list (DGLGraph * Z))
    (bg : DGLGraph) (labels : list Z) :
  Forall (wf_graph sig) data.*1 →
  collate_molgraphs_for_classification data = Ok (bg, labels) →
  (∀ k w, sig !! k = Some w →
     ∃ t, ndata bg !! k = Some t ∧ width t = w
       ∧ segments (batch_num_nodes bg) (rows t) = rows_at k <$> data.*1)
  ∧ (∀ k, sig !! k = None → ndata bg !! k = None)
  ∧ length (edges bg) = sum_list ((λ g, length (edges g)) <$> data.*1)
  ∧ (Forall edges_in_range data.*1 → edges_in_range bg).
Proof.
  intros Hwf Hc. apply collate_inv in Hc as (Hne & Hbg & _).
  assert (Hgs : data.*1 ≠ []) by (by destruct data).
  destruct (dgl_batch_ok sig data.*1 Hgs Hwf) as (bg' & Hbg' & Hn & Hbn & Hlk).
  assert (bg' = bg) as -> by congruence.
  apply dgl_batch_inv in Hbg as Hinv. destruct Hinv as (_ & Hfr & _ & He & _).
  split; [|split; [|split]].
  - intros k w Hk. destruct (Hlk k w Hk) as [Hndata _].
    eexists. split; [exact Hndata|]. split; [done|]. cbn [rows]. rewrite Hbn.
    by rewrite <- (rows_at_lengths sig _ k w Hwf Hk), segments_join.
  - intros k Hk.
    destruct (batch_frames_ok sig data.*1 Hgs Hwf) as (fr & Hfr' & _ & Hlk').
    rewrite Hfr in Hfr'. injection Hfr' as <-. by rewrite Hlk', Hk.
  - by rewrite He, batch_edges_length.
  - intros Hr. unfold edges_in_range. rewrite He, Hn. apply Forall_forall.
    intros e He'. by apply (batch_edges_lt 0) in He'.
Qed.

(** ** The validation result, graph by graph *)

Lemma getitem_in_range (s : Subset) (i : nat) (d : DGLGraph * Z) :
  subset_in_range s → Subset_getitem s i = Ok d → edges_in_range d.1.
Proof.
  intros Hr. unfold Subset_getitem.
  destruct (sub_indices s !! i) as [j|] eqn:Hj; [|done].
  destruct (Forall_lookup_1 _ _ _ _ Hr Hj) as (d' & Hd' & Hin).
  rewrite Hd'. by intros [= <-].
Qed.

Lemma agreements_items (m : GCNModel) (data : list (DGLGraph * Z)) :
  agreements
    (argmax <$> ((λ p : DGLGraph * list Vec, graph_logits m p.1 p.2)
                   <$> ((λ d : DGLGraph * Z, (d.1, rows_at "node_attr" d.1)) <$> data)))
    data.*2
  = sum_list (item_correct m <$> data).
Proof.
  induction data as [|d data IH]; [done|].
  csimpl. unfold item_correct at 1. simpl.
  destruct (decide (argmax _ = d.2)); simpl; by rewrite IH.
Qed.

Lemma getitem_uniform (s : Subset) (batch : list nat) (data : list (DGLGraph * Z)) :
  subset_uniform s →
  Forall2 (λ i d, Subset_getitem s i = Ok d) batch data →
  uniform_edges data.*1.
Proof.
  intros Hu Hdata.
  assert (Hall : ∀ P : DGLGraph → Prop,
    Forall (λ j, ∃ d, sub_dataset s !! j = Some d ∧ P d.1) (sub_indices s) →
    Forall P data.*1).
  { intros P HP. apply Forall_fmap. clear Hu.
    induction Hdata as [|i d batch data Hd _ IH]; [done|].
    apply Forall_cons. split; [|done]. simpl.
    unfold Subset_getitem in Hd.
    destruct (sub_indices s !! i) as [j|] eqn:Hj; [|done].
    destruct (Forall_lookup_1 _ _ _ _ HP Hj) as (d' & Hd' & HPd).
    rewrite Hd' in Hd. by injection Hd as <-. }
  destruct Hu as [Hu|Hu]; [left|right]; by apply Hall.
Qed.

Lemma item_correct_index (m : GCNModel) (s : Subset) (batch : list nat)
    (data : list (DGLGraph * Z)) :
  Forall2 (λ i d, Subset_getitem s i = Ok d) batch data →
  item_correct m <$> data = index_correct m s <$> batch.
Proof.
  induction 1 as [|i d batch data Hd _ IH]; [done|]. csimpl.
  rewrite IH. unfold index_correct at 2. by rewrite Hd.
Qed.

(** The correct predictions of a batch are the correct predictions on its
    graphs, each taken alone. *)
Lemma batch_correct_sum (in_f : nat) (dl : DataLoader) (m : GCNModel) (batch : list nat) :
  wf_loader in_f dl →
  subset_in_range (dl_dataset dl) →
  subset_uniform (dl_dataset dl) →
  m_in_feats m = in_f →
  batch ≠ [] →
  Forall (λ i, i < Subset_len (dl_dataset dl)) batch →
  batch_correct m (dl_dataset dl) batch
  = sum_list (index_correct m (dl_dataset dl) <$> batch).
Proof.
  intros (_ & sig & Hsig & Hwf) Hr Hu Hm Hne Hb.
  destruct (fetch_frames sig dl batch Hwf Hne Hb)
    as (bg & data & Hdata & Hf & _ & Hdwf & Hbg & Hlk).
  specialize (Hlk "node_attr"). rewrite Hsig in Hlk. simpl in Hlk.
  pose proof (getitems_batch_items _ _ _ Hdata) as Hitems.
  apply mapM_getitem_inv in Hdata.
  set (ps := (λ d : DGLGraph * Z, (d.1, rows_at "node_attr" d.1)) <$> data).
  assert (Hps1 : ps.*1 = data.*1).
  { unfold ps. rewrite <- list_fmap_compose. done. }
  assert (Hps2 : ps.*2 = rows_at "node_attr" <$> data.*1).
  { unfold ps. rewrite <- !list_fmap_compose. done. }
  set (bg' := set_frame bg (delete "node_attr" (ndata bg))).
  assert (Hshape : batch_shape bg' ps.*1).
  { rewrite Hps1. apply batch_shape_set_frame, dgl_batch_shape; [|done].
    eapply Forall_impl; [exact Hdwf|]. by intros g (_ & _ & ?). }
  assert (Hpsok : Forall (λ p : DGLGraph * list Vec,
            edges_in_range p.1 ∧ length p.2 = num_nodes p.1) ps).
  { unfold ps. apply Forall_fmap. apply Forall_forall. intros d Hd. simpl. split.
    - apply list_elem_of_lookup in Hd as [i Hd].
      destruct (Forall2_lookup_r _ _ _ _ _ Hdata Hd) as (j & _ & Hj).
      by eapply getitem_in_range.
    - eapply wf_graph_rows_at; [|exact Hsig].
      apply (proj1 (Forall_forall _ _) Hdwf). by apply list_elem_of_fmap_2. }
  assert (Hpu : uniform_edges ps.*1) by (rewrite Hps1; by eapply getitem_uniform).
  pose proof (forward_value_batch m _ ps Hshape Hpsok) as Hfwd.
  rewrite Hps2, Hm in Hfwd.
  unfold batch_correct, batch_logits, batch_inputs. rewrite Hitems, Hbg, Hlk.
  cbn [fmap option_fmap option_map]. fold bg'. rewrite Hfwd. cbn [rows].
  assert (Hext : (λ p : DGLGraph * list Vec, graph_logits_in (has_edges bg') m p.1 p.2) <$> ps
                 = (λ p : DGLGraph * list Vec, graph_logits m p.1 p.2) <$> ps).
  { apply list_fmap_ext. intros i p Hp. unfold graph_logits.
    rewrite (has_edges_uniform bg' ps.*1 p.1 Hshape Hpu); [done|].
    apply list_elem_of_fmap_2. by eapply list_elem_of_lookup_2. }
  rewrite Hext. unfold ps. rewrite agreements_items. f_equal.
  by apply item_correct_index.
Qed.

Lemma sum_list_join (f : nat → nat) (ls : list (list nat)) :
  sum_list ((λ l, sum_list (f <$> l)) <$> ls) = sum_list (f <$> mjoin ls).
Proof.
  induction ls as [|l ls IH]; [done|]. csimpl.
  by rewrite fmap_app, sum_list_with_app, IH.
Qed.

Lemma validation_correct_total (in_f : nat) (dl : DataLoader) (m : GCNModel) :
  wf_loader in_f dl →
  subset_in_range (dl_dataset dl) →
  subset_uniform (dl_dataset dl) →
  m_in_feats m = in_f →
  sum_list (batch_correct m (dl_dataset dl) <$> DataLoader_batches dl)
  = sum_list (index_correct m (dl_dataset dl) <$> seq 0 (Subset_len (dl_dataset dl))).
Proof.
  intros Hwf Hr Hu Hm. rewrite <- DataLoader_batches_join, <- sum_list_join. f_equal.
  apply list_fmap_ext. intros i b Hb.
  destruct (Forall_lookup_1 _ _ _ _ (DataLoader_batches_valid dl) Hb) as [Hne Hv].
  by eapply batch_correct_sum.
Qed.

(** X10. The validation accuracy does not depend on the batching, when
    the graphs of the validation subset either all have an edge or all
    have none: on such a well-formed, non-empty subset the cell prints
    the ratio of the number of graphs whose own logits have their argmax
    at the label to the size of the subset, and every positive batch size
    gives the same result and the same final state. *)
Theorem validation_is_per_graph (in_f : nat) (dl : DataLoader) (st : State) :
  wf_loader in_f dl →
  subset_in_range (dl_dataset dl) →
  subset_uniform (dl_dataset dl) →
  m_in_feats (model st) = in_f →
  0 < Subset_len (dl_dataset dl) →
  validation_cell dl st
  = (Ok tt,
     mkState (set_training (model st) false) (optimizer st) (grad_enabled st)
       (stdout st ++
        [validation_line
           (sum_list (index_correct (model st) (dl_dataset dl)
                        <$> seq 0 (Subset_len (dl_dataset dl))))
           (Subset_len (dl_dataset dl))]))
  ∧ ∀ batch_size, 0 < batch_size →
      validation_cell (mkDataLoader (dl_dataset dl) batch_size) st = validation_cell dl st.
Proof.
  intros Hwf Hr Hu Hm Hpos.
  assert (Hcell : ∀ dl', wf_loader in_f dl' → dl_dataset dl' = dl_dataset dl →
    validation_cell dl' st
    = (Ok tt,
       mkState (set_training (model st) false) (optimizer st) (grad_enabled st)
         (stdout st ++
          [validation_line
             (sum_list (index_correct (model st) (dl_dataset dl)
                          <$> seq 0 (Subset_len (dl_dataset dl))))
             (Subset_len (dl_dataset dl))]))).
  { intros dl' Hwf' Hds.
    destruct (validation_cell_unfold in_f dl' st Hwf' Hm) as (_ & _ & ->).
    rewrite Hds, decide_False by lia. do 4 f_equal.
    rewrite <- Hds.
    rewrite (validation_correct_total in_f dl' _ Hwf');
      [done|by rewrite Hds|by rewrite Hds|done]. }
  split; [by apply Hcell|].
  intros bs Hbs. rewrite (Hcell dl Hwf eq_refl). apply Hcell; [|done].
  destruct Hwf as (_ & Hsig). by split.
Qed.

(** ** The batches of a loader *)

Lemma ceil_div_step (a bs : nat) : 0 < bs → (bs + a + bs - 1) / bs = S ((a + bs - 1) / bs).
Proof.
  intros Hbs. replace (bs + a + bs - 1) with (1 * bs + (a + bs - 1)) by lia.
  rewrite Nat.div_add_l by lia. lia.
Qed.

Lemma ceil_div_one (a bs : nat) : 0 < a → a ≤ bs → (a + bs - 1) / bs = 1.
Proof.
  intros Ha Hbs. symmetry. apply (Nat.div_unique _ _ _ (a - 1)); lia.
Qed.

Lemma batch_sampler_sizes (bs : nat) (b l : list nat) :
  0 < bs →
  length b < bs →
  Forall (λ x, 0 < length x ≤ bs) (batch_sampler bs b l)
  ∧ (∀ i x, batch_sampler bs b l !! i = Some x →
       S i < length (batch_sampler bs b l) → length x = bs)
  ∧ length (batch_sampler bs b l) = (length b + length l + bs - 1) / bs.
Proof.
  intros Hbs. revert b. induction l as [|idx l IH]; intros b Hb; cbn [batch_sampler].
  - case_decide as Hpos.
    + split; [apply Forall_singleton; lia|]. split.
      * intros i x _ Hi. simpl in Hi. lia.
      * simpl. rewrite Nat.add_0_r. by rewrite ceil_div_one by lia.
    + split; [done|]. split; [by intros i x ?|].
      assert (length b = 0) as -> by lia. simpl. symmetry. apply Nat.div_small. lia.
  - rewrite length_app. cbn [length]. case_decide as Hfull.
    + destruct (IH [] ltac:(simpl; lia)) as (Hall & Hfullb & Hcount).
      split; [apply Forall_cons; split; [rewrite length_app; simpl; lia|done]|].
      split.
      * intros [|i] x Hx Hi; simpl in Hx.
        -- injection Hx as <-. rewrite length_app. simpl. lia.
        -- apply (Hfullb i x Hx). simpl in Hi. lia.
      * cbn [length]. rewrite Hcount. cbn [length].
        replace (length b + S (length l) + bs - 1) with (bs + length l + bs - 1) by lia.
        rewrite ceil_div_step by lia. done.
    + destruct (IH (b ++ [idx])) as (Hall & Hfullb & Hcount).
      { rewrite length_app. simpl. lia. }
      split; [done|]. split; [done|].
      rewrite Hcount, length_app. simpl. f_equal. lia.
Qed.

(** X11. A loader without shuffling and without [drop_last] yields the
    indices [0 .. len-1] in order, cut into batches of [batch_size] with
    only the last one possibly shorter and none empty, so
    ceil(len / batch_size) batches; a non-empty subset of at most
    [batch_size] items (the notebook: at most 512) is one batch. *)
Theorem loader_batches_shape (dl : DataLoader) :
  0 < dl_batch_size dl →
  mjoin (DataLoader_batches dl) = seq 0 (Subset_len (dl_dataset dl))
  ∧ Forall (λ b, 0 < length b ≤ dl_batch_size dl) (DataLoader_batches dl)
  ∧ (∀ i b, DataLoader_batches dl !! i = Some b →
       S i < length (DataLoader_batches dl) → length b = dl_batch_size dl)
  ∧ length (DataLoader_batches dl)
    = (Subset_len (dl_dataset dl) + dl_batch_size dl - 1) / dl_batch_size dl
  ∧ (0 < Subset_len (dl_dataset dl) ≤ dl_batch_size dl →
     DataLoader_batches dl = [seq 0 (Subset_len (dl_dataset dl))]).
Proof.
  intros Hbs.
  destruct (batch_sampler_sizes (dl_batch_size dl) [] (seq 0 (Subset_len (dl_dataset dl))) Hbs)
    as (Hall & Hfull & Hcount); [simpl; lia|].
  rewrite length_seq in Hcount. cbn [length Nat.add] in Hcount.
  pose proof (DataLoader_batches_join dl) as Hjoin.
  fold (DataLoader_batches dl) in Hall, Hfull, Hcount.
  split; [done|]. split; [done|]. split; [done|]. split; [done|].
  intros [Hpos Hle]. rewrite ceil_div_one in Hcount by lia.
  destruct (DataLoader_batches dl) as [|b [|b' bs]]; simpl in Hcount; try lia.
  csimpl in Hjoin. rewrite app_nil_r in Hjoin. by rewrite Hjoin.
Qed.

(** ** The items of the two subsets *)

Lemma mapM_seq_lookup {A} (f : nat → result A) (xs : list A) (k : nat) :
  (∀ i x, xs !! i = Some x → f (k + i) = Ok x) →
  mapM f (seq k (length xs)) = Ok xs.
Proof.
  revert k. induction xs as [|x xs IH]; intros k Hf; [done|].
  cbn [length seq mapM]. rewrite <- (Nat.add_0_r k) at 1.
  rewrite (Hf 0 x eq_refl). cbn [mbind result_bind].
  rewrite IH; [done|]. intros i y Hy.
  replace (S k + i) with (k + S i) by lia. by apply Hf.
Qed.

Lemma omap_lookup_Forall2 {A} (l : list A) (idx : list nat) :
  Forall (λ j, j < length l) idx →
  Forall2 (λ j d, l !! j = Some d) idx (omap (l !!.) idx).
Proof.
  induction 1 as [|j idx Hj _ IH]; [constructor|]. csimpl.
  apply lookup_lt_is_Some_2 in Hj as [d Hd]. rewrite Hd. csimpl. by constructor.
Qed.

Lemma omap_lookup_seq {A} (pre l : list A) :
  omap ((pre ++ l) !!.) (seq (length pre) (length l)) = l.
Proof.
  revert pre. induction l as [|x l IH]; intros pre; [done|].
  cbn [length seq]. csimpl.
  rewrite lookup_app_r, Nat.sub_diag by lia. csimpl. f_equal.
  specialize (IH (pre ++ [x])). rewrite length_app, <- app_assoc in IH.
  simpl in IH. rewrite Nat.add_1_r in IH. exact IH.
Qed.

Lemma Subset_items_omap (dataset : Dataset) (idx : list nat) :
  Forall (λ j, j < length dataset) idx →
  Subset_items (mkSubset dataset idx) = Ok (omap (dataset !!.) idx).
Proof.
  intros Hidx. pose proof (omap_lookup_Forall2 dataset idx Hidx) as H2.
  unfold Subset_items, Subset_len. cbn [sub_indices].
  rewrite (Forall2_length _ _ _ H2).
  apply mapM_seq_lookup. intros i d Hd. simpl.
  destruct (Forall2_lookup_r _ _ _ _ _ H2 Hd) as (j & Hj & Hjd).
  unfold Subset_getitem. cbn [sub_indices sub_dataset]. rewrite Hj.
  unfold Dataset. by rewrite Hjd.
Qed.

(** X12. The 80/20 split loses and duplicates no item: for every
    dataset, seed and shuffle flag it returns two subsets, every index of
    a subset reads an item, and the items of the training subset followed
    by those of the validation subset are a permutation of the dataset. *)
Theorem split_keeps_every_item (dataset : Dataset) (shuffle : bool)
    (random_state : option Z) (entropy : Z) :
  ∃ trainset valset train_items val_items,
    split_dataset dataset [4 # 5; 1 # 5]%Q shuffle random_state entropy
      = Ok [trainset; valset]
    ∧ Subset_items trainset = Ok train_items
    ∧ Subset_items valset = Ok val_items
    ∧ train_items ++ val_items ≡ₚ dataset
    ∧ (∀ i, i < Subset_len trainset → is_Ok (Subset_getitem trainset i))
    ∧ (∀ i, i < Subset_len valset → is_Ok (Subset_getitem valset i)).
Proof.
  pose proof (split_dataset_80_20 dataset shuffle random_state entropy) as Hsplit.
  cbv zeta in Hsplit.
  set (n := length dataset) in *. set (k := Nat.div (4 * n) 5) in *.
  set (indices := if shuffle then permutation (RandomState random_state entropy) n
                  else seq 0 n) in *.
  assert (Hperm : indices ≡ₚ seq 0 n).
  { unfold indices. destruct shuffle; [apply permutation_Permutation|done]. }
  assert (Hin : Forall (λ j, j < n) indices).
  { rewrite Hperm. apply Forall_forall. intros j Hj%elem_of_seq. lia. }
  assert (Hint : Forall (λ j, j < n) (take k indices)) by (by apply Forall_take).
  assert (Hind : Forall (λ j, j < n) (drop k indices)) by (by apply Forall_drop).
  assert (Hget : ∀ idx i, Forall (λ j, j < n) idx → i < length idx →
            is_Ok (Subset_getitem (mkSubset dataset idx) i)).
  { intros idx i Hidx Hi. apply lookup_lt_is_Some_2 in Hi as [j Hj].
    pose proof (Forall_lookup_1 _ _ _ _ Hidx Hj) as Hjn.
    apply lookup_lt_is_Some_2 in Hjn as [d Hd]. exists d.
    unfold Subset_getitem. cbn [sub_indices sub_dataset]. rewrite Hj.
    unfold Dataset. by rewrite Hd. }
  exists (mkSubset dataset (take k indices)), (mkSubset dataset (drop k indices)).
  eexists _, _. split; [exact Hsplit|].
  split; [by apply Subset_items_omap|]. split; [by apply Subset_items_omap|].
  split; [|split; intros i Hi; by apply Hget].
  rewrite <- omap_app, take_drop, Hperm.
  pose proof (omap_lookup_seq [] dataset) as Hall. cbn [app length] in Hall.
  fold n in Hall. unfold Dataset in *. by rewrite Hall.
Qed.

(** ** The epoch number of a report, read back *)

Lemma digit_value_char (d : nat) : d < 10 → digit_value (digit_char d) = d.
Proof.
  intros Hd. unfold digit_value, digit_char.
  rewrite Ascii.nat_ascii_embedding by lia. lia.
Qed.

Lemma parse_digits_acc (s : string) (acc : nat) :
  parse_digits s acc = acc * 10 ^ String.length s + parse_digits s 0.
Proof.
  revert acc. induction s as [|c s IH]; intros acc; cbn [parse_digits String.length].
  - rewrite Nat.pow_0_r. lia.
  - rewrite (IH (10 * acc + digit_value c)), (IH (10 * 0 + digit_value c)).
    rewrite Nat.pow_succ_r'. lia.
Qed.

Lemma parse_dec_digits (fuel n : nat) (acc : string) :
  n < fuel →
  parse_nat (dec_digits fuel n acc) = n * 10 ^ String.length acc + parse_nat acc.
Proof.
  unfold parse_nat. revert n acc. induction fuel as [|fuel IH]; intros n acc Hn; [lia|].
  cbn [dec_digits].
  assert (Hd : n `mod` 10 < 10) by (apply Nat.mod_upper_bound; lia).
  pose proof (Nat.div_mod_eq n 10) as Hdm.
  assert (Hstep : parse_digits (String (digit_char (n `mod` 10)) acc) 0
            = n `mod` 10 * 10 ^ String.length acc + parse_digits acc 0).
  { cbn [parse_digits]. rewrite parse_digits_acc, digit_value_char by done. lia. }
  case_decide as Hq.
  - rewrite Hstep. f_equal. f_equal. lia.
  - rewrite IH.
    + rewrite Hstep. cbn [String.length]. rewrite Nat.pow_succ_r'. lia.
    + assert (n `div` 10 < n) by (apply Nat.div_lt; lia). lia.
Qed.

Lemma parse_zeros_app (k : nat) (s : string) : parse_nat (zeros k +:+ s) = parse_nat s.
Proof.
  unfold parse_nat. induction k as [|k IH]; [done|].
  change (parse_digits (zeros k +:+ s) (10 * 0 + digit_value (digit_char 0))
          = parse_digits s 0).
  replace (10 * 0 + digit_value (digit_char 0)) with 0
    by (rewrite digit_value_char; lia).
  exact IH.
Qed.

Lemma parse_digits_bound (s : string) :
  string_Forall is_digit s → parse_nat s < 10 ^ String.length s.
Proof.
  unfold parse_nat. induction s as [|c s IH]; cbn [string_Forall parse_digits String.length].
  - intros _. rewrite Nat.pow_0_r. lia.
  - intros [Hc Hs]. rewrite parse_digits_acc, Nat.pow_succ_r'.
    assert (digit_value c < 10) by (unfold digit_value, is_digit in *; lia).
    specialize (IH Hs). nia.
Qed.

Lemma format_d_parse (i : nat) : parse_nat (format_d i) = i.
Proof.
  unfold format_d. rewrite parse_dec_digits by lia. unfold parse_nat. simpl. lia.
Qed.

(** X13. The epoch number of a report line, [{:05d}], reads back as the
    epoch: its decimal value is [i], it has at least five characters, from
    10^5 on it is the plain decimal numeral without padding, and two
    different epochs never print the same number. *)
Theorem epoch_number_reads_back (i : nat) :
  parse_nat (format_05d i) = i
  ∧ 5 ≤ String.length (format_05d i)
  ∧ (10 ^ 5 ≤ i → format_05d i = format_d i ∧ 6 ≤ String.length (format_05d i))
  ∧ (∀ j, format_05d i = format_05d j → i = j).
Proof.
  assert (Hparse : ∀ k, parse_nat (format_05d k) = k).
  { intros k. unfold format_05d. by rewrite parse_zeros_app, format_d_parse. }
  split; [apply Hparse|]. split; [|split].
  - unfold format_05d. rewrite string_length_app, zeros_length. lia.
  - intros Hi.
    assert (Hlen : 6 ≤ String.length (format_d i)).
    { pose proof (parse_digits_bound (format_d i)) as Hb.
      rewrite format_d_parse in Hb.
      destruct (decide (6 ≤ String.length (format_d i))) as [|Hlt]; [done|].
      exfalso. assert (i < 10 ^ String.length (format_d i)) as Hi'.
      { apply Hb. unfold format_d. by apply dec_digits_digits. }
      assert (10 ^ String.length (format_d i) ≤ 10 ^ 5)
        by (apply Nat.pow_le_mono_r; lia).
      lia. }
    unfold format_05d. replace (5 - String.length (format_d i)) with 0 by lia.
    done.
  - intros j Hij. by rewrite <- (Hparse i), <- (Hparse j), Hij.
Qed.

(** ** The loading cell *)

Lemma float_node_attr_unfold (d : DGLGraph * Z) :
  float_node_attr d
  = match ndata d.1 !! "node_attr" with
    | None => Err (KeyError "node_attr")
    | Some t =>
        if decide (length (rows t) = num_nodes d.1)
        then Ok (set_frame d.1 (<["node_attr" := th_float t]> (ndata d.1)), d.2)
        else Err DGLError
    end.
Proof.
  unfold float_node_attr, se_bind, get_ndata, set_ndata.
  destruct (ndata d.1 !! "node_attr") as [t|]; [|done].
  unfold th_float. cbn [rows]. rewrite length_fmap. by case_decide.
Qed.

Lemma th_float_wf (sig : gmap string nat) (g : DGLGraph) (t : Tensor) :
  wf_graph sig g →
  ndata g !! "node_attr" = Some t →
  wf_graph sig (set_frame g (<["node_attr" := th_float t]> (ndata g))).
Proof.
  intros (Hsig & Hrows & Hplain) Ht. split; [|split; [|done]].
  - cbn [ndata set_frame]. rewrite <- Hsig. unfold frame_sig.
    rewrite fmap_insert. apply insert_id. by rewrite lookup_fmap, Ht.
  - cbn [ndata set_frame num_nodes]. apply map_Forall_insert_2; [|done].
    unfold th_float. cbn [rows]. rewrite length_fmap. by apply (Hrows _ _ Ht).
Qed.

Lemma load_cell_inv (raw dataset : Dataset) :
  load_cell raw = Ok dataset →
  Forall2 (λ d d', d'.2 = d.2
                   ∧ num_nodes d'.1 = num_nodes d.1
                   ∧ edges d'.1 = edges d.1
                   ∧ batch_info d'.1 = batch_info d.1
                   ∧ ∃ t, ndata d.1 !! "node_attr" = Some t
                       ∧ ndata d'.1 = <["node_attr" := th_float t]> (ndata d.1))
          raw dataset.
Proof.
  unfold load_cell. revert dataset. induction raw as [|d raw IH]; intros dataset; cbn [mapM].
  - intros [= <-]. constructor.
  - intros Hm. apply result_bind_Ok in Hm as (d' & Hd & Hm).
    apply result_bind_Ok in Hm as (rest & Hrest & Hm). injection Hm as <-.
    constructor; [|by apply IH].
    rewrite float_node_attr_unfold in Hd.
    destruct (ndata d.1 !! "node_attr") as [t|]; [|done].
    case_decide; [|done]. injection Hd as <-. cbn. do 4 (split; [done|]). by exists t.
Qed.

Lemma load_cell_ok (sig : gmap string nat) (raw : Dataset) :
  is_Some (sig !! "node_attr") →
  Forall (λ d, wf_graph sig d.1) raw →
  ∃ dataset, load_cell raw = Ok dataset
    ∧ length dataset = length raw
    ∧ Forall (λ d, wf_graph sig d.1) dataset.
Proof.
  intros [w Hw] Hwf. unfold load_cell.
  induction Hwf as [|d raw Hd _ (dataset & Hds & Hlen & Hdwf)]; [by exists []|].
  assert (∃ t, ndata d.1 !! "node_attr" = Some t) as [t Ht].
  { destruct Hd as (Hsig & _). rewrite <- Hsig, frame_sig_lookup in Hw.
    destruct (ndata d.1 !! "node_attr") as [t|]; [by exists t|done]. }
  eexists (_ :: dataset). cbn [mapM]. rewrite float_node_attr_unfold, Ht.
  rewrite decide_True by (destruct Hd as (_ & Hrows & _); by apply (Hrows _ _ Ht)).
  cbn [mbind result_bind]. rewrite Hds. cbn [mbind result_bind].
  split; [done|]. split; [simpl; by rewrite Hlen|].
  apply Forall_cons. split; [|done]. cbn [fst]. by apply th_float_wf.
Qed.

(** X1. The loading cell converts the [node_attr] features of every graph
    to floats and changes nothing else: when it returns, the dataset has
    the same length and labels, and each graph has the same nodes, edges
    and other features, with [node_attr] replaced by its float version.
    On a well-formed dataset it returns, and the result is well-formed
    with the same feature widths, when the graphs carry [node_attr]; it
    raises [KeyError] on a non-empty dataset whose graphs do not. *)
Theorem load_cell_keeps_dataset (sig : gmap string nat) (raw : Dataset) :
  (∀ dataset, load_cell raw = Ok dataset →
     Forall2 (λ d d', d'.2 = d.2
                      ∧ num_nodes d'.1 = num_nodes d.1
                      ∧ edges d'.1 = edges d.1
                      ∧ batch_info d'.1 = batch_info d.1
                      ∧ ∃ t, ndata d.1 !! "node_attr" = Some t
                          ∧ ndata d'.1 = <["node_attr" := th_float t]> (ndata d.1))
             raw dataset)
  ∧ (Forall (λ d, wf_graph sig d.1) raw →
     match sig !! "node_attr" with
     | Some _ => ∃ dataset, load_cell raw = Ok dataset
                   ∧ length dataset = length raw
                   ∧ Forall (λ d, wf_graph sig d.1) dataset
     | None => raw ≠ [] → load_cell raw = Err (KeyError "node_attr")
     end).
Proof.
  split; [apply load_cell_inv|].
  intros Hwf. destruct (sig !! "node_attr") as [w|] eqn:Hw.
  - apply load_cell_ok; [by rewrite Hw|done].
  - intros Hne. destruct raw as [|d raw]; [done|].
    apply Forall_cons in Hwf as [(Hsig & _) _].
    unfold load_cell. cbn [mapM]. rewrite float_node_attr_unfold.
    rewrite <- Hsig, frame_sig_lookup in Hw.
    by destruct (ndata d.1 !! "node_attr").
Qed.

(** ** The whole notebook *)

Lemma load_cell_labels (raw dataset : Dataset) (P : Z → Prop) :
  load_cell raw = Ok dataset →
  Forall (λ d : DGLGraph * Z, P d.2) raw →
  Forall (λ d : DGLGraph * Z, P d.2) dataset.
Proof.
  intros Hload%load_cell_inv Hraw.
  induction Hload as [|d d' raw dataset (Hl & _) _ IH]; [done|].
  apply Forall_cons in Hraw as [Hd Hraw].
  apply Forall_cons. split; [by rewrite Hl|by apply IH].
Qed.

Lemma run_notebook_split (sig : gmap string nat) (dataset : Dataset)
    (cuda_available : bool) (entropy : Z) (init : Params) (out : list string) :
  let n := length dataset in
  let k := Nat.div (4 * n) 5 in
  let indices := permutation (RandomState (Some 42%Z) entropy) n in
  let trainset := mkSubset dataset (take k indices) in
  let valset := mkSubset dataset (drop k indices) in
  let batches := DataLoader_batches (mkDataLoader trainset 512) in
  let m0 := GCNModel_init 18 64 6 init in
  let mo := at_epoch trainset batches (set_training m0 true, Adam_init (m_params m0)) in
  let lines := (λ i, epoch_report trainset batches (mo i) i) <$> seq 0 (epochs cuda_available) in
  let correct :=
    sum_list (batch_correct (mo (epochs cuda_available)).1 valset
                <$> DataLoader_batches (mkDataLoader valset 512)) in
  let st := mkState m0 (Adam_init (m_params m0)) true out in
  sig !! "node_attr" = Some 18 →
  Forall (λ d, wf_graph sig d.1) dataset →
  Forall (λ d : DGLGraph * Z, (0 ≤ d.2 < 6)%Z) dataset →
  ∃ r st',
    (run training_cell (epochs cuda_available) (mkDataLoader trainset 512);
     validation_cell (mkDataLoader valset 512))%se st = (r, st')
    ∧ r = (if decide (n ≤ 1) then Err ZeroDivisionError else Ok tt)
    ∧ if decide (n ≤ 1) then stdout st' = out
      else stdout st' = out ++ lines ++ [validation_line correct (n - k)]
           ∧ correct ≤ n - k.
Proof.
  intros n k indices trainset valset batches m0 mo lines correct st Hsig Hwf Hlab.
  assert (Hperm : indices ≡ₚ seq 0 n) by apply permutation_Permutation.
  assert (Hilen : length indices = n) by (by rewrite Hperm, length_seq).
  assert (Hk : 5 * k ≤ 4 * n < 5 * k + 5).
  { unfold k. pose proof (Nat.div_mod_eq (4 * n) 5).
    pose proof (Nat.mod_upper_bound (4 * n) 5). lia. }
  assert (Hep : 0 < epochs cuda_available) by (destruct cuda_available; simpl; lia).
  set (train_loader := mkDataLoader trainset 512).
  set (val_loader := mkDataLoader valset 512).
  destruct (decide (n ≤ 1)) as [Hn|Hn].
  - assert (Hempty : Subset_len (dl_dataset train_loader) = 0).
    { unfold Subset_len. cbn [train_loader trainset dl_dataset sub_indices].
      rewrite length_take, Hilen. lia. }
    eexists _, _. unfold se_bind at 1.
    rewrite (training_cell_empty_set _ train_loader st Hempty Hep).
    split; [done|]. split; done.
  - assert (Hwft : wf_loader 18 train_loader).
    { eapply split_loaders_wf; [lia|done|done|exact Hperm|]. apply subseteq_take. }
    assert (Hwfv : wf_loader 18 val_loader).
    { eapply split_loaders_wf; [lia|done|done|exact Hperm|]. apply subseteq_drop. }
    assert (Hlabt : labels_in_range 6 (dl_dataset train_loader)).
    { eapply (split_labels_in_range 6); [exact Hlab|exact Hperm|apply subseteq_take]. }
    assert (Hinv : train_inv 18 st) by done.
    assert (Hpost : 0 < Subset_len (dl_dataset train_loader)).
    { unfold Subset_len. cbn [train_loader trainset dl_dataset sub_indices].
      rewrite length_take, Hilen. lia. }
    assert (Htot : Subset_len (dl_dataset val_loader) = n - k).
    { unfold Subset_len. cbn [val_loader valset dl_dataset sub_indices].
      by rewrite length_drop, Hilen. }
    set (st0 := set_model st (set_training (model st) true)).
    destruct (training_loop_ok 18 train_loader (epochs cuda_available) 0 st0 Hwft)
      as (st' & Hloop & [Hm' _] & _ & Hmo & Hout); [done|done|done|].
    assert (Hmodel : model st' = (mo (epochs cuda_available)).1).
    { change (model st') with (model st', optimizer st').1. by rewrite Hmo. }
    destruct (validation_cell_unfold 18 val_loader st' Hwfv Hm') as (_ & Hle & Hval).
    rewrite Htot in Hval, Hle. rewrite decide_False in Hval by lia.
    rewrite Hmodel in Hval, Hle.
    eexists _, _. split; [|split; [done|]].
    { unfold se_bind at 1. unfold training_cell, se_bind at 1. unfold model_train.
      fold st0. rewrite Hloop. exact Hval. }
    cbn [stdout]. split; [|exact Hle].
    rewrite Hout. cbn [stdout st0 set_model st]. by rewrite <- app_assoc.
Qed.

Lemma load_cell_head (d : DGLGraph * Z) (raw dataset : Dataset) :
  load_cell (d :: raw) = Ok dataset →
  ∃ t, ndata d.1 !! "node_attr" = Some t
    ∧ dataset !! 0 = Some (set_frame d.1 (<["node_attr" := th_float t]> (ndata d.1)), d.2).
Proof.
  unfold load_cell. cbn [mapM]. intros Hm.
  apply result_bind_Ok in Hm as (d' & Hd & Hm).
  apply result_bind_Ok in Hm as (rest & Hrest & Hm). injection Hm as <-.
  rewrite float_node_attr_unfold in Hd.
  destruct (ndata d.1 !! "node_attr") as [t|]; [|done].
  case_decide; [|done]. injection Hd as <-. by exists t.
Qed.

(** X14. The cells of the notebook run in order on a well-formed dataset
    with features of width 18 and labels among the six classes: on an
    empty dataset the inspection cell raises [IndexError] at [dataset[0]]
    with nothing printed; on a single graph the training set of the split
    is empty and the training cell raises [ZeroDivisionError] after the
    four lines of the graph, its label, the device and the model; on two
    graphs or more the notebook returns, and these four lines are followed
    by the reports of the epochs (50, or 500 with CUDA) on the first
    floor(4n/5) indices of the permutation drawn with seed 42, and by the
    validation line: the correct predictions of the trained model on the
    other indices over their number, n - floor(4n/5). *)
Theorem run_notebook_outcomes (sig : gmap string nat) (raw : Dataset) (cuda_available : bool)
    (entropy : Z) (init : Params) :
  sig !! "node_attr" = Some 18 →
  Forall (λ d, wf_graph sig d.1) raw →
  Forall (λ d : DGLGraph * Z, (0 ≤ d.2 < 6)%Z) raw →
  match raw with
  | [] => run_notebook raw cuda_available entropy init = (Err IndexError, [])
  | d :: rest =>
      ∃ t dataset, ndata d.1 !! "node_attr" = Some t
        ∧ load_cell raw = Ok dataset
        ∧ let graph := set_frame d.1 (<["node_attr" := th_float t]> (ndata d.1)) in
          let m0 := GCNModel_init 18 64 6 init in
          let header := [repr_graph graph; repr_label d.2;
                         if cuda_available then "cuda" else "cpu";
                         repr_model m0] in
          let n := length raw in
          match rest with
          | [] => run_notebook raw cuda_available entropy init = (Err ZeroDivisionError, header)
          | _ :: _ =>
              let k := Nat.div (4 * n) 5 in
              let indices := permutation (RandomState (Some 42%Z) entropy) n in
              let trainset := mkSubset dataset (take k indices) in
              let valset := mkSubset dataset (drop k indices) in
              let batches := DataLoader_batches (mkDataLoader trainset 512) in
              let mo := at_epoch trainset batches
                          (set_training m0 true, Adam_init (m_params m0)) in
              let correct :=
                sum_list (batch_correct (mo (epochs cuda_available)).1 valset
                            <$> DataLoader_batches (mkDataLoader valset 512)) in
              run_notebook raw cuda_available entropy init
              = (Ok tt, header
                          ++ ((λ i, epoch_report trainset batches (mo i) i)
                                <$> seq 0 (epochs cuda_available))
                          ++ [validation_line correct (n - k)])
              ∧ correct ≤ n - k
          end
  end.
Proof.
  intros Hsig Hwf Hlab.
  destruct (load_cell_ok sig raw) as (dataset & Hload & Hlen & Hdwf); [by rewrite Hsig|done|].
  pose proof (load_cell_labels raw dataset (λ l, (0 ≤ l < 6)%Z) Hload Hlab) as Hdlab.
  destruct raw as [|d rest].
  { unfold run_notebook. rewrite Hload. by destruct dataset. }
  destruct (load_cell_head d rest dataset Hload) as (t & Ht & Hhead).
  exists t, dataset. split; [done|]. split; [done|]. cbv zeta.
  unfold run_notebook. rewrite Hload, Hhead, split_dataset_80_20. cbv zeta.
  destruct (run_notebook_split sig dataset cuda_available entropy init
              ([repr_graph (set_frame d.1 (<["node_attr" := th_float t]> (ndata d.1)));
                repr_label d.2]
               ++ [(if cuda_available then "cuda" else "cpu" : string);
                   repr_model (GCNModel_init 18 64 6 init)]) Hsig Hdwf Hdlab)
    as (r & st' & Hrun & Hr & Hout).
  rewrite Hrun, Hr, Hlen. rewrite Hlen in Hout. clear Hrun Hr.
  destruct rest as [|d2 rest].
  - rewrite !decide_True in * by (simpl; lia). by rewrite Hout.
  - rewrite !decide_False by (simpl; lia). rewrite decide_False in Hout by (simpl; lia).
    destruct Hout as [Hout Hle]. split; [|exact Hle]. by rewrite Hout.
Qed.

End MoreProofs.

(** * The further statements at concrete inputs *)

Section MoreWitnesses.
#[local] Existing Instance Sample.ZOps.
#[local] Existing Instance Sample.ZGrad.
#[local] Existing Instance Sample.LCG.
#[local] Existing Instance SampleCells.ZNotebook.

Ltac solve_sample_indices :=
  repeat first [apply Forall_nil_2 | apply Forall_cons; split; [cbv beta; lia|]].

Lemma sample_wf_five : Forall (λ d, wf_graph Sample.sig0 d.1) Sample.five.
Proof.
  repeat (apply Forall_cons; split;
          [first [exact sample_wf_edge | exact sample_wf_isolated]|]).
  apply Forall_nil_2.
Qed.

Lemma sample_wf_one : Forall (λ d, wf_graph Sample.sig0 d.1) SampleCells.one.
Proof. apply Forall_cons. split; [exact sample_wf_edge|apply Forall_nil_2]. Qed.

Lemma sample_wf_bare : wf_graph ∅ SampleCells.g_bare.
Proof.
  split; [apply fmap_empty|]. split; [apply map_Forall_empty|done].
Qed.

Lemma sample_wf_narrow : wf_loader 7 SampleCells.narrow_loader.
Proof.
  split; [vm_compute; lia|]. exists {[ "node_attr" := 7 ]}. split; [done|].
  apply Forall_cons. split; [|apply Forall_nil_2].
  eexists. split; [reflexivity|].
  split; [by vm_compute|]. split; [|done].
  unfold SampleCells.g_narrow. cbn [fst ndata num_nodes].
  by apply map_Forall_singleton.
Qed.

Lemma sample_edges_in_range :
  edges_in_range Sample.g_edge ∧ edges_in_range Sample.g_isolated.
Proof.
  split; [|apply Forall_nil_2].
  apply Forall_cons. split; [vm_compute; lia|].
  apply Forall_cons. split; [vm_compute; lia|]. apply Forall_nil_2.
Qed.

Lemma load_cell_keeps_dataset_witness :
  Forall (λ d, wf_graph Sample.sig0 d.1) SampleCells.one
  ∧ ∃ dataset, load_cell SampleCells.one = Ok dataset
      ∧ length dataset = length SampleCells.one
      ∧ Forall (λ d, wf_graph Sample.sig0 d.1) dataset.
Proof.
  split; [exact sample_wf_one|].
  destruct (load_cell_keeps_dataset Sample.sig0 SampleCells.one) as [_ Hok].
  exact (Hok sample_wf_one).
Defined.

Lemma training_on_empty_set_raises_witness :
  Subset_len (dl_dataset (Sample.loader [])) = 0
  ∧ 0 < 1
  ∧ training_cell 1 (Sample.loader []) Sample.state0
    = (Err ZeroDivisionError,
       set_model Sample.state0 (set_training (model Sample.state0) true)).
Proof.
  split; [reflexivity|]. split; [lia|].
  apply (training_on_empty_set_raises 1 (Sample.loader []) Sample.state0); [reflexivity|lia].
Defined.

Lemma missing_node_attr_raises_witness :
  (∅ : gmap string nat) !! "node_attr" = None
  ∧ 0 < Subset_len (dl_dataset SampleCells.bare_loader)
  ∧ validation_cell SampleCells.bare_loader Sample.state0
    = (Err (KeyError "node_attr"),
       mkState (set_training (model Sample.state0) false) (optimizer Sample.state0)
         (grad_enabled Sample.state0) (stdout Sample.state0))
  ∧ training_cell 1 SampleCells.bare_loader Sample.state0
    = (Err (KeyError "node_attr"),
       set_model Sample.state0 (set_training (model Sample.state0) true)).
Proof.
  split; [reflexivity|]. split; [vm_compute; lia|].
  apply (missing_node_attr_raises ∅ 1 SampleCells.bare_loader Sample.state0);
    [reflexivity| |vm_compute; lia|lia].
  apply Forall_cons. split; [|apply Forall_nil_2].
  eexists. split; [reflexivity|exact sample_wf_bare].
Defined.

Lemma forward_rejects_wrong_shape_witness :
  width SampleCells.X_narrow ≠ m_in_feats Sample.model0
  ∧ length (rows SampleCells.X_narrow) = num_nodes Sample.bg_isolated
  ∧ GCNModel_forward Sample.model0 SampleCells.X_narrow Sample.bg_isolated
    = (Err RuntimeError, Sample.bg_isolated).
Proof.
  assert (Hw : width SampleCells.X_narrow ≠ m_in_feats Sample.model0) by (vm_compute; lia).
  split; [exact Hw|]. split; [reflexivity|].
  destruct (forward_rejects_wrong_shape Sample.model0 Sample.bg_isolated SampleCells.X_narrow)
    as [Hwidth _].
  destruct (Hwidth Hw) as (e & He & Hrt).
  rewrite (Hrt eq_refl) in He. exact He.
Defined.

Lemma wrong_feature_width_raises_witness :
  wf_loader 7 SampleCells.narrow_loader
  ∧ 7 ≠ m_in_feats (model Sample.state0)
  ∧ validation_cell SampleCells.narrow_loader Sample.state0
    = (Err RuntimeError,
       mkState (set_training (model Sample.state0) false) (optimizer Sample.state0)
         (grad_enabled Sample.state0) (stdout Sample.state0))
  ∧ training_cell 1 SampleCells.narrow_loader Sample.state0
    = (Err RuntimeError, set_model Sample.state0 (set_training (model Sample.state0) true)).
Proof.
  assert (Hw : 7 ≠ m_in_feats (model Sample.state0)) by (vm_compute; lia).
  split; [exact sample_wf_narrow|]. split; [exact Hw|].
  apply (wrong_feature_width_raises 7 1 SampleCells.narrow_loader Sample.state0
           sample_wf_narrow Hw); [vm_compute; lia|lia].
Defined.

Lemma batched_forward_is_per_graph_witness :
  ∃ bg, dgl_batch SampleCells.pair_rows.*1 = Ok bg
    ∧ call_model Sample.model0 bg
        (mkTensor (m_in_feats Sample.model0) (mjoin SampleCells.pair_rows.*2))
      = Ok (mkTensor (m_out_feats Sample.model0)
              ((λ p, graph_logits Sample.model0 p.1 p.2) <$> SampleCells.pair_rows)).
Proof.
  assert (Hwf : Forall (wf_graph Sample.sig0) SampleCells.pair_rows.*1).
  { apply Forall_cons. split; [exact sample_wf_edge|].
    apply Forall_cons. split; [exact sample_wf_edge|]. apply Forall_nil_2. }
  destruct (dgl_batch_ok Sample.sig0 SampleCells.pair_rows.*1) as (bg & Hbg & _);
    [discriminate|exact Hwf|].
  exists bg. split; [exact Hbg|].
  assert (Hps : Forall (λ p : DGLGraph * list Z,
                          edges_in_range p.1 ∧ batch_info p.1 = None
                          ∧ length p.2 = num_nodes p.1) SampleCells.pair_rows).
  { destruct sample_edges_in_range as [He Hi].
    apply Forall_cons. split; [split; [exact He|split; reflexivity]|].
    apply Forall_cons. split; [split; [exact He|split; reflexivity]|]. apply Forall_nil_2. }
  assert (Hu : uniform_edges SampleCells.pair_rows.*1).
  { left. apply Forall_cons. split; [discriminate|].
    apply Forall_cons. split; [discriminate|]. apply Forall_nil_2. }
  exact (proj1 (batched_forward_is_per_graph Sample.model0 SampleCells.pair_rows bg
                  Hps Hu Hbg)).
Defined.

Lemma collate_keeps_graphs_apart_witness :
  Forall (wf_graph Sample.sig0) Sample.pair_data.*1
  ∧ ∃ bg t, collate_molgraphs_for_classification Sample.pair_data = Ok (bg, [0%Z; 1%Z])
      ∧ ndata bg !! "node_attr" = Some t
      ∧ segments (batch_num_nodes bg) (rows t) = rows_at "node_attr" <$> Sample.pair_data.*1.
Proof.
  split; [exact sample_wf_pair|].
  destruct (collate_ok Sample.sig0 Sample.pair_data) as (bg & Hc & _);
    [discriminate|exact sample_wf_pair|].
  destruct (collate_keeps_graphs_apart Sample.sig0 Sample.pair_data bg _ sample_wf_pair Hc)
    as (Hseg & _).
  destruct (Hseg "node_attr" 18 eq_refl) as (t & Ht & _ & Hrows).
  exists bg, t. split; [exact Hc|]. split; [exact Ht|exact Hrows].
Defined.

Lemma validation_is_per_graph_witness :
  wf_loader 18 (Sample.loader [0; 2; 4])
  ∧ subset_in_range (dl_dataset (Sample.loader [0; 2; 4]))
  ∧ subset_uniform (dl_dataset (Sample.loader [0; 2; 4]))
  ∧ validation_cell (mkDataLoader (dl_dataset (Sample.loader [0; 2; 4])) 1) Sample.state0
    = validation_cell (Sample.loader [0; 2; 4]) Sample.state0.
Proof.
  assert (Hwf : wf_loader 18 (Sample.loader [0; 2; 4]))
    by (apply sample_wf_loader; solve_sample_indices).
  destruct sample_edges_in_range as [He Hi].
  assert (Hin : subset_in_range (dl_dataset (Sample.loader [0; 2; 4]))).
  { apply Forall_cons. split; [eexists; split; [reflexivity|exact He]|].
    apply Forall_cons. split; [eexists; split; [reflexivity|exact He]|].
    apply Forall_cons. split; [eexists; split; [reflexivity|exact He]|].
    apply Forall_nil_2. }
  assert (Hu : subset_uniform (dl_dataset (Sample.loader [0; 2; 4]))).
  { left.
    apply Forall_cons. split; [eexists; split; [reflexivity|discriminate]|].
    apply Forall_cons. split; [eexists; split; [reflexivity|discriminate]|].
    apply Forall_cons. split; [eexists; split; [reflexivity|discriminate]|].
    apply Forall_nil_2. }
  split; [exact Hwf|]. split; [exact Hin|]. split; [exact Hu|].
  apply (validation_is_per_graph 18 (Sample.loader [0; 2; 4]) Sample.state0
           Hwf Hin Hu eq_refl); [vm_compute; lia|lia].
Defined.

Lemma loader_batches_shape_witness :
  0 < dl_batch_size (Sample.loader [0; 1; 2])
  ∧ length (DataLoader_batches (Sample.loader [0; 1; 2])) = 2
  ∧ mjoin (DataLoader_batches (Sample.loader [0; 1; 2])) = [0; 1; 2].
Proof.
  assert (Hbs : 0 < dl_batch_size (Sample.loader [0; 1; 2])) by (vm_compute; lia).
  split; [exact Hbs|].
  destruct (loader_batches_shape (Sample.loader [0; 1; 2]) Hbs) as (Hjoin & _ & _ & Hlen & _).
  split; [exact Hlen|exact Hjoin].
Defined.

Lemma split_keeps_every_item_witness :
  ∃ trainset valset train_items val_items,
    split_dataset Sample.five [4 # 5; 1 # 5]%Q true (Some 42%Z) 0%Z = Ok [trainset; valset]
    ∧ Subset_items trainset = Ok train_items
    ∧ Subset_items valset = Ok val_items
    ∧ train_items ++ val_items ≡ₚ Sample.five.
Proof.
  destruct (split_keeps_every_item Sample.five true (Some 42%Z) 0%Z)
    as (trainset & valset & train_items & val_items & Hs & Ht & Hv & Hp & _).
  by exists trainset, valset, train_items, val_items.
Defined.

Lemma epoch_number_reads_back_witness :
  parse_nat (format_05d 499) = 499
  ∧ ∀ j, format_05d 499 = format_05d j → 499 = j.
Proof.
  destruct (epoch_number_reads_back 499) as (Hparse & _ & _ & Hinj).
  split; [exact Hparse|exact Hinj].
Defined.

Lemma sample_labels_five : Forall (λ d : DGLGraph * Z, (0 ≤ d.2 < 6)%Z) Sample.five.
Proof. repeat (apply Forall_cons; split; [simpl; lia|]). apply Forall_nil_2. Qed.

Lemma run_notebook_outcomes_witness :
  Sample.sig0 !! "node_attr" = Some 18
  ∧ Forall (λ d, wf_graph Sample.sig0 d.1) Sample.five
  ∧ Forall (λ d : DGLGraph * Z, (0 ≤ d.2 < 6)%Z) Sample.five
  ∧ ∃ graph lines correct,
      run_notebook Sample.five false 0%Z Sample.params0
      = (Ok tt, [repr_graph graph; repr_label 0%Z; "cpu";
                 repr_model (GCNModel_init 18 64 6 Sample.params0)]
                ++ lines ++ [validation_line correct 1])
      ∧ length lines = 50.
Proof.
  split; [reflexivity|]. split; [exact sample_wf_five|]. split; [exact sample_labels_five|].
  destruct (run_notebook_outcomes Sample.sig0 Sample.five false 0%Z Sample.params0
              eq_refl sample_wf_five sample_labels_five)
    as (t & dataset & _ & _ & Hrun & _).
  eexists _, _, _. split; [exact Hrun|]. by rewrite length_fmap, length_seq.
Defined.

(** ** The notebook, run *)

Example run_notebook_sample :
  run_notebook Sample.five false 0%Z Sample.params0
  = (Ok tt,
     ["DGLGraph(num_nodes=2)"; "0"; "cpu"; "GCNModel"]
     ++ ((λ i, "Epoch " +:+ format_05d i +:+ " | Loss: 4.0000 | Accuracy: 0.0000")
           <$> seq 0 50)
     ++ ["Validation Accuracy: 0.0000"]).
Proof. vm_compute. reflexivity. Qed.

Example run_notebook_short :
  run_notebook [] false 0%Z Sample.params0 = (Err IndexError, [])
  ∧ run_notebook SampleCells.one false 0%Z Sample.params0
    = (Err ZeroDivisionError, ["DGLGraph(num_nodes=2)"; "0"; "cpu"; "GCNModel"]).
Proof. vm_compute. split; reflexivity. Qed.

(** The graphs of a batch must be alike for the rows of logits to be
    those of the graphs alone: batched with a graph that has edges, a
    graph without edges takes part in the message passing of the batch and
    its nodes receive nothing, whereas alone its features go through the
    layers. *)
Example mixed_batch_sample :
  rows_of (call_model Sample.model0 SampleCells.bg_mixed
             (mkTensor 18 (mjoin SampleCells.mixed_rows.*2)))
  = [graph_logits Sample.model0 Sample.g_edge [1%Z; 2%Z]; 0%Z]
  ∧ graph_logits Sample.model0 Sample.g_isolated [3%Z; 4%Z; 5%Z] = 15%Z.
Proof. vm_compute. split; reflexivity. Qed.

End MoreWitnesses.
